(** * Exercise widgets of the documentation site

    A shallow embedding of the interactive parts of the site:

    - [ProgressTracker] (src/components/ProgressTracker.tsx), a function
      component over three JavaScript numbers;
    - the widget instances written in the exercise pages
      (src/pages/exercises/react/*.mdx);
    - [Quiz], [CodeSandbox] and [CodingChallenge], whose component sources
      (src/components/Quiz.tsx, src/components/CodingChallenge.tsx) are
      missing and are modelled from the specification.

    JavaScript numbers are IEEE 754 binary64 values, which is what Rocq's
    primitive [float] is; [Prim2SF] gives their sign, mantissa and exponent. *)

From Stdlib Require Import ZArith List String Ascii Bool Lia Floats DecimalString.
Import ListNotations.

Open Scope string_scope.
Open Scope Z_scope.

(** ** JavaScript numbers *)

Definition number := float.
Bind Scope float_scope with number.

(** [Math.round]: the integral number closest to [x], ties towards
    +Infinity; NaN, the infinities, the zeros and integral numbers are
    returned as they are, and a result of zero keeps the sign of [x]. *)
Module Math.

Definition of_integer (r : Z) : number :=
  SF2Prim (binary_normalize prec emax r 0 false).

(** [floor (x + 1/2)] for the number [x] of sign [s], mantissa [m] and
    exponent [e]: [x = n * 2^e] with [n = m] or [n = - m]. *)
Definition rounded (s : bool) (m : positive) (e : Z) : Z :=
  (2 * (if s then Zneg m else Zpos m) + 2 ^ (- e)) / 2 ^ (1 - e).

Definition round (x : number) : number :=
  match Prim2SF x with
  | S754_finite s m e =>
      if 0 <=? e then x
      else
        match rounded s m e with
        | Z0 => if s then neg_zero else zero
        | r => of_integer r
        end
  | _ => x
  end.

End Math.

(** [Number.toString]: the string a template literal or a string
    concatenation puts in place of a number (radix 10): the shortest digit
    string [s] of [k] digits with [s * 10^(n-k)] reading back as the number,
    the closest one when several exist, laid out in positional or in
    exponent notation according to [n]. *)
Module Number.

(** [a * 2^p * 10^q], as an integer, in units of [2^p0 * 10^q0]. *)
Definition scale (a p q p0 q0 : Z) : Z := Z.shiftl a (p - p0) * 10 ^ (q - q0).

Definition cmp_exact (a p q b p' q' : Z) : comparison :=
  let p0 := Z.min p p' in
  let q0 := Z.min q q' in
  Z.compare (scale a p q p0 q0) (scale b p' q' p0 q0).

Definition leb_exact a p q b p' q' : bool :=
  match cmp_exact a p q b p' q' with Gt => false | _ => true end.

Definition ltb_exact a p q b p' q' : bool :=
  match cmp_exact a p q b p' q' with Lt => true | _ => false end.

Definition decimal (z : Z) : string :=
  NilZero.string_of_uint (N.to_uint (Z.to_N z)).

Fixpoint zeros (n : nat) : string :=
  match n with
  | O => EmptyString
  | S n' => String "0" (zeros n')
  end.

(** The largest [n] in [(lo, lo + fuel]] with [10^(n-1) <= m * 2^e]. *)
Fixpoint magnitude (fuel : nat) (lo m e : Z) : Z :=
  match fuel with
  | O => lo
  | S fuel' =>
      let n := lo + Z.of_nat fuel in
      if leb_exact 1 0 (n - 1) m e 0 then n else magnitude fuel' lo m e
  end.

Record digits := { dig_s : Z; dig_k : Z; dig_n : Z }.

Section shortest.
Variables m e : Z.

(** In units of [2^(e-2)] the number is [4m]; the numbers that read
    back as it lie between the midpoints to its two neighbours, the
    midpoints included when [m] is even. *)
Definition lower : Z :=
  if (m =? 2 ^ 52) && (-1074 <? e) then 4 * m - 1 else 4 * m - 2.
Definition upper : Z := 4 * m + 2.

Definition in_interval (s j : Z) : bool :=
  if Z.even m
  then leb_exact lower (e - 2) 0 s 0 j && leb_exact s 0 j upper (e - 2) 0
  else ltb_exact lower (e - 2) 0 s 0 j && ltb_exact s 0 j upper (e - 2) 0.

Definition n0 : Z :=
  magnitude 4 ((Z.log2 m + e) * 30103 / 100000 - 1) m e.

(** [floor (m * 2^e / 10^(n0-k))]: the first [k] digits. *)
Definition floor_at (k : Z) : Z :=
  let j := n0 - k in
  let p0 := Z.min e 0 in
  let q0 := Z.min j 0 in
  scale m e 0 p0 q0 / scale 1 0 j p0 q0.

Definition pick (k : Z) : option Z :=
  let j := n0 - k in
  let lo := floor_at k in
  let hi := lo + 1 in
  match in_interval lo j, in_interval hi j with
  | false, false => None
  | true, false => Some lo
  | false, true => Some hi
  | true, true =>
      match cmp_exact (2 * m) e 0 (lo + hi) 0 j with
      | Lt => Some lo
      | Gt => Some hi
      | Eq => Some (if Z.even lo then lo else hi)
      end
  end.

Fixpoint search (fuel : nat) (k : Z) : digits :=
  match fuel with
  | O => {| dig_s := floor_at k; dig_k := k; dig_n := n0 |}
  | S fuel' =>
      match pick k with
      | Some s =>
          if s =? 10 ^ k
          then {| dig_s := 10 ^ (k - 1); dig_k := k; dig_n := n0 + 1 |}
          else {| dig_s := s; dig_k := k; dig_n := n0 |}
      | None => search fuel' (k + 1)
      end
  end.

Definition shortest : digits := search 17 1.
End shortest.

Definition layout (d : digits) : string :=
  let s := decimal (dig_s d) in
  let k := dig_k d in
  let n := dig_n d in
  if (k <=? n) && (n <=? 21) then
    s ++ zeros (Z.to_nat (n - k))
  else if (0 <? n) && (n <=? 21) then
    substring 0 (Z.to_nat n) s ++ "." ++ substring (Z.to_nat n) (Z.to_nat (k - n)) s
  else if (-6 <? n) && (n <=? 0) then
    "0." ++ zeros (Z.to_nat (- n)) ++ s
  else
    let ex := (if 0 <=? n - 1 then "+" else "-") ++ decimal (Z.abs (n - 1)) in
    if k =? 1 then s ++ "e" ++ ex
    else substring 0 1 s ++ "." ++ substring 1 (Z.to_nat (k - 1)) s ++ "e" ++ ex.

Definition toString (x : number) : string :=
  match Prim2SF x with
  | S754_nan => "NaN"
  | S754_zero _ => "0"
  | S754_infinity false => "Infinity"
  | S754_infinity true => "-Infinity"
  | S754_finite s m e =>
      (if s then "-" else EmptyString) ++ layout (shortest (Zpos m) e)
  end.

End Number.

(** ** React elements and rendering *)

Module React.

(** What a component returns: text, a number child (React prints it when
    the element reaches the DOM), or a host element with its class name,
    inline style and children. *)
#[warnings="-register-all"]
Inductive Node : Type :=
| Text (s : string)
| Num (x : number)
| Element (tag : string) (className : option string)
          (style : list (string * string)) (children : list Node).

(** A call of a function component either returns or throws, and may read
    and write the state React keeps for the instance (hooks, effects). *)
Inductive Outcome (A : Type) : Type :=
| Returned (a : A)
| Thrown (error : string).
Arguments Returned {A} a.
Arguments Thrown {A} error.

Definition Render (St A : Type) : Type := St -> Outcome A * St.

Definition ret {St A : Type} (a : A) : Render St A :=
  fun st => (Returned a, st).

(** Queries on a rendered tree. *)
Fixpoint numbers (n : Node) : list number :=
  match n with
  | Text _ => []
  | Num x => [x]
  | Element _ _ _ children => flat_map numbers children
  end.

Fixpoint select (cls : string) (n : Node) : list Node :=
  match n with
  | Text _ | Num _ => []
  | Element _ className _ children =>
      (match className with
       | Some c => if String.eqb c cls then [n] else []
       | None => []
       end) ++ flat_map (select cls) children
  end.

Fixpoint by_tag (name : string) (n : Node) : list Node :=
  match n with
  | Text _ | Num _ => []
  | Element tag _ _ children =>
      (if String.eqb tag name then [n] else [])
      ++ flat_map (by_tag name) children
  end.

Fixpoint styles (prop : string) (n : Node) : list string :=
  match n with
  | Text _ | Num _ => []
  | Element _ _ style children =>
      map snd (filter (fun kv => String.eqb (fst kv) prop) style)
      ++ flat_map (styles prop) children
  end.

(** The text React writes for a tree: numbers printed by [Number.toString]. *)
Fixpoint textContent (n : Node) : string :=
  match n with
  | Text s => s
  | Num x => Number.toString x
  | Element _ _ _ children => String.concat EmptyString (map textContent children)
  end.

End React.
Import React.

(** ** src/components/ProgressTracker.tsx *)

Record ProgressTrackerProps : Type := {
  section : number;
  completedTasks : number;
  totalTasks : number
}.

(** [const percentage = Math.round((completedTasks / totalTasks) * 100)] *)
Definition percentage (completedTasks totalTasks : number) : number :=
  Math.round ((completedTasks / totalTasks) * 100)%float.

Definition ProgressTracker {St : Type} (props : ProgressTrackerProps)
  : Render St Node :=
  let percentage := percentage (completedTasks props) (totalTasks props) in
  ret
    (Element "div" (Some "progress-tracker") []
       [ Element "h3" None []
           [Text "Section "; Num (section props); Text " Progress"];
         Element "div" (Some "progress-bar") []
           [ Element "div" (Some "progress")
               [("width", Number.toString percentage ++ "%")] [] ];
         Element "p" None []
           [ Num (completedTasks props); Text " of "; Num (totalTasks props);
             Text " tasks completed ("; Num percentage; Text "%)" ] ]).

(** ** The widget instances of the exercise pages

    The JSX elements of the three exercise pages that instantiate the
    widgets, in page order, each with its props as written: a quoted
    attribute or a template literal is a string, [{n}] a number and
    [{[...]}] an array of strings. *)

Inductive PropValue : Type :=
| PString (s : string)
| PNumber (x : number)
| PArray (items : list string).

Record JsxElement : Type := {
  component : string;
  props : list (string * PropValue)
}.

(** The double quote character, for the attribute values that contain it. *)
Definition dq : string := String (ascii_of_nat 34) EmptyString.

(** src/pages/exercises/react/introduction-to-react.mdx *)
Definition introduction_to_react : list JsxElement := [
  {| component := "ProgressTracker";
     props := [
      ("section", PNumber 1%float);
      ("completedTasks", PNumber 0%float);
      ("totalTasks", PNumber 5%float) ] |};
  {| component := "Quiz";
     props := [
      ("question", PString ("What is the primary building block of React applications?"));
      ("options", PArray ["Functions"; "Classes"; "Components"; "Modules"]);
      ("correctAnswer", PString ("Components")) ] |};
  {| component := "Quiz";
     props := [
      ("question", PString ("Which of the following is NOT a key concept in React?"));
      ("options", PArray ["Virtual DOM"; "Two-way Data Binding"; "JSX"; "Component-Based Architecture"]);
      ("correctAnswer", PString ("Two-way Data Binding")) ] |};
  {| component := "CodingChallenge";
     props := [
      ("initialCode", PString ("
function Greeting(props) {
  // Your code here
}

// Render the component
render(<Greeting name=" ++ dq ++ "React Learner" ++ dq ++ " />);
"));
      ("solution", PString ("
function Greeting(props) {
return <h1>Hello, {props.name}!</h1>;
}

// Render the component
render(<Greeting name=" ++ dq ++ "React Learner" ++ dq ++ " />);
")) ] |};
  {| component := "CodingChallenge";
     props := [
      ("initialCode", PString ("
function ToggleButton() {
  // Your code here
}

// Render the component
render(<ToggleButton />);
"));
      ("solution", PString ("
function ToggleButton() {
const [isOn, setIsOn] = React.useState(false);

return (

<button onClick={() => setIsOn(!isOn)}>{isOn ? " ++ dq ++ "ON" ++ dq ++ " : " ++ dq ++ "OFF" ++ dq ++ "}</button>
); }

// Render the component
render(<ToggleButton />);
")) ] |} ].

(** src/pages/exercises/react/jsx-syntax-exercises.mdx *)
Definition jsx_syntax_exercises : list JsxElement := [
  {| component := "ProgressTracker";
     props := [
      ("section", PNumber 1%float);
      ("completedTasks", PNumber 1%float);
      ("totalTasks", PNumber 5%float) ] |};
  {| component := "Quiz";
     props := [
      ("question", PString ("What does JSX stand for?"));
      ("options", PArray ["JavaScript XML"; "Java Syntax Extension"; "JSON XML"; "JavaScript Execution"]);
      ("correctAnswer", PString ("JavaScript XML")) ] |};
  {| component := "Quiz";
     props := [
      ("question", PString ("Which of the following is NOT a key feature of JSX?"));
      ("options", PArray ["XML-like syntax"; "Ability to embed JavaScript expressions"; "Direct execution in browsers"; "Represents React elements"]);
      ("correctAnswer", PString ("Direct execution in browsers")) ] |};
  {| component := "Quiz";
     props := [
      ("question", PString ("In JSX, how do you write a JavaScript expression?"));
      ("options", PArray ["Using square brackets []"; "Using parentheses ()"; "Using curly braces {}"; "Using angle brackets <>"]);
      ("correctAnswer", PString ("Using curly braces {}")) ] |};
  {| component := "CodingChallenge";
     props := [
      ("initialCode", PString ("
function ButtonElement() {
  // Your code here
}

// Render the component
render(<ButtonElement />);
"));
      ("solution", PString ("
function ButtonElement() {
return <button className=" ++ dq ++ "custom-button" ++ dq ++ ">Click me!</button>;
}

// Render the component
render(<ButtonElement />);
")) ] |};
  {| component := "CodingChallenge";
     props := [
      ("initialCode", PString ("
function PersonInfo() {
  const name = " ++ dq ++ "Alice" ++ dq ++ ";
  const age = 28;

// Your code here
}

// Render the component
render(<PersonInfo />);
"));
      ("solution", PString ("
function PersonInfo() {
const name = " ++ dq ++ "Alice" ++ dq ++ ";
const age = 28;

return <p>{name} is {age} years old.</p>;
}

// Render the component
render(<PersonInfo />);
")) ] |};
  {| component := "CodingChallenge";
     props := [
      ("initialCode", PString ("
function Card() {
  const title = " ++ dq ++ "My First JSX Card" ++ dq ++ ";
  const content = " ++ dq ++ "This is a card created using JSX!" ++ dq ++ ";
  const tags = [" ++ dq ++ "jsx" ++ dq ++ ", " ++ dq ++ "react" ++ dq ++ ", " ++ dq ++ "ui" ++ dq ++ "];

// Your code here
}

// Render the component
render(<Card />);
"));
      ("solution", PString ("
function Card() {
const title = " ++ dq ++ "My First JSX Card" ++ dq ++ ";
const content = " ++ dq ++ "This is a card created using JSX!" ++ dq ++ ";
const tags = [" ++ dq ++ "jsx" ++ dq ++ ", " ++ dq ++ "react" ++ dq ++ ", " ++ dq ++ "ui" ++ dq ++ "];

return (
<div className=" ++ dq ++ "card" ++ dq ++ ">
<h2>{title}</h2>
<p>{content}</p>
<ul>
{tags.map((tag, index) => (
<li key={index}>{tag}</li>
))}
</ul>
</div>
);
}

// Render the component
render(<Card />);
")) ] |} ].

(** The page React Components - Exercises, which follows
    jsx-syntax-exercises.mdx in the sources. *)
Definition react_components_exercises : list JsxElement := [
  {| component := "ProgressTracker";
     props := [
      ("section", PNumber 1%float);
      ("completedTasks", PNumber 2%float);
      ("totalTasks", PNumber 5%float) ] |};
  {| component := "Quiz";
     props := [
      ("question", PString ("What is the main advantage of using components in React?"));
      ("options", PArray ["Faster rendering"; "Code reusability"; "Automatic state management"; "Direct DOM manipulation"]);
      ("correctAnswer", PString ("Code reusability")) ] |};
  {| component := "Quiz";
     props := [
      ("question", PString ("Which of the following is TRUE about functional components?"));
      ("options", PArray ["They must contain a render method"; "They can't manage state"; "They are defined as JavaScript functions"; "They are less efficient than class components"]);
      ("correctAnswer", PString ("They are defined as JavaScript functions")) ] |};
  {| component := "Quiz";
     props := [
      ("question", PString ("How do you typically pass data to a component?"));
      ("options", PArray ["Through global variables"; "Using props"; "Via the state object"; "With event listeners"]);
      ("correctAnswer", PString ("Using props")) ] |};
  {| component := "CodingChallenge";
     props := [
      ("initialCode", PString ("
function Welcome() {
  // Your code here
}

// Render the component
render(<Welcome name=" ++ dq ++ "React Learner" ++ dq ++ " />);
"));
      ("solution", PString ("
function Welcome({ name }) {
return <h1>Welcome, {name}! We're glad you're here.</h1>;
}

// Render the component
render(<Welcome name=" ++ dq ++ "React Learner" ++ dq ++ " />);
")) ] |};
  {| component := "CodingChallenge";
     props := [
      ("initialCode", PString ("
function UserCard() {
  // Your code here
}

// Render the component
render(<UserCard name=" ++ dq ++ "Alice Johnson" ++ dq ++ " age={28} occupation=" ++ dq ++ "Software Developer" ++ dq ++ " />);
"));
      ("solution", PString ("
function UserCard({ name, age, occupation }) {
return (
<div className=" ++ dq ++ "user-card" ++ dq ++ ">
<h2>{name}</h2>
<p>Age: {age}</p>
<p>Occupation: {occupation}</p>
</div>
);
}

// Render the component
render(<UserCard name=" ++ dq ++ "Alice Johnson" ++ dq ++ " age={28} occupation=" ++ dq ++ "Software Developer" ++ dq ++ " />);
")) ] |};
  {| component := "CodingChallenge";
     props := [
      ("initialCode", PString ("
function ChildComponent() {
  // Your code here
}

function ParentComponent() {
// Your code here
}

// Render the ParentComponent
render(<ParentComponent />);
"));
      ("solution", PString ("
function ChildComponent({ message }) {
return <p>{message}</p>;
}

function ParentComponent() {
return (
<div>
<h1>Parent Component</h1>
<ChildComponent message=" ++ dq ++ "I'm the first child" ++ dq ++ " />
<ChildComponent message=" ++ dq ++ "I'm the second child" ++ dq ++ " />
</div>
);
}

// Render the ParentComponent
render(<ParentComponent />);
")) ] |} ].

Definition exercise_pages : list (list JsxElement) :=
  [introduction_to_react; jsx_syntax_exercises; react_components_exercises].

Definition instances (name : string) (page : list JsxElement) : list JsxElement :=
  filter (fun e => String.eqb (component e) name) page.

Definition prop_names (e : JsxElement) : list string := map fst (props e).

Fixpoint prop (name : string) (ps : list (string * PropValue)) : option PropValue :=
  match ps with
  | [] => None
  | (k, v) :: rest => if String.eqb k name then Some v else prop name rest
  end.

(** The props object [ProgressTracker] receives from an instance. *)
Definition tracker_props (e : JsxElement) : option ProgressTrackerProps :=
  match prop "section" (props e), prop "completedTasks" (props e),
        prop "totalTasks" (props e) with
  | Some (PNumber s), Some (PNumber c), Some (PNumber t) =>
      Some {| section := s; completedTasks := c; totalTasks := t |}
  | _, _, _ => None
  end.

(** ** Quiz

    src/components/Quiz.tsx is missing from the sources: only the pages that
    import and instantiate the component are there. Its state machine is
    modelled from the spec (sections 3, 4.1 and 7). *)

Module Quiz.

(** Modelled from the spec: the props of src/components/Quiz.tsx (missing),
    the QuizSpec of section 3. *)
Record QuizSpec : Type := {
  question : string;
  options : list string;
  correctAnswer : string
}.

(** Modelled from the spec: the state of a Quiz instance in
    src/components/Quiz.tsx (missing), the QuizState of section 3. *)
Record QuizState : Type := {
  selectedOption : option string;
  submitted : bool
}.

(** Modelled from the spec: the check [options.includes(correctAnswer)] that
    section 4.1 asks of src/components/Quiz.tsx (missing). *)
Definition includes (xs : list string) (x : string) : bool :=
  existsb (String.eqb x) xs.

(** Modelled from the spec: the initial state of src/components/Quiz.tsx
    (missing): Unanswered, nothing selected and not submitted. *)
Definition initial : QuizState :=
  {| selectedOption := None; submitted := false |}.

(** Modelled from the spec: the construction of a Quiz in
    src/components/Quiz.tsx (missing), sections 4.1 and 7: a [correctAnswer]
    that is no element of [options] is a configuration error raised at
    construction; otherwise the instance starts in [initial]. *)
Definition construct (spec : QuizSpec) : Outcome QuizState :=
  if includes (options spec) (correctAnswer spec)
  then Returned initial
  else Thrown "Quiz: correctAnswer is not one of options".

(** Modelled from the spec: [select(option)] of src/components/Quiz.tsx
    (missing), section 4.1: sets [selectedOption]; no effect once submitted. *)
Definition select (option : string) (st : QuizState) : QuizState :=
  if submitted st then st
  else {| selectedOption := Some option; submitted := false |}.

(** Modelled from the spec: [submit()] of src/components/Quiz.tsx (missing),
    section 4.1: needs a selection, otherwise nothing happens; sets
    [submitted]. *)
Definition submit (st : QuizState) : QuizState :=
  match selectedOption st with
  | None => st
  | Some o => {| selectedOption := Some o; submitted := true |}
  end.

(** Modelled from the spec: [reset()] of src/components/Quiz.tsx (missing),
    section 4.1: clears the selection and the submission. *)
Definition reset (st : QuizState) : QuizState := initial.

(** Modelled from the spec: the derived [isCorrect] of section 3 for
    src/components/Quiz.tsx (missing):
    [submitted && selectedOption == correctAnswer]. *)
Definition isCorrect (spec : QuizSpec) (st : QuizState) : bool :=
  submitted st &&
  match selectedOption st with
  | Some o => String.eqb o (correctAnswer spec)
  | None => false
  end.

(** Modelled from the spec: the calls section 4.1 gives an instance of
    src/components/Quiz.tsx (missing), and a sequence of them run in order. *)
Inductive Action : Type :=
| Select (option : string)
| Submit
| Reset.

Definition step (st : QuizState) (a : Action) : QuizState :=
  match a with
  | Select o => select o st
  | Submit => submit st
  | Reset => reset st
  end.

Definition run (actions : list Action) (st : QuizState) : QuizState :=
  fold_left step actions st.

End Quiz.

(** The configuration a page hands to [Quiz] from an instance. *)
Definition quiz_spec (e : JsxElement) : option Quiz.QuizSpec :=
  match prop "question" (props e), prop "options" (props e),
        prop "correctAnswer" (props e) with
  | Some (PString q), Some (PArray os), Some (PString a) =>
      Some {| Quiz.question := q; Quiz.options := os; Quiz.correctAnswer := a |}
  | _, _, _ => None
  end.

(** ** CodeSandbox and CodingChallenge

    src/components/CodingChallenge.tsx, which holds the challenge and the
    sandbox it runs code in, is missing from the sources: only the pages
    that instantiate it are there. Both are modelled from the spec
    (sections 3, 4.2, 4.3 and 7). *)

(** How the evaluation of a piece of source text ends: with a rendered
    value, with an exception thrown by the code, or with a syntax error. The
    language implementation is outside the repository. *)
Inductive Completion : Type :=
| Value (output : string)
| Exception (message : string)
| SyntaxError (message : string).

(** Modelled from the spec: the [Result] of [CodeSandbox.run] in
    src/components/CodingChallenge.tsx (missing), section 4.2: a rendered
    output or a captured error. *)
Inductive Result : Type :=
| Rendered (output : string)
| Captured (error : string).

Module CodeSandbox.
Section sandbox.
(** The evaluator the sandbox calls; every statement holds for any. *)
Variable evaluate : string -> Completion.

(** Modelled from the spec: [run(code)] of the sandbox in
    src/components/CodingChallenge.tsx (missing), section 4.2: evaluates
    [code] once and converts an exception or a syntax error into an error
    [Result]; nothing is kept between calls. *)
Definition run (code : string) : Outcome Result :=
  Returned
    match evaluate code with
    | Value output => Rendered output
    | Exception message => Captured message
    | SyntaxError message => Captured message
    end.

End sandbox.
End CodeSandbox.

Module CodingChallenge.

(** Modelled from the spec: the props of src/components/CodingChallenge.tsx
    (missing), the ChallengeSpec of section 3. *)
Record ChallengeSpec : Type := {
  initialCode : string;
  solutionCode : string
}.

(** Modelled from the spec: the state of a challenge in
    src/components/CodingChallenge.tsx (missing), the ChallengeState of
    section 3. *)
Record ChallengeState : Type := {
  draftCode : string;
  viewingSolution : bool;
  lastRunOutput : option Result
}.

(** Modelled from the spec: a fresh instance of
    src/components/CodingChallenge.tsx (missing): [draftCode] starts as
    [initialCode] (section 3) in the state Editing (section 4.3). *)
Definition construct (spec : ChallengeSpec) : ChallengeState :=
  {| draftCode := initialCode spec;
     viewingSolution := false;
     lastRunOutput := None |}.

(** Modelled from the spec: [edit(newText)] of
    src/components/CodingChallenge.tsx (missing), sections 4.3 and 7:
    replaces the draft and clears the last output; while the solution is
    shown it is a disallowed call that does nothing. *)
Definition edit (newText : string) (st : ChallengeState) : ChallengeState :=
  if viewingSolution st then st
  else {| draftCode := newText;
          viewingSolution := false;
          lastRunOutput := None |}.

(** Modelled from the spec: [showSolution()] of
    src/components/CodingChallenge.tsx (missing), section 4.3: sets
    [viewingSolution] and nothing else. *)
Definition showSolution (st : ChallengeState) : ChallengeState :=
  {| draftCode := draftCode st;
     viewingSolution := true;
     lastRunOutput := lastRunOutput st |}.

(** Modelled from the spec: [hideSolution()] of
    src/components/CodingChallenge.tsx (missing), section 4.3: clears
    [viewingSolution] and nothing else. *)
Definition hideSolution (st : ChallengeState) : ChallengeState :=
  {| draftCode := draftCode st;
     viewingSolution := false;
     lastRunOutput := lastRunOutput st |}.

(** Modelled from the spec: [tryAgain()] of
    src/components/CodingChallenge.tsx (missing), section 4.3: back to the
    fresh instance. *)
Definition tryAgain (spec : ChallengeSpec) (st : ChallengeState) : ChallengeState :=
  construct spec.

(** Modelled from the spec: the code on the editor surface of
    src/components/CodingChallenge.tsx (missing), section 4.3: the draft, or
    the solution while it is shown. *)
Definition displayed (spec : ChallengeSpec) (st : ChallengeState) : string :=
  if viewingSolution st then solutionCode spec else draftCode st.

Section run.
Variable evaluate : string -> Completion.

(** Modelled from the spec: [run()] of src/components/CodingChallenge.tsx
    (missing), section 4.3: runs the displayed code in the sandbox and
    stores the result as [lastRunOutput]; an exception of the sandbox itself
    would pass through. *)
Definition run (spec : ChallengeSpec) (st : ChallengeState)
  : Outcome ChallengeState :=
  match CodeSandbox.run evaluate (displayed spec st) with
  | Returned result =>
      Returned {| draftCode := draftCode st;
                  viewingSolution := viewingSolution st;
                  lastRunOutput := Some result |}
  | Thrown error => Thrown error
  end.

End run.

(** A sequence of [edit] calls, run in order. *)
Definition edits (texts : list string) (st : ChallengeState) : ChallengeState :=
  fold_left (fun s t => edit t s) texts st.

End CodingChallenge.

(** ** Instances used in examples *)

(** The first quiz of introduction-to-react.mdx. *)
Definition components_quiz : Quiz.QuizSpec :=
  {| Quiz.question := "What is the primary building block of React applications?";
     Quiz.options := ["Functions"; "Classes"; "Components"; "Modules"];
     Quiz.correctAnswer := "Components" |}.

(** A small evaluator for examples: a [throw] statement throws its operand,
    a lone opening brace does not parse, anything else is its own output. *)
Definition toy_evaluate (code : string) : Completion :=
  if String.prefix "throw " code then Exception (substring 6 (String.length code - 6) code)
  else if String.eqb code "{" then SyntaxError "Unexpected end of input"
  else Value code.

(** ** Signs

    A number other than NaN whose sign bit is set: -0, a negative number or
    -Infinity. *)
Definition sign_bit_set (x : spec_float) : Prop :=
  match x with
  | S754_zero s | S754_infinity s | S754_finite s _ _ => s = true
  | S754_nan => False
  end.

(** ** Proof automation *)

(** Names [2 ^ (- e)] and writes [2 ^ (1 - e)] as its double. *)
Ltac name_power e P :=
  replace (1 - e) with (Z.succ (- e)) by lia;
  rewrite Z.pow_succ_r by lia;
  set (P := 2 ^ (- e)) in *.

(** A number other than NaN whose sign bit is [s]. *)
Definition sign_is (s : bool) (x : spec_float) : Prop :=
  match x with
  | S754_zero s' | S754_infinity s' | S754_finite s' _ _ => s' = s
  | S754_nan => False
  end.


(** ** Reading the code of a challenge *)

(** Whether [needle] occurs in [s]. *)
Definition occurs (needle s : string) : bool :=
  match String.index 0 needle s with
  | Some _ => true
  | None => false
  end.

(** The text of [code] from its comment [// Render the ...] to its end. *)
Definition render_statement (code : string) : option string :=
  match String.index 0 "// Render the " code with
  | Some i => Some (String.substring i (String.length code - i) code)
  | None => None
  end.

(** ** Rounding an exact quotient

    The arithmetic of binary64 rounds the exact result to the nearest
    number of the format, ties to the even mantissa: [a / b], for integers
    [0 <= a] and [0 < b], is located by its integer part and the place of
    the rest in the unit interval. *)

Definition location_of (a b : Z) : location :=
  if a mod b =? 0 then loc_Exact else loc_Inexact (2 * (a mod b) ?= b).

Definition located (a b : Z) (m : Z) (l : location) : Prop :=
  m = a / b /\ l = location_of a b.

Definition nearest_even (a b : Z) : Z :=
  round_nearest_even (a / b) (location_of a b).

(** The number with mantissa [n], at most [2 ^ 53], and exponent [e]. *)
Definition pack (s : bool) (n e : Z) : spec_float :=
  match n with
  | Zpos p =>
      if n <? 2 ^ 53
      then if e <=? 971 then S754_finite s p e else S754_infinity s
      else if e + 1 <=? 971
           then S754_finite s 4503599627370496 (e + 1)
           else S754_infinity s
  | Z0 => S754_zero s
  | Zneg _ => S754_nan
  end.
(** * Properties *)

(** ** The exercise pages *)

Example tracker_instances :
  map tracker_props (flat_map (instances "ProgressTracker") exercise_pages)
  = [ Some {| section := 1; completedTasks := 0; totalTasks := 5 |};
      Some {| section := 1; completedTasks := 1; totalTasks := 5 |};
      Some {| section := 1; completedTasks := 2; totalTasks := 5 |} ]%float.
Proof. reflexivity. Qed.

Example challenge_instances_prop_names :
  map prop_names (instances "CodingChallenge" jsx_syntax_exercises)
  = [ ["initialCode"; "solution"]; ["initialCode"; "solution"];
      ["initialCode"; "solution"] ].
Proof. reflexivity. Qed.

(** C7, as stated, fails: the first challenge of jsx-syntax-exercises.mdx
    (lines 62-79) is written with the props [initialCode] and [solution];
    it has no prop named [solutionCode], so not every instance is
    constructed with exactly [initialCode] and [solutionCode]. *)
Lemma coding_challenge_props_counterexample :
  (exists e,
      nth_error (instances "CodingChallenge" jsx_syntax_exercises) 0 = Some e /\
      prop_names e = ["initialCode"; "solution"] /\
      prop "solutionCode" (props e) = None) /\
  ~ Forall
      (fun page =>
         Forall (fun e => prop_names e = ["initialCode"; "solutionCode"])
                (instances "CodingChallenge" page))
      exercise_pages.
Proof.
  split.
  - eexists. split; [reflexivity | split; reflexivity].
  - intros H.
    apply Forall_inv_tail, Forall_inv in H.
    apply Forall_inv in H.
    discriminate H.
Qed.

(** C7 (amended): every CodingChallenge instance of the exercise pages (there
    are eight) is constructed with exactly the props named [initialCode] and
    [solution], both strings: the reference source text arrives under the
    prop name [solution]. *)
Theorem coding_challenge_props :
  List.length (flat_map (instances "CodingChallenge") exercise_pages) = 8%nat /\
  Forall
    (fun page =>
       Forall
         (fun e =>
            prop_names e = ["initialCode"; "solution"] /\
            (exists code, prop "initialCode" (props e) = Some (PString code)) /\
            (exists code, prop "solution" (props e) = Some (PString code)))
         (instances "CodingChallenge" page))
    exercise_pages.
Proof.
  split; [reflexivity |].
  repeat (apply Forall_cons || apply Forall_nil);
    cbv [instances introduction_to_react jsx_syntax_exercises
         react_components_exercises filter component String.eqb Ascii.eqb
         Bool.eqb];
    repeat (apply Forall_cons || apply Forall_nil);
    (split; [reflexivity | split; eexists; reflexivity]).
Qed.

(** ** Quiz *)

Lemma includes_In (xs : list string) (x : string) :
  Quiz.includes xs x = true <-> In x xs.
Proof.
  unfold Quiz.includes. rewrite existsb_exists. split.
  - intros [y [Hin Heq]]. apply String.eqb_eq in Heq. now subst.
  - intros Hin. exists x. split; [assumption | apply String.eqb_refl].
Qed.

Lemma construct_returns (spec : Quiz.QuizSpec) (st : Quiz.QuizState) :
  Quiz.construct spec = Returned st -> st = Quiz.initial.
Proof.
  unfold Quiz.construct.
  destruct (Quiz.includes _ _); intros H; now inversion H.
Qed.

Lemma run_app (xs ys : list Quiz.Action) (st : Quiz.QuizState) :
  Quiz.run (xs ++ ys) st = Quiz.run ys (Quiz.run xs st).
Proof. unfold Quiz.run. apply fold_left_app. Qed.

(** The first quiz of introduction-to-react.mdx. *)
Example first_quiz :
  option_map quiz_spec (hd_error (instances "Quiz" introduction_to_react))
  = Some (Some components_quiz) /\
  Quiz.construct components_quiz = Returned Quiz.initial.
Proof. split; reflexivity. Qed.

(** Every quiz written in the exercise pages passes the validation. *)
Example page_quizzes_are_valid :
  map (option_map Quiz.construct)
      (map quiz_spec (flat_map (instances "Quiz") exercise_pages))
  = repeat (Some (Returned Quiz.initial)) 8.
Proof. vm_compute. reflexivity. Qed.

(** C5: on a quiz whose [correctAnswer] is one of its [options], in every
    state that is not yet submitted (the fresh instance, or one with any
    option already selected), selecting [correctAnswer] and submitting gives
    [isCorrect = true], and selecting any other option and submitting gives
    [isCorrect = false], where
    [isCorrect = submitted && selectedOption == correctAnswer]. *)
Theorem select_then_submit_is_correct
  (spec : Quiz.QuizSpec) (st : Quiz.QuizState) :
  In (Quiz.correctAnswer spec) (Quiz.options spec) ->
  Quiz.submitted st = false ->
  Quiz.isCorrect spec (Quiz.submit (Quiz.select (Quiz.correctAnswer spec) st))
  = true /\
  (forall o : string,
      o <> Quiz.correctAnswer spec ->
      Quiz.isCorrect spec (Quiz.submit (Quiz.select o st)) = false) /\
  (forall fresh : Quiz.QuizState,
      Quiz.construct spec = Returned fresh -> Quiz.submitted fresh = false) /\
  (forall st' : Quiz.QuizState,
      Quiz.isCorrect spec st'
      = Quiz.submitted st' &&
        match Quiz.selectedOption st' with
        | Some o => String.eqb o (Quiz.correctAnswer spec)
        | None => false
        end).
Proof.
  intros _ Hopen.
  split; [| split; [| split]].
  - unfold Quiz.isCorrect, Quiz.select. rewrite Hopen. cbn.
    apply String.eqb_refl.
  - intros o Ho. unfold Quiz.isCorrect, Quiz.select. rewrite Hopen. cbn.
    now apply String.eqb_neq.
  - intros fresh Hfresh. apply construct_returns in Hfresh. now subst fresh.
  - reflexivity.
Qed.

Lemma select_then_submit_is_correct_witness :
  Quiz.isCorrect components_quiz
    (Quiz.submit
       (Quiz.select "Components" (Quiz.select "Classes" Quiz.initial)))
  = true /\
  Quiz.isCorrect components_quiz
    (Quiz.submit
       (Quiz.select "Classes" (Quiz.select "Components" Quiz.initial)))
  = false.
Proof.
  destruct (select_then_submit_is_correct components_quiz
              (Quiz.select "Classes" Quiz.initial))
    as [Hyes _].
  - cbn. auto.
  - reflexivity.
  - destruct (select_then_submit_is_correct components_quiz
                (Quiz.select "Components" Quiz.initial))
      as [_ [Hno _]].
    + cbn. auto.
    + reflexivity.
    + split; [exact Hyes | apply Hno; discriminate].
Defined.

(** C6: constructing a Quiz checks [options.includes(correctAnswer)]: the
    construction raises a configuration error exactly when [correctAnswer]
    is no element of [options]; otherwise it returns the fresh instance. *)
Theorem construct_validates_correct_answer (spec : Quiz.QuizSpec) :
  ((exists error, Quiz.construct spec = Thrown error) <->
   ~ In (Quiz.correctAnswer spec) (Quiz.options spec)) /\
  (Quiz.construct spec = Returned Quiz.initial <->
   In (Quiz.correctAnswer spec) (Quiz.options spec)) /\
  Quiz.construct spec
  = if Quiz.includes (Quiz.options spec) (Quiz.correctAnswer spec)
    then Returned Quiz.initial
    else Thrown "Quiz: correctAnswer is not one of options".
Proof.
  pose proof (includes_In (Quiz.options spec) (Quiz.correctAnswer spec)) as Hin.
  unfold Quiz.construct.
  destruct (Quiz.includes _ _); (split; [split | split; [split | reflexivity]]).
  - intros [error H]. discriminate H.
  - intros H. exfalso. apply H. now apply Hin.
  - intros _. now apply Hin.
  - reflexivity.
  - intros _ H. apply Hin in H. discriminate H.
  - intros _. now eexists.
  - intros H. discriminate H.
  - intros H. apply Hin in H. discriminate H.
Qed.

Example construct_rejects_absent_answer :
  Quiz.construct
    {| Quiz.question := "2+2?"; Quiz.options := ["3"; "5"];
       Quiz.correctAnswer := "4" |}
  = Thrown "Quiz: correctAnswer is not one of options".
Proof. reflexivity. Qed.

(** C8: after any sequence of [select] and [submit] calls on a constructed
    Quiz, [reset] gives back the freshly constructed state, with
    [selectedOption] unset and [submitted = false]; [reset] does so from
    every state. *)
Theorem reset_restores_fresh_state
  (spec : Quiz.QuizSpec) (fresh : Quiz.QuizState) (actions : list Quiz.Action) :
  Quiz.construct spec = Returned fresh ->
  Quiz.reset (Quiz.run actions fresh) = fresh /\
  Quiz.selectedOption (Quiz.reset (Quiz.run actions fresh)) = None /\
  Quiz.submitted (Quiz.reset (Quiz.run actions fresh)) = false /\
  (forall st : Quiz.QuizState, Quiz.reset st = fresh).
Proof.
  intros Hfresh. apply construct_returns in Hfresh. subst fresh.
  repeat split.
Qed.

Lemma reset_restores_fresh_state_witness :
  Quiz.reset
    (Quiz.run [Quiz.Select "Classes"; Quiz.Select "Components"; Quiz.Submit;
               Quiz.Select "Modules"]
              Quiz.initial)
  = Quiz.initial.
Proof.
  exact (proj1 (reset_restores_fresh_state components_quiz Quiz.initial
                  [Quiz.Select "Classes"; Quiz.Select "Components"; Quiz.Submit;
                   Quiz.Select "Modules"] eq_refl)).
Defined.

Example quiz_scenario :
  let spec := {| Quiz.question := "2+2?"; Quiz.options := ["3"; "4"; "5"];
                 Quiz.correctAnswer := "4" |} in
  let answered := Quiz.run [Quiz.Select "4"; Quiz.Submit] Quiz.initial in
  Quiz.construct spec = Returned Quiz.initial /\
  Quiz.isCorrect spec answered = true /\
  Quiz.select "3" answered = answered /\
  Quiz.reset answered = Quiz.initial.
Proof. repeat split. Qed.

(** ** CodingChallenge *)

Lemma edits_app (xs ys : list string) (st : CodingChallenge.ChallengeState) :
  CodingChallenge.edits (xs ++ ys) st
  = CodingChallenge.edits ys (CodingChallenge.edits xs st).
Proof. unfold CodingChallenge.edits. apply fold_left_app. Qed.

(** C3: in every CodingChallenge state, and so in every state reached from a
    fresh instance by any [edit] calls, [showSolution] leaves [draftCode] as
    it is and [showSolution] followed by [hideSolution] gives back the same
    [draftCode]. *)
Theorem show_then_hide_keeps_draft :
  (forall st : CodingChallenge.ChallengeState,
      CodingChallenge.draftCode (CodingChallenge.showSolution st)
      = CodingChallenge.draftCode st /\
      CodingChallenge.draftCode
        (CodingChallenge.hideSolution (CodingChallenge.showSolution st))
      = CodingChallenge.draftCode st) /\
  (forall (spec : CodingChallenge.ChallengeSpec) (texts : list string),
      CodingChallenge.draftCode
        (CodingChallenge.hideSolution
           (CodingChallenge.showSolution
              (CodingChallenge.edits texts (CodingChallenge.construct spec))))
      = CodingChallenge.draftCode
          (CodingChallenge.edits texts (CodingChallenge.construct spec))).
Proof. split; [intros st; split |]; reflexivity. Qed.

Lemma edits_last (spec : CodingChallenge.ChallengeSpec) (texts : list string) :
  CodingChallenge.draftCode
    (CodingChallenge.edits texts (CodingChallenge.construct spec))
  = last texts (CodingChallenge.initialCode spec) /\
  CodingChallenge.viewingSolution
    (CodingChallenge.edits texts (CodingChallenge.construct spec)) = false.
Proof.
  induction texts as [| t texts IH] using rev_ind.
  - split; reflexivity.
  - rewrite edits_app, last_last. destruct IH as [_ IH].
    cbn. unfold CodingChallenge.edit. rewrite IH. split; reflexivity.
Qed.

Example challenge_scenario :
  let spec := {| CodingChallenge.initialCode := "return 1;";
                 CodingChallenge.solutionCode := "return 2;" |} in
  let edited := CodingChallenge.edit "return 3;" (CodingChallenge.construct spec) in
  CodingChallenge.displayed spec (CodingChallenge.showSolution edited) = "return 2;" /\
  CodingChallenge.displayed spec
    (CodingChallenge.hideSolution (CodingChallenge.showSolution edited))
  = "return 3;".
Proof. split; reflexivity. Qed.

(** C4: when evaluating a code string throws or fails to parse,
    [CodeSandbox.run] returns an error [Result] and does not throw; a
    CodingChallenge [run] on such displayed code returns, stores the error
    description in [lastRunOutput], and leaves [draftCode] and
    [viewingSolution] as they were. *)
Theorem failing_run_is_captured
  (evaluate : string -> Completion) (code message : string)
  (spec : CodingChallenge.ChallengeSpec) (st : CodingChallenge.ChallengeState) :
  evaluate code = Exception message \/ evaluate code = SyntaxError message ->
  CodeSandbox.run evaluate code = Returned (Captured message) /\
  (CodingChallenge.displayed spec st = code ->
   exists st' : CodingChallenge.ChallengeState,
     CodingChallenge.run evaluate spec st = Returned st' /\
     CodingChallenge.lastRunOutput st' = Some (Captured message) /\
     CodingChallenge.draftCode st' = CodingChallenge.draftCode st /\
     CodingChallenge.viewingSolution st' = CodingChallenge.viewingSolution st).
Proof.
  intros Hfail.
  assert (Hrun : CodeSandbox.run evaluate code = Returned (Captured message)).
  { unfold CodeSandbox.run. destruct Hfail as [H | H]; now rewrite H. }
  split; [exact Hrun |].
  intros Hcode. unfold CodingChallenge.run. rewrite Hcode, Hrun.
  eexists. repeat split.
Qed.

Lemma failing_run_is_captured_witness :
  CodeSandbox.run toy_evaluate "throw 1" = Returned (Captured "1") /\
  CodingChallenge.run toy_evaluate
    {| CodingChallenge.initialCode := "return 1;";
       CodingChallenge.solutionCode := "return 2;" |}
    {| CodingChallenge.draftCode := "throw 1";
       CodingChallenge.viewingSolution := false;
       CodingChallenge.lastRunOutput := None |}
  = Returned
      {| CodingChallenge.draftCode := "throw 1";
         CodingChallenge.viewingSolution := false;
         CodingChallenge.lastRunOutput := Some (Captured "1") |}.
Proof.
  destruct (failing_run_is_captured toy_evaluate "throw 1" "1"
              {| CodingChallenge.initialCode := "return 1;";
                 CodingChallenge.solutionCode := "return 2;" |}
              {| CodingChallenge.draftCode := "throw 1";
                 CodingChallenge.viewingSolution := false;
                 CodingChallenge.lastRunOutput := None |}
              (or_introl eq_refl)) as [Hsandbox _].
  split; [exact Hsandbox | reflexivity].
Defined.

(** ** JavaScript numbers: the printed form and the rounding *)

Example toString_integers :
  map Number.toString
      [0; neg_zero; 7; 100; -50; 9007199254740992; 100000000000000000000;
       1000000000000000000000; 590295810358705651712; 1180591620717411303424]%float
  = ["0"; "0"; "7"; "100"; "-50"; "9007199254740992"; "100000000000000000000";
     "1e+21"; "590295810358705700000"; "1.1805916207174113e+21"].
Proof. vm_compute. reflexivity. Qed.

Example toString_fractions :
  map Number.toString
      [0.5; 1.5; -2.25; 0.000244140625; 0x1.999999999999ap-4;
       0x1.3333333333334p-2; 0x1p-1074; 0x1.fffffffffffffp+1023;
       0x1.ad7f29abcaf48p-24]%float
  = ["0.5"; "1.5"; "-2.25"; "0.000244140625"; "0.1";
     "0.30000000000000004"; "5e-324"; "1.7976931348623157e+308";
     "1e-7"].
Proof. vm_compute. reflexivity. Qed.

Example toString_not_finite :
  map Number.toString [nan; infinity; neg_infinity]
  = ["NaN"; "Infinity"; "-Infinity"].
Proof. reflexivity. Qed.

Example round_halves :
  map Math.round [0.5; 1.5; 2.5; -0.5; -1.5; -2.5; 0.25; -0.25]%float
  = [1; 2; 3; neg_zero; -1; -2; 0; neg_zero]%float.
Proof. vm_compute. reflexivity. Qed.

Example round_keeps :
  map Math.round [nan; infinity; neg_infinity; 0; neg_zero; 42;
                  4503599627370497; 0x1.fffffffffffffp+1023]%float
  = [nan; infinity; neg_infinity; 0; neg_zero; 42;
     4503599627370497; 0x1.fffffffffffffp+1023]%float.
Proof. vm_compute. reflexivity. Qed.

(** The largest number below one half rounds to zero. *)
Example round_below_half :
  (0x1.fffffffffffffp-2 <? 0.5)%float = true /\
  Math.round 0x1.fffffffffffffp-2 = 0%float.
Proof. split; vm_compute; reflexivity. Qed.

(** ** Binary64 facts *)

Lemma digits2_pos_size (p : positive) : digits2_pos p = Pos.size p.
Proof. induction p; cbn; now rewrite ?IHp. Qed.

Lemma size_bounds (p : positive) :
  2 ^ (Zpos (Pos.size p) - 1) <= Zpos p < 2 ^ Zpos (Pos.size p).
Proof.
  pose proof (Pos.size_gt p) as Hgt.
  pose proof (Pos.size_le p) as Hle.
  apply Pos2Z.pos_lt_pos in Hgt. apply Pos2Z.pos_le_pos in Hle.
  rewrite Pos2Z.inj_pow in Hgt, Hle.
  change (Zpos 2) with 2 in Hgt, Hle.
  split; [| exact Hgt].
  assert (Hpow : 2 ^ Zpos (Pos.size p) = 2 * 2 ^ (Zpos (Pos.size p) - 1)).
  { replace (Zpos (Pos.size p)) with (Z.succ (Zpos (Pos.size p) - 1)) at 1 by lia.
    apply Z.pow_succ_r. lia. }
  rewrite Hpow in Hle. lia.
Qed.

(** What [valid_binary] says about the mantissa and exponent of a finite
    binary64 number. *)
Lemma valid_finite_bounds (s : bool) (m : positive) (e : Z) :
  valid_binary (S754_finite s m e) = true ->
  Zpos m < 2 ^ 53 /\ -1074 <= e <= 971 /\ (-1074 < e -> 2 ^ 52 <= Zpos m).
Proof.
  unfold valid_binary, SpecFloat.valid_binary, bounded, canonical_mantissa, fexp.
  rewrite digits2_pos_size.
  change (SpecFloat.emin prec emax) with (-1074).
  change prec with 53. change emax with 1024.
  intros H. apply andb_true_iff in H. destruct H as [Hc He].
  apply Z.eqb_eq in Hc. apply Z.leb_le in He.
  pose proof (size_bounds m) as [Hlo Hhi].
  assert (Hsize : Zpos (Pos.size m) <= 53) by lia.
  split.
  - apply Z.lt_le_trans with (1 := Hhi). apply Z.pow_le_mono_r; lia.
  - split; [lia |].
    intros Hnorm.
    assert (Heq : Zpos (Pos.size m) = 53) by lia.
    rewrite Heq in Hlo. exact Hlo.
Qed.

Lemma Prim2SF_valid_finite (x : float) (s : bool) (m : positive) (e : Z) :
  Prim2SF x = S754_finite s m e ->
  Zpos m < 2 ^ 53 /\ -1074 <= e <= 971 /\ (-1074 < e -> 2 ^ 52 <= Zpos m).
Proof.
  intros H. apply (valid_finite_bounds s). rewrite <- H. apply Prim2SF_valid.
Qed.

Lemma digits2_pos_iter_xO (d p : positive) :
  Zpos (digits2_pos (Pos.iter xO p d)) = Zpos (digits2_pos p) + Zpos d.
Proof.
  induction d as [| d IH] using Pos.peano_ind.
  - cbn. lia.
  - rewrite Pos.iter_succ. cbn [digits2_pos]. lia.
Qed.

Lemma iter_xO_value (d p : positive) :
  Zpos (Pos.iter xO p d) = Zpos p * 2 ^ Zpos d.
Proof.
  induction d as [| d IH] using Pos.peano_ind.
  - cbn. lia.
  - rewrite Pos.iter_succ, Pos2Z.inj_xO, IH, Pos2Z.inj_succ, Z.pow_succ_r by lia.
    lia.
Qed.

(** A mantissa of 53 digits is already rounded. *)
Lemma binary_round_aux_canonical (s : bool) (m : positive) (e : Z) :
  Zpos (digits2_pos m) = 53 -> -1074 <= e <= 971 ->
  binary_round_aux prec emax s (Zpos m) e loc_Exact = S754_finite s m e.
Proof.
  intros Hd He.
  assert (Hshift : forall m' : positive,
             Zpos (digits2_pos m') = 53 ->
             shr_fexp prec emax (Zpos m') e loc_Exact
             = ({| shr_m := Zpos m'; shr_r := false; shr_s := false |}, e)).
  { intros m' Hm'. unfold shr_fexp, Zdigits2, fexp. rewrite Hm'.
    change (SpecFloat.emin prec emax) with (-1074). change prec with 53.
    replace (Z.max (53 + e - 53) (-1074) - e) with 0 by lia.
    reflexivity. }
  unfold binary_round_aux.
  rewrite (Hshift m Hd). cbn [shr_m loc_of_shr_record round_nearest_even].
  rewrite (Hshift m Hd). cbn [shr_m].
  change (emax - prec) with 971.
  destruct (Z.leb_spec e 971); [reflexivity | lia].
Qed.

(** The binary64 number of a non-zero integer below [2^53] in absolute
    value: the integer itself, its mantissa shifted to 53 digits. *)
Lemma binary_normalize_integer (s : bool) (p : positive) :
  Zpos p < 2 ^ 53 ->
  exists m : positive,
    binary_round prec emax s p 0 = S754_finite s m (Zpos (Pos.size p) - 53) /\
    Zpos m = Zpos p * 2 ^ (53 - Zpos (Pos.size p)) /\
    Zpos (digits2_pos m) = 53.
Proof.
  intros Hp.
  pose proof (size_bounds p) as [Hlo Hhi].
  assert (Hsize : Zpos (Pos.size p) <= 53).
  { destruct (Z.le_gt_cases (Zpos (Pos.size p)) 53) as [H | H]; [exact H |].
    exfalso.
    assert (2 ^ 53 <= 2 ^ (Zpos (Pos.size p) - 1)) by (apply Z.pow_le_mono_r; lia).
    lia. }
  unfold binary_round, shl_align, fexp.
  rewrite digits2_pos_size.
  change (SpecFloat.emin prec emax) with (-1074). change prec with 53.
  replace (Z.max (Zpos (Pos.size p) + 0 - 53) (-1074)) with (Zpos (Pos.size p) - 53)
    by lia.
  destruct (Zpos (Pos.size p) - 53 - 0) as [| d | d] eqn:Hd.
  - exists p.
    assert (Heq : Zpos (Pos.size p) = 53) by lia.
    rewrite Heq. change (53 - 53) with 0.
    rewrite binary_round_aux_canonical by (rewrite ?digits2_pos_size; lia).
    rewrite digits2_pos_size. repeat split; lia.
  - lia.
  - exists (Pos.iter xO p d).
    assert (Hdd : Zpos d = 53 - Zpos (Pos.size p)) by lia.
    assert (Hdig : Zpos (digits2_pos (Pos.iter xO p d)) = 53).
    { rewrite digits2_pos_iter_xO, digits2_pos_size. lia. }
    rewrite binary_round_aux_canonical by (try exact Hdig; lia).
    rewrite iter_xO_value, Hdd. repeat split. exact Hdig.
Qed.

(** ** Rounding a mantissa to 53 digits *)

Lemma shr_1_m (mrs : shr_record) :
  0 <= shr_m mrs -> shr_m (shr_1 mrs) = shr_m mrs / 2.
Proof.
  destruct mrs as [m r s]. cbn [shr_m]. intros Hm.
  destruct m as [| [p | p |] | p]; cbn [shr_1 shr_m].
  - reflexivity.
  - apply Z.div_unique with (r := 1); lia.
  - apply Z.div_unique with (r := 0); lia.
  - reflexivity.
  - lia.
Qed.

Lemma iter_shr_1_m (p : positive) (mrs : shr_record) :
  0 <= shr_m mrs ->
  shr_m (iter_pos shr_1 p mrs) = shr_m mrs / 2 ^ Zpos p.
Proof.
  revert mrs. induction p as [p IH | p IH |]; intros mrs Hm; cbn [iter_pos].
  - assert (H1 : 0 <= shr_m (shr_1 mrs)).
    { rewrite shr_1_m by exact Hm. apply Z.div_pos; lia. }
    assert (H2 : 0 <= shr_m (iter_pos shr_1 p (shr_1 mrs))).
    { rewrite IH by exact H1. apply Z.div_pos; [exact H1 |].
      apply Z.pow_pos_nonneg; lia. }
    rewrite IH by exact H2. rewrite IH by exact H1. rewrite shr_1_m by exact Hm.
    assert (Hp : 0 < 2 ^ Zpos p) by (apply Z.pow_pos_nonneg; lia).
    rewrite !Z.div_div by lia.
    f_equal.
    assert (Hpp : 2 ^ Zpos p~1 = 2 * (2 ^ Zpos p * 2 ^ Zpos p)).
    { rewrite <- Z.pow_add_r, <- Z.pow_succ_r by lia. f_equal. lia. }
    lia.
  - assert (H1 : 0 <= shr_m (iter_pos shr_1 p mrs)).
    { rewrite IH by exact Hm. apply Z.div_pos; [exact Hm |].
      apply Z.pow_pos_nonneg; lia. }
    rewrite IH by exact H1. rewrite IH by exact Hm.
    assert (Hp : 0 < 2 ^ Zpos p) by (apply Z.pow_pos_nonneg; lia).
    rewrite !Z.div_div by lia.
    f_equal.
    assert (Hpp : 2 ^ Zpos p~0 = 2 ^ Zpos p * 2 ^ Zpos p).
    { rewrite <- Z.pow_add_r by lia. f_equal. lia. }
    lia.
  - apply shr_1_m. exact Hm.
Qed.

Lemma shr_record_of_loc_m (m : Z) (l : location) :
  shr_m (shr_record_of_loc m l) = m.
Proof. destruct l as [| []]; reflexivity. Qed.

Lemma shr_fexp_nonneg (m e : Z) (l : location) :
  0 <= m -> 0 <= shr_m (fst (shr_fexp prec emax m e l)).
Proof.
  intros Hm. unfold shr_fexp, shr.
  destruct (fexp prec emax (Zdigits2 m + e) - e) as [| p | p];
    cbn [fst]; rewrite ?iter_shr_1_m; rewrite ?shr_record_of_loc_m;
    try exact Hm.
  apply Z.div_pos; [exact Hm | apply Z.pow_pos_nonneg; lia].
Qed.

Lemma round_nearest_even_bounds (m : Z) (l : location) :
  m <= round_nearest_even m l <= m + 1.
Proof.
  unfold round_nearest_even.
  destruct l as [| []]; try destruct (Z.even m); lia.
Qed.

(** The result of rounding has the sign it was asked for and is no NaN. *)
Lemma binary_round_aux_sign (s : bool) (m e : Z) (l : location) :
  0 <= m ->
  match binary_round_aux prec emax s m e l with
  | S754_zero s' | S754_infinity s' | S754_finite s' _ _ => s' = s
  | S754_nan => False
  end.
Proof.
  intros Hm. unfold binary_round_aux.
  pose proof (shr_fexp_nonneg m e l Hm) as H1.
  destruct (shr_fexp prec emax m e l) as [mrs' e'] eqn:Hshr. cbn [fst] in H1.
  pose proof (round_nearest_even_bounds (shr_m mrs') (loc_of_shr_record mrs')) as H2.
  pose proof (shr_fexp_nonneg
                (round_nearest_even (shr_m mrs') (loc_of_shr_record mrs')) e'
                loc_Exact ltac:(lia)) as H3.
  destruct (shr_fexp prec emax _ e' loc_Exact) as [mrs'' e''].
  cbn [fst] in H3.
  destruct (shr_m mrs'') as [| p | p]; [reflexivity | | lia].
  now destruct (e'' <=? emax - prec).
Qed.

Lemma digits2_pos_unique (p : positive) (k : Z) :
  2 ^ (k - 1) <= Zpos p < 2 ^ k -> Zpos (digits2_pos p) = k.
Proof.
  intros [Hlo Hhi]. rewrite digits2_pos_size.
  pose proof (size_bounds p) as [Slo Shi].
  destruct (Z.lt_trichotomy (Zpos (Pos.size p)) k) as [H | [H | H]];
    [exfalso | exact H | exfalso].
  - assert (0 <= k - 1) by lia.
    assert (2 ^ Zpos (Pos.size p) <= 2 ^ (k - 1)) by (apply Z.pow_le_mono_r; lia).
    lia.
  - destruct (Z.le_gt_cases 0 k) as [Hk | Hk].
    + assert (2 ^ k <= 2 ^ (Zpos (Pos.size p) - 1)) by (apply Z.pow_le_mono_r; lia).
      lia.
    + rewrite (Z.pow_neg_r 2 k) in Hhi by lia. lia.
Qed.

(** Rounding a mantissa of [D >= 53] digits: unless the result overflows, it
    is a normal number whose exponent is at least [e + D - 53], and at that
    exponent its mantissa is at least the first 53 digits of [m]. *)
Lemma binary_round_aux_lower (s : bool) (m : positive) (e : Z) (l : location) :
  53 <= Zpos (digits2_pos m) ->
  -1074 <= e + Zpos (digits2_pos m) - 53 ->
  let e1 := e + Zpos (digits2_pos m) - 53 in
  binary_round_aux prec emax s (Zpos m) e l = S754_infinity s \/
  exists (m' : positive) (e' : Z),
    binary_round_aux prec emax s (Zpos m) e l = S754_finite s m' e' /\
    e1 <= e' /\
    2 ^ 52 <= Zpos m' /\
    (e' = e1 -> Zpos m / 2 ^ (Zpos (digits2_pos m) - 53) <= Zpos m').
Proof.
  intros HD He e1.
  set (D := Zpos (digits2_pos m)) in *.
  set (q := Zpos m / 2 ^ (D - 53)).
  assert (H52 : 2 ^ 52 = 4503599627370496) by reflexivity.
  assert (H53 : 2 ^ 53 = 9007199254740992) by reflexivity.
  assert (Hq : 2 ^ 52 <= q < 2 ^ 53).
  { pose proof (size_bounds m) as [Slo Shi].
    rewrite <- digits2_pos_size in Slo, Shi. fold D in Slo, Shi.
    assert (Hpow : 0 < 2 ^ (D - 53)) by (apply Z.pow_pos_nonneg; lia).
    unfold q. split.
    - apply Z.div_le_lower_bound; [exact Hpow |].
      rewrite <- Z.pow_add_r by lia.
      replace (D - 53 + 52) with (D - 1) by lia. exact Slo.
    - apply Z.div_lt_upper_bound; [exact Hpow |].
      rewrite <- Z.pow_add_r by lia.
      replace (D - 53 + 53) with D by lia. exact Shi. }
  assert (Hshr : exists mrs,
             shr_fexp prec emax (Zpos m) e l = (mrs, e1) /\ shr_m mrs = q).
  { unfold shr_fexp, shr, Zdigits2, fexp. fold D.
    change (SpecFloat.emin prec emax) with (-1074). change prec with 53.
    replace (Z.max (D + e - 53) (-1074) - e) with (D - 53) by lia.
    destruct (D - 53) as [| p | p] eqn:Hn; [| | lia].
    - eexists. split; [f_equal; unfold e1; lia |].
      rewrite shr_record_of_loc_m. unfold q. cbn. now rewrite Z.div_1_r.
    - eexists. split; [f_equal; unfold e1; lia |].
      rewrite iter_shr_1_m by (rewrite shr_record_of_loc_m; lia).
      rewrite shr_record_of_loc_m. reflexivity. }
  destruct Hshr as [mrs [Hshr Hmrs]].
  unfold binary_round_aux. rewrite Hshr, Hmrs.
  pose proof (round_nearest_even_bounds q (loc_of_shr_record mrs)) as Hr.
  destruct (round_nearest_even q (loc_of_shr_record mrs)) as [| r | r];
    [lia | | lia].
  destruct (Z.eq_dec (Zpos r) (2 ^ 53)) as [Hcarry | Hnocarry].
  - assert (Hr53 : r = 9007199254740992%positive) by lia.
    subst r. 
    replace (shr_fexp prec emax 9007199254740992 e1 loc_Exact)
      with ({| shr_m := 4503599627370496; shr_r := false; shr_s := false |},
            e1 + 1).
    + cbn [shr_m]. change (emax - prec) with 971.
      destruct (e1 + 1 <=? 971); [right | now left].
      exists 4503599627370496%positive, (e1 + 1).
      repeat split; lia.
    + unfold shr_fexp, shr, Zdigits2, fexp.
      change (SpecFloat.emin prec emax) with (-1074). change prec with 53.
      change (Zpos (digits2_pos 9007199254740992)) with 54.
      replace (Z.max (54 + e1 - 53) (-1074) - e1) with 1 by (unfold e1; lia).
      reflexivity.
  - assert (Hdig : Zpos (digits2_pos r) = 53).
    { apply digits2_pos_unique. change (53 - 1) with 52. lia. }
    replace (shr_fexp prec emax (Zpos r) e1 loc_Exact)
      with ({| shr_m := Zpos r; shr_r := false; shr_s := false |}, e1).
    + cbn [shr_m]. change (emax - prec) with 971.
      destruct (e1 <=? 971); [right | now left].
      exists r, e1. repeat split; lia.
    + unfold shr_fexp, shr, Zdigits2, fexp. rewrite Hdig.
      change (SpecFloat.emin prec emax) with (-1074). change prec with 53.
      replace (Z.max (53 + e1 - 53) (-1074) - e1) with 0 by (unfold e1; lia).
      reflexivity.
Qed.

(** ** Math.round *)

Lemma Prim2SF_100 :
  Prim2SF 100 = S754_finite false 7036874417766400 (-46).
Proof. reflexivity. Qed.

Lemma Prim2SF_100_5 :
  Prim2SF 100.5 = S754_finite false 7072058789855232 (-46).
Proof. reflexivity. Qed.

Lemma Prim2SF_minus_half :
  Prim2SF (-0.5) = S754_finite true 4503599627370496 (-53).
Proof. reflexivity. Qed.

Lemma Prim2SF_zero : Prim2SF 0 = S754_zero false.
Proof. reflexivity. Qed.

Lemma round_not_fraction (x : float) :
  match Prim2SF x with
  | S754_finite _ _ e => 0 <= e
  | _ => True
  end ->
  Math.round x = x.
Proof.
  unfold Math.round. destruct (Prim2SF x) as [s | s | | s m e]; try reflexivity.
  intros He. destruct (Z.leb_spec 0 e); [reflexivity | lia].
Qed.

Lemma valid_binary_round_integer (s : bool) (p : positive) :
  Zpos p < 2 ^ 53 -> valid_binary (binary_round prec emax s p 0) = true.
Proof.
  intros Hp.
  destruct (binary_normalize_integer s p Hp) as [m [Hr [_ Hd]]].
  pose proof (size_bounds p) as [Hlo Hhi].
  assert (Hsize : 1 <= Zpos (Pos.size p) <= 53).
  { split; [lia |].
    destruct (Z.le_gt_cases (Zpos (Pos.size p)) 53) as [H | H]; [exact H |].
    exfalso.
    assert (2 ^ 53 <= 2 ^ (Zpos (Pos.size p) - 1)) by (apply Z.pow_le_mono_r; lia).
    lia. }
  rewrite Hr.
  unfold valid_binary, SpecFloat.valid_binary, bounded, canonical_mantissa, fexp.
  rewrite Hd.
  change (SpecFloat.emin prec emax) with (-1074).
  change prec with 53. change emax with 1024.
  apply andb_true_iff. split; [apply Z.eqb_eq | apply Z.leb_le]; lia.
Qed.

Lemma rounded_bounds (s : bool) (m : positive) (e : Z) :
  Zpos m < 2 ^ 53 -> e < 0 ->
  - 2 ^ 53 < Math.rounded s m e < 2 ^ 53 /\
  (s = false -> 0 <= Math.rounded s m e) /\
  (s = true -> Math.rounded s m e <= 0).
Proof.
  intros Hm He. unfold Math.rounded.
  replace (1 - e) with (Z.succ (- e)) by lia.
  rewrite Z.pow_succ_r by lia.
  assert (HP : 2 <= 2 ^ (- e)).
  { change 2 with (2 ^ 1) at 1. apply Z.pow_le_mono_r; lia. }
  set (P := 2 ^ (- e)) in *.
  assert (H53 : 2 ^ 53 = 9007199254740992) by reflexivity.
  destruct s.
  - repeat split.
    + apply Z.lt_le_trans with (- 2 ^ 53 + 1); [lia |].
      apply Z.div_le_lower_bound; lia.
    + apply Z.div_lt_upper_bound; lia.
    + discriminate.
    + intros _. apply Z.lt_succ_r. apply Z.div_lt_upper_bound; lia.
  - repeat split.
    + apply Z.lt_le_trans with 0; [lia |]. apply Z.div_le_lower_bound; lia.
    + apply Z.div_lt_upper_bound; lia.
    + intros _. apply Z.div_le_lower_bound; lia.
    + discriminate.
Qed.

Lemma round_fraction (x : float) (s : bool) (m : positive) (e : Z) :
  Prim2SF x = S754_finite s m e -> e < 0 ->
  Prim2SF (Math.round x)
  = match Math.rounded s m e with
    | Z0 => S754_zero s
    | Zpos p => binary_round prec emax false p 0
    | Zneg p => binary_round prec emax true p 0
    end.
Proof.
  intros Hx He.
  destruct (Prim2SF_valid_finite x s m e Hx) as [Hm _].
  pose proof (rounded_bounds s m e Hm He) as [Hr _].
  unfold Math.round. rewrite Hx.
  destruct (Z.leb_spec 0 e); [lia |].
  destruct (Math.rounded s m e) as [| p | p] eqn:Hrounded.
  - now destruct s.
  - unfold Math.of_integer. cbn [binary_normalize].
    apply Prim2SF_SF2Prim, valid_binary_round_integer. lia.
  - unfold Math.of_integer. cbn [binary_normalize].
    apply Prim2SF_SF2Prim, valid_binary_round_integer. lia.
Qed.

Lemma compare_cont_Eq (a b : positive) :
  Pos.compare_cont Eq a b = (Zpos a ?= Zpos b).
Proof. reflexivity. Qed.

(** Comparing the binary64 number of an integer with 100 compares the
    integer with 100. *)
Lemma ltb_100_integer (s : bool) (p : positive) :
  Zpos p < 2 ^ 53 ->
  SFltb (S754_finite false 7036874417766400 (-46)) (binary_round prec emax s p 0)
  = negb s && (100 <? Zpos p).
Proof.
  intros Hp.
  destruct (binary_normalize_integer s p Hp) as [m [Hr [Hm _]]].
  pose proof (size_bounds p) as [Hlo Hhi].
  rewrite Hr. unfold SFltb, SFcompare.
  destruct s; [reflexivity |]. cbn [negb andb].
  destruct (Z.compare_spec (-46) (Zpos (Pos.size p) - 53)) as [He | He | He].
  - assert (Hsize : Zpos (Pos.size p) = 7) by lia.
    rewrite Hsize in Hm. change (2 ^ (53 - 7)) with 70368744177664 in Hm.
    rewrite compare_cont_Eq, Hm.
    destruct (Z.compare_spec 7036874417766400 (Zpos p * 70368744177664));
      destruct (Z.ltb_spec 100 (Zpos p)); (reflexivity || lia).
  - assert (2 ^ 7 <= 2 ^ (Zpos (Pos.size p) - 1)) by (apply Z.pow_le_mono_r; lia).
    change (2 ^ 7) with 128 in *.
    destruct (Z.ltb_spec 100 (Zpos p)); [reflexivity | lia].
  - assert (2 ^ Zpos (Pos.size p) <= 2 ^ 6) by (apply Z.pow_le_mono_r; lia).
    change (2 ^ 6) with 64 in *.
    destruct (Z.ltb_spec 100 (Zpos p)); [lia | reflexivity].
Qed.

(** [Math.round q] exceeds 100 exactly when [q] is at least 100.5. *)
Lemma round_exceeds_100 (q : float) :
  (100 <? Math.round q)%float = (100.5 <=? q)%float.
Proof.
  rewrite ltb_spec, leb_spec, Prim2SF_100, Prim2SF_100_5.
  destruct (Prim2SF q) as [s | s | | s m e] eqn:Hq.
  - rewrite round_not_fraction by now rewrite Hq.
    rewrite Hq. reflexivity.
  - rewrite round_not_fraction by now rewrite Hq.
    rewrite Hq. now destruct s.
  - rewrite round_not_fraction by now rewrite Hq.
    rewrite Hq. reflexivity.
  - destruct (Prim2SF_valid_finite q s m e Hq) as [Hm [He Hnorm]].
    destruct (Z.le_gt_cases 0 e) as [Hint | Hfrac].
    + rewrite round_not_fraction by now rewrite Hq.
      rewrite Hq. unfold SFltb, SFleb, SFcompare.
      destruct s; [reflexivity |].
      destruct (Z.compare_spec (-46) e); (reflexivity || lia).
    + rewrite (round_fraction q s m e Hq) by lia.
      pose proof (rounded_bounds s m e Hm ltac:(lia)) as [Hr [Hpos Hneg]].
      destruct s.
      * specialize (Hneg eq_refl).
        destruct (Math.rounded true m e) as [| p | p]; [reflexivity | lia |].
        rewrite ltb_100_integer by lia. reflexivity.
      * specialize (Hpos eq_refl).
        assert (Hgoal : SFleb (S754_finite false 7072058789855232 (-46))
                              (S754_finite false m e)
                        = (100 <? Math.rounded false m e)).
        { unfold SFleb, SFcompare, Math.rounded.
          assert (H52 : 2 ^ 52 = 4503599627370496) by reflexivity.
          assert (H53 : 2 ^ 53 = 9007199254740992) by reflexivity.
          destruct (Z.compare_spec (-46) e) as [Heq | Hlt | Hgt].
          - subst e. change (2 ^ (1 - -46)) with 140737488355328.
            change (2 ^ (- -46)) with 70368744177664.
            rewrite compare_cont_Eq.
            destruct (Z.compare_spec 7072058789855232 (Zpos m)) as [H | H | H];
              destruct (Z.ltb_spec 100 ((2 * Zpos m + 70368744177664)
                                        / 140737488355328)) as [Hr' | Hr'];
              try reflexivity; exfalso; revert Hr'.
            + apply Z.lt_nge, Z.le_succ_l.
              apply Z.div_le_lower_bound; lia.
            + apply Z.lt_nge, Z.le_succ_l.
              apply Z.div_le_lower_bound; lia.
            + apply Z.le_ngt, Z.lt_succ_r. apply Z.div_lt_upper_bound; lia.
          - specialize (Hnorm ltac:(lia)).
            assert (HP : 2 ^ (- e) <= 2 ^ 45) by (apply Z.pow_le_mono_r; lia).
            change (2 ^ 45) with 35184372088832 in HP.
            assert (0 < 2 ^ (- e)) by (apply Z.pow_pos_nonneg; lia).
            name_power e P.
            destruct (Z.ltb_spec 100 ((2 * Zpos m + P) / (2 * P))) as [Hr' | Hr'];
              [reflexivity | exfalso; revert Hr'].
            apply Z.lt_nge, Z.le_succ_l.
            apply Z.div_le_lower_bound; lia.
          - assert (HP : 2 ^ 47 <= 2 ^ (- e)) by (apply Z.pow_le_mono_r; lia).
            change (2 ^ 47) with 140737488355328 in HP.
            name_power e P.
            destruct (Z.ltb_spec 100 ((2 * Zpos m + P) / (2 * P))) as [Hr' | Hr'];
              [exfalso; revert Hr' | reflexivity].
            apply Z.le_ngt, Z.lt_succ_r. apply Z.div_lt_upper_bound; lia. }
        rewrite Hgoal.
        destruct (Math.rounded false m e) as [| p | p]; [reflexivity | | lia].
        rewrite ltb_100_integer by lia. reflexivity.
Qed.

(** [Math.round q] is negative exactly when [q] is below -0.5. *)
Lemma round_negative (q : float) :
  (Math.round q <? 0)%float = (q <? -0.5)%float.
Proof.
  rewrite !ltb_spec, Prim2SF_zero, Prim2SF_minus_half.
  destruct (Prim2SF q) as [s | s | | s m e] eqn:Hq.
  - rewrite round_not_fraction by now rewrite Hq.
    rewrite Hq. reflexivity.
  - rewrite round_not_fraction by now rewrite Hq.
    rewrite Hq. now destruct s.
  - rewrite round_not_fraction by now rewrite Hq.
    rewrite Hq. reflexivity.
  - destruct (Prim2SF_valid_finite q s m e Hq) as [Hm [He Hnorm]].
    destruct (Z.le_gt_cases 0 e) as [Hint | Hfrac].
    + rewrite round_not_fraction by now rewrite Hq.
      rewrite Hq. unfold SFltb, SFcompare.
      destruct s; [| reflexivity].
      destruct (Z.compare_spec e (-53)); (reflexivity || lia).
    + rewrite (round_fraction q s m e Hq) by lia.
      pose proof (rounded_bounds s m e Hm ltac:(lia)) as [Hr [Hpos Hneg]].
      destruct s.
      * specialize (Hneg eq_refl).
        assert (Hgoal : SFltb (S754_finite true m e)
                              (S754_finite true 4503599627370496 (-53))
                        = (Math.rounded true m e <? 0)).
        { unfold SFltb, SFcompare, Math.rounded.
          assert (H52 : 2 ^ 52 = 4503599627370496) by reflexivity.
          assert (H53 : 2 ^ 53 = 9007199254740992) by reflexivity.
          destruct (Z.compare_spec e (-53)) as [Heq | Hlt | Hgt].
          - subst e. change (2 ^ (1 - -53)) with 18014398509481984.
            change (2 ^ (- -53)) with 9007199254740992.
            rewrite compare_cont_Eq.
            destruct (Z.compare_spec (Zpos m) 4503599627370496) as [H | H | H];
              destruct (Z.ltb_spec ((2 * Zneg m + 9007199254740992)
                                    / 18014398509481984) 0) as [Hr' | Hr'];
              try reflexivity; exfalso; revert Hr'.
            + apply Z.le_ngt. apply Z.div_le_lower_bound; lia.
            + apply Z.le_ngt. apply Z.div_le_lower_bound; lia.
            + apply Z.lt_nge. apply Z.div_lt_upper_bound; lia.
          - assert (HP : 2 ^ 54 <= 2 ^ (- e)) by (apply Z.pow_le_mono_r; lia).
            change (2 ^ 54) with 18014398509481984 in HP.
            name_power e P.
            destruct (Z.ltb_spec ((2 * Zneg m + P) / (2 * P)) 0) as [Hr' | Hr'];
              [exfalso; revert Hr' | reflexivity].
            apply Z.le_ngt. apply Z.div_le_lower_bound; lia.
          - specialize (Hnorm ltac:(lia)).
            assert (HP : 2 ^ (- e) <= 2 ^ 52) by (apply Z.pow_le_mono_r; lia).
            assert (0 < 2 ^ (- e)) by (apply Z.pow_pos_nonneg; lia).
            name_power e P.
            destruct (Z.ltb_spec ((2 * Zneg m + P) / (2 * P)) 0) as [Hr' | Hr'];
              [reflexivity | exfalso; revert Hr'].
            apply Z.lt_nge. apply Z.div_lt_upper_bound; lia. }
        rewrite Hgoal.
        destruct (Math.rounded true m e) as [| p | p]; [reflexivity | lia |].
        destruct (binary_normalize_integer true p ltac:(lia)) as [m' [Hr' _]].
        rewrite Hr'. reflexivity.
      * specialize (Hpos eq_refl).
        destruct (Math.rounded false m e) as [| p | p]; [reflexivity | | lia].
        destruct (binary_normalize_integer false p ltac:(lia)) as [m' [Hr' _]].
        rewrite Hr'. reflexivity.
Qed.

(** ** Quotients and products that stay above a bound *)

Lemma Prim2SF_1 : Prim2SF 1 = S754_finite false 4503599627370496 (-52).
Proof. reflexivity. Qed.

Lemma size_range (p : positive) (a b : Z) :
  0 <= a -> 2 ^ a <= Zpos p < 2 ^ b -> a < Zpos (digits2_pos p) <= b.
Proof.
  intros Ha [Hlo Hhi]. rewrite digits2_pos_size.
  pose proof (size_bounds p) as [Slo Shi].
  split.
  - destruct (Z.lt_ge_cases a (Zpos (Pos.size p))) as [H | H]; [exact H |].
    assert (2 ^ Zpos (Pos.size p) <= 2 ^ a) by (apply Z.pow_le_mono_r; lia).
    lia.
  - destruct (Z.le_gt_cases (Zpos (Pos.size p)) b) as [H | H]; [exact H |].
    destruct (Z.le_gt_cases 0 b) as [Hb | Hb].
    + assert (2 ^ b <= 2 ^ (Zpos (Pos.size p) - 1)) by (apply Z.pow_le_mono_r; lia).
      lia.
    + rewrite (Z.pow_neg_r 2 b) in Hhi by lia. lia.
Qed.

(** The digits of a valid finite binary64 number. *)
Lemma valid_finite_digits (s : bool) (m : positive) (e : Z) :
  valid_binary (S754_finite s m e) = true ->
  1 <= Zpos (digits2_pos m) <= 53 /\ -1074 <= e <= 971 /\
  (-1074 < e -> Zpos (digits2_pos m) = 53).
Proof.
  unfold valid_binary, SpecFloat.valid_binary, bounded, canonical_mantissa, fexp.
  change (SpecFloat.emin prec emax) with (-1074).
  change prec with 53. change emax with 1024.
  intros H. apply andb_true_iff in H. destruct H as [Hc He].
  apply Z.eqb_eq in Hc. apply Z.leb_le in He. lia.
Qed.

(** A number that is at least 1, times 100, is at least 100. *)
Lemma SFmul_100_lower (x : spec_float) :
  valid_binary x = true ->
  SFleb (S754_finite false 4503599627370496 (-52)) x = true ->
  SFleb (S754_finite false 7036874417766400 (-46))
        (SF64mul x (S754_finite false 7036874417766400 (-46))) = true.
Proof.
  intros Hv Hx.
  destruct x as [s | s | | s m e]; try discriminate Hx.
  - destruct s; [discriminate Hx | reflexivity].
  - destruct s; [discriminate Hx |].
    destruct (valid_finite_bounds false m e Hv) as [Hm [He Hnorm]].
    assert (He52 : -52 <= e /\ (e = -52 -> 2 ^ 52 <= Zpos m)).
    { unfold SFleb, SFcompare in Hx.
      destruct (Z.compare_spec (-52) e) as [Heq | Hlt | Hgt];
        [| lia | discriminate Hx].
      split; [lia |]. intros _.
      rewrite compare_cont_Eq in Hx.
      destruct (Z.compare_spec 4503599627370496 (Zpos m)); (discriminate Hx || lia). }
    destruct He52 as [He52 Hm52].
    specialize (Hnorm ltac:(lia)).
    assert (H52 : 2 ^ 52 = 4503599627370496) by reflexivity.
    assert (H53 : 2 ^ 53 = 9007199254740992) by reflexivity.
    assert (H104 : 2 ^ 104 = 4503599627370496 * 4503599627370496) by reflexivity.
    assert (H106 : 2 ^ 106 = 9007199254740992 * 9007199254740992) by reflexivity.
    assert (HM : 2 ^ 104 <= Zpos (m * 7036874417766400) < 2 ^ 106).
    { rewrite Pos2Z.inj_mul. nia. }
    pose proof (size_range _ 104 106 ltac:(lia) HM) as HD.
    unfold SF64mul, SFmul. cbn [xorb].
    destruct (binary_round_aux_lower false (m * 7036874417766400) (e + -46)
                loc_Exact ltac:(lia) ltac:(lia))
      as [Hinf | [m' [e' [Hfin [He' [Hm' Hfirst]]]]]].
    + rewrite Hinf. reflexivity.
    + rewrite Hfin. unfold SFleb, SFcompare.
      destruct (Z.compare_spec (-46) e') as [Heq | Hlt | Hgt];
        [| reflexivity | lia].
      rewrite compare_cont_Eq.
      assert (HD105 : Zpos (digits2_pos (m * 7036874417766400)) = 105) by lia.
      rewrite HD105 in Hfirst. specialize (Hfirst ltac:(lia)).
      change (2 ^ (105 - 53)) with 4503599627370496 in Hfirst.
      assert (7036874417766400 <= Zpos (m * 7036874417766400) / 4503599627370496).
      { apply Z.div_le_lower_bound; [lia |]. rewrite Pos2Z.inj_mul. nia. }
      destruct (Z.compare_spec 7036874417766400 (Zpos m')); (reflexivity || lia).
Qed.

(** A positive number divided by a smaller positive number is at least 1. *)
Lemma SFdiv_lower (c t : spec_float) :
  valid_binary c = true -> valid_binary t = true ->
  SFltb (S754_zero false) t = true -> SFltb t c = true ->
  SFleb (S754_finite false 4503599627370496 (-52)) (SF64div c t) = true.
Proof.
  intros Hvc Hvt Ht Hc.
  destruct t as [st | st | | st m2 e2]; try discriminate Ht.
  - destruct st; [discriminate Ht |].
    destruct c as [sc | sc | | sc m1 e1]; try discriminate Hc;
      destruct sc; discriminate Hc.
  - destruct st; [discriminate Ht |].
    destruct c as [sc | sc | | sc m1 e1]; try discriminate Hc.
    + destruct sc; [discriminate Hc | reflexivity].
    + destruct sc; [discriminate Hc |].
      destruct (valid_finite_digits false m1 e1 Hvc) as [Hd1 [He1 Hn1]].
      destruct (valid_finite_digits false m2 e2 Hvt) as [Hd2 [He2 Hn2]].
      pose proof (size_bounds m1) as [A1 A2].
      pose proof (size_bounds m2) as [B1 B2].
      rewrite <- digits2_pos_size in A1, A2, B1, B2.
      set (d1 := Zpos (digits2_pos m1)) in *.
      set (d2 := Zpos (digits2_pos m2)) in *.
      assert (Hord : (e2 < e1 /\ d1 = 53) \/ (e2 = e1 /\ Zpos m2 < Zpos m1 /\ d2 <= d1)).
      { unfold SFltb, SFcompare in Hc.
        destruct (Z.compare_spec e2 e1) as [Heq | Hlt | Hgt];
          [right | left | discriminate Hc].
        - rewrite compare_cont_Eq in Hc.
          destruct (Z.compare_spec (Zpos m2) (Zpos m1)) as [H | H | H];
            try discriminate Hc.
          repeat split; try lia.
          assert (d2 - 1 < d1); [| lia].
          apply (size_range m1 (d2 - 1) d1); lia.
        - split; [lia | apply Hn1; lia]. }
      assert (Hdelta : 0 <= d1 + e1 - d2 - e2) by lia.
      unfold SF64div, SFdiv, SFdiv_core_binary, fexp. cbn [Zdigits2 xorb].
      fold d1 d2.
      change (SpecFloat.emin prec emax) with (-1074). change prec with 53.
      replace (Z.min (Z.max (d1 + e1 - (d2 + e2) - 53) (-1074)) (e1 - e2))
        with (d1 + e1 - d2 - e2 - 53) by lia.
      replace (e1 - e2 - (d1 + e1 - d2 - e2 - 53)) with (53 - d1 + d2) by lia.
      destruct (53 - d1 + d2) as [| ps | ps] eqn:Hs; [lia | | lia].
      rewrite Z.shiftl_mul_pow2 by lia.
      assert (HPS : 0 < 2 ^ Zpos ps) by (apply Z.pow_pos_nonneg; lia).
      assert (Hrel : 2 ^ (d1 - 1) * 2 ^ Zpos ps = 2 ^ 53 * 2 ^ (d2 - 1)).
      { rewrite <- !Z.pow_add_r by lia. f_equal. lia. }
      assert (HP1 : 0 < 2 ^ (d1 - 1)) by (apply Z.pow_pos_nonneg; lia).
      assert (HP2 : 0 < 2 ^ (d2 - 1)) by (apply Z.pow_pos_nonneg; lia).
      assert (A2' : Zpos m1 < 2 * 2 ^ (d1 - 1)).
      { rewrite <- Z.pow_succ_r by lia. replace (Z.succ (d1 - 1)) with d1 by lia.
        exact A2. }
      assert (B2' : Zpos m2 < 2 * 2 ^ (d2 - 1)).
      { rewrite <- Z.pow_succ_r by lia. replace (Z.succ (d2 - 1)) with d2 by lia.
        exact B2. }
      assert (H52 : 2 ^ 52 = 4503599627370496) by reflexivity.
      assert (H53 : 2 ^ 53 = 9007199254740992) by reflexivity.
      assert (H54 : 2 ^ 54 = 18014398509481984) by reflexivity.
      set (P1 := 2 ^ (d1 - 1)) in *. set (P2 := 2 ^ (d2 - 1)) in *.
      set (PS := 2 ^ Zpos ps) in *.
      assert (Hquot : Z.div_eucl (Zpos m1 * PS) (Zpos m2)
                      = (Zpos m1 * PS / Zpos m2, Zpos m1 * PS mod Zpos m2)).
      { unfold Z.div, Z.modulo. now destruct (Z.div_eucl _ _). }
      rewrite Hquot.
      assert (Hq : 2 ^ 52 <= Zpos m1 * PS / Zpos m2 < 2 ^ 54).
      { split.
        - apply Z.div_le_lower_bound; [lia |]. nia.
        - apply Z.div_lt_upper_bound; [lia |]. nia. }
      assert (Hq0 : d1 + e1 - d2 - e2 = 0 -> 2 ^ 53 <= Zpos m1 * PS / Zpos m2).
      { intros H0.
        assert (Hps : Zpos ps = 53) by lia.
        apply Z.div_le_lower_bound; [lia |].
        unfold PS. rewrite Hps, H53. nia. }
      destruct (Zpos m1 * PS / Zpos m2) as [| q | q]; [lia | | lia].
      pose proof (size_range q 52 54 ltac:(lia) Hq) as HDq.
      assert (HDq0 : d1 + e1 - d2 - e2 = 0 -> Zpos (digits2_pos q) = 54).
      { intros H0. specialize (Hq0 H0).
        pose proof (size_range q 53 54 ltac:(lia) ltac:(lia)). lia. }
      change (binary_round_aux 53 emax) with (binary_round_aux prec emax).
      destruct (binary_round_aux_lower false q (d1 + e1 - d2 - e2 - 53)
                  (new_location (Zpos m2) (Zpos m1 * PS mod Zpos m2))
                  ltac:(lia) ltac:(lia))
        as [Hinf | [m' [e' [Hfin [He' [Hm' _]]]]]].
      * rewrite Hinf. reflexivity.
      * rewrite Hfin. unfold SFleb, SFcompare.
        assert (-52 <= e').
        { destruct (Z.eq_dec (d1 + e1 - d2 - e2) 0) as [H0 | H0].
          - specialize (HDq0 H0). lia.
          - lia. }
        destruct (Z.compare_spec (-52) e') as [Heq | Hlt | Hgt];
          [| reflexivity | lia].
        rewrite compare_cont_Eq.
        destruct (Z.compare_spec 4503599627370496 (Zpos m')); (reflexivity || lia).
Qed.

(** ** Bounds on the percentage *)

Lemma Prim2SF_99_5 :
  Prim2SF 99.5 = S754_finite false 7001690045677568 (-46).
Proof. reflexivity. Qed.

Lemma leb_100_integer (s : bool) (p : positive) :
  Zpos p < 2 ^ 53 ->
  SFleb (S754_finite false 7036874417766400 (-46)) (binary_round prec emax s p 0)
  = negb s && (100 <=? Zpos p).
Proof.
  intros Hp.
  destruct (binary_normalize_integer s p Hp) as [m [Hr [Hm _]]].
  pose proof (size_bounds p) as [Hlo Hhi].
  rewrite Hr. unfold SFleb, SFcompare.
  destruct s; [reflexivity |]. cbn [negb andb].
  destruct (Z.compare_spec (-46) (Zpos (Pos.size p) - 53)) as [He | He | He].
  - assert (Hsize : Zpos (Pos.size p) = 7) by lia.
    rewrite Hsize in Hm. change (2 ^ (53 - 7)) with 70368744177664 in Hm.
    rewrite compare_cont_Eq, Hm.
    destruct (Z.compare_spec 7036874417766400 (Zpos p * 70368744177664));
      destruct (Z.leb_spec 100 (Zpos p)); (reflexivity || lia).
  - assert (2 ^ 7 <= 2 ^ (Zpos (Pos.size p) - 1)) by (apply Z.pow_le_mono_r; lia).
    change (2 ^ 7) with 128 in *.
    destruct (Z.leb_spec 100 (Zpos p)); [reflexivity | lia].
  - assert (2 ^ Zpos (Pos.size p) <= 2 ^ 6) by (apply Z.pow_le_mono_r; lia).
    change (2 ^ 6) with 64 in *.
    destruct (Z.leb_spec 100 (Zpos p)); [lia | reflexivity].
Qed.

(** [Math.round q] is at least 100 exactly when [q] is at least 99.5. *)
Lemma round_at_least_100 (q : float) :
  (100 <=? Math.round q)%float = (99.5 <=? q)%float.
Proof.
  rewrite !leb_spec, Prim2SF_100, Prim2SF_99_5.
  destruct (Prim2SF q) as [s | s | | s m e] eqn:Hq.
  - rewrite round_not_fraction by now rewrite Hq.
    rewrite Hq. reflexivity.
  - rewrite round_not_fraction by now rewrite Hq.
    rewrite Hq. now destruct s.
  - rewrite round_not_fraction by now rewrite Hq.
    rewrite Hq. reflexivity.
  - destruct (Prim2SF_valid_finite q s m e Hq) as [Hm [He Hnorm]].
    destruct (Z.le_gt_cases 0 e) as [Hint | Hfrac].
    + rewrite round_not_fraction by now rewrite Hq.
      rewrite Hq. unfold SFleb, SFcompare.
      destruct s; [reflexivity |].
      destruct (Z.compare_spec (-46) e); (reflexivity || lia).
    + rewrite (round_fraction q s m e Hq) by lia.
      pose proof (rounded_bounds s m e Hm ltac:(lia)) as [Hr [Hpos Hneg]].
      destruct s.
      * specialize (Hneg eq_refl).
        destruct (Math.rounded true m e) as [| p | p]; [reflexivity | lia |].
        rewrite leb_100_integer by lia. reflexivity.
      * specialize (Hpos eq_refl).
        assert (Hgoal : SFleb (S754_finite false 7001690045677568 (-46))
                              (S754_finite false m e)
                        = (100 <=? Math.rounded false m e)).
        { unfold SFleb, SFcompare, Math.rounded.
          assert (H52 : 2 ^ 52 = 4503599627370496) by reflexivity.
          assert (H53 : 2 ^ 53 = 9007199254740992) by reflexivity.
          destruct (Z.compare_spec (-46) e) as [Heq | Hlt | Hgt].
          - subst e. change (2 ^ (1 - -46)) with 140737488355328.
            change (2 ^ (- -46)) with 70368744177664.
            rewrite compare_cont_Eq.
            destruct (Z.compare_spec 7001690045677568 (Zpos m)) as [H | H | H];
              destruct (Z.leb_spec 100 ((2 * Zpos m + 70368744177664)
                                        / 140737488355328)) as [Hr' | Hr'];
              try reflexivity; exfalso; revert Hr'.
            + apply Z.le_ngt. apply Z.div_le_lower_bound; lia.
            + apply Z.le_ngt. apply Z.div_le_lower_bound; lia.
            + apply Z.lt_nge. apply Z.div_lt_upper_bound; lia.
          - specialize (Hnorm ltac:(lia)).
            assert (HP : 2 ^ (- e) <= 2 ^ 45) by (apply Z.pow_le_mono_r; lia).
            change (2 ^ 45) with 35184372088832 in HP.
            assert (0 < 2 ^ (- e)) by (apply Z.pow_pos_nonneg; lia).
            name_power e P.
            destruct (Z.leb_spec 100 ((2 * Zpos m + P) / (2 * P))) as [Hr' | Hr'];
              [reflexivity | exfalso; revert Hr'].
            apply Z.le_ngt. apply Z.div_le_lower_bound; lia.
          - assert (HP : 2 ^ 47 <= 2 ^ (- e)) by (apply Z.pow_le_mono_r; lia).
            change (2 ^ 47) with 140737488355328 in HP.
            name_power e P.
            destruct (Z.leb_spec 100 ((2 * Zpos m + P) / (2 * P))) as [Hr' | Hr'];
              [exfalso; revert Hr' | reflexivity].
            apply Z.lt_nge. apply Z.div_lt_upper_bound; lia. }
        rewrite Hgoal.
        destruct (Math.rounded false m e) as [| p | p]; [reflexivity | | lia].
        rewrite leb_100_integer by lia. reflexivity.
Qed.

Lemma leb_100_leb_99_5 (y : float) :
  (100 <=? y)%float = true -> (99.5 <=? y)%float = true.
Proof.
  rewrite !leb_spec, Prim2SF_100, Prim2SF_99_5.
  destruct (Prim2SF y) as [s | s | | s m e]; try (intros H; exact H).
  destruct s; [intros H; exact H |].
  unfold SFleb, SFcompare.
  destruct (Z.compare_spec (-46) e) as [He | He | He];
    try (intros H; exact H).
  rewrite !compare_cont_Eq.
  destruct (Z.compare_spec 7036874417766400 (Zpos m)) as [Ha | Ha | Ha];
    destruct (Z.compare_spec 7001690045677568 (Zpos m)) as [Hb | Hb | Hb];
    intros H; try reflexivity; try discriminate H; lia.
Qed.

(** With more tasks completed than the positive total, the percentage is
    at least 100. *)
Lemma percentage_at_least_100 (c t : float) :
  (0 <? t)%float = true -> (t <? c)%float = true ->
  (100 <=? percentage c t)%float = true.
Proof.
  rewrite !ltb_spec, Prim2SF_zero. intros Ht Hc.
  unfold percentage. rewrite round_at_least_100.
  apply leb_100_leb_99_5.
  rewrite leb_spec, mul_spec, Prim2SF_100.
  apply SFmul_100_lower.
  - apply Prim2SF_valid.
  - rewrite div_spec. apply SFdiv_lower; auto using Prim2SF_valid.
Qed.

Lemma SFdiv_sign (c t : spec_float) (mt : positive) (et : Z) :
  sign_bit_set c -> t = S754_finite false mt et ->
  sign_bit_set (SF64div c t).
Proof.
  intros Hc ->. unfold SF64div, SFdiv.
  destruct c as [s | s | | s m e]; cbn in Hc; try contradiction; subst s;
    try exact eq_refl.
  unfold SFdiv_core_binary. cbv zeta.
  match goal with
  | |- context [Z.div_eucl ?a ?b] =>
      assert (Hm' : 0 <= a);
      [| assert (Hq : Z.div_eucl a b = (a / b, a mod b))
           by (unfold Z.div, Z.modulo; now destruct (Z.div_eucl a b));
         rewrite Hq;
         pose proof (Z.div_pos a b Hm' ltac:(lia)) as Hquot ]
  end.
  { match goal with
    | |- 0 <= match ?s with _ => _ end => destruct s; try lia
    end.
    rewrite Z.shiftl_mul_pow2 by lia.
    apply Z.mul_nonneg_nonneg; [lia | apply Z.pow_nonneg; lia]. }
  cbn [xorb].
  match goal with
  | |- sign_bit_set (binary_round_aux _ _ true ?q ?e ?l) =>
      pose proof (binary_round_aux_sign true q e l Hquot) as H;
      unfold sign_bit_set;
      destruct (binary_round_aux prec emax true q e l); exact H
  end.
Qed.

Lemma SFmul_100_sign (x : spec_float) :
  sign_bit_set x ->
  sign_bit_set (SF64mul x (S754_finite false 7036874417766400 (-46))).
Proof.
  intros Hx. unfold SF64mul, SFmul.
  destruct x as [s | s | | s m e]; cbn in Hx; try contradiction; subst s;
    try exact eq_refl.
  cbn [xorb].
  pose proof (binary_round_aux_sign true (Zpos (m * 7036874417766400)) (e + -46)
                loc_Exact ltac:(lia)) as H.
  unfold sign_bit_set.
  destruct (binary_round_aux prec emax true _ _ _); exact H.
Qed.

Lemma round_sign (q : float) :
  sign_bit_set (Prim2SF q) -> sign_bit_set (Prim2SF (Math.round q)).
Proof.
  intros Hq.
  destruct (Prim2SF q) as [s | s | | s m e] eqn:Eq;
    try (rewrite round_not_fraction by (now rewrite Eq); now rewrite Eq).
  cbn in Hq. subst s.
  destruct (Z.le_gt_cases 0 e) as [Hint | Hfrac].
  - rewrite round_not_fraction by (now rewrite Eq). now rewrite Eq.
  - destruct (Prim2SF_valid_finite q true m e Eq) as [Hm _].
    pose proof (rounded_bounds true m e Hm ltac:(lia)) as [Hr [_ Hneg]].
    specialize (Hneg eq_refl).
    rewrite (round_fraction q true m e Eq) by lia.
    destruct (Math.rounded true m e) as [| p | p]; [reflexivity | lia |].
    destruct (binary_normalize_integer true p ltac:(lia)) as [m' [Hr' _]].
    rewrite Hr'. reflexivity.
Qed.

(** With a negative count over a positive, finite total, the percentage is
    never above zero. *)
Lemma percentage_at_most_0 (c t : float) :
  (c <? 0)%float = true -> (0 <? t)%float = true ->
  (t <? infinity)%float = true ->
  (percentage c t <=? 0)%float = true.
Proof.
  rewrite !ltb_spec, leb_spec, Prim2SF_zero.
  change (Prim2SF infinity) with (S754_infinity false).
  intros Hc Ht Hfin.
  assert (Hsc : sign_bit_set (Prim2SF c)).
  { destruct (Prim2SF c) as [s | s | | s m e]; try discriminate Hc;
      destruct s; try discriminate Hc; reflexivity. }
  assert (Hst : exists mt et, Prim2SF t = S754_finite false mt et).
  { destruct (Prim2SF t) as [s | s | | s m e]; try discriminate Ht;
      destruct s; try discriminate Ht; try discriminate Hfin.
    now exists m, e. }
  destruct Hst as [mt [et Hst]].
  assert (Hpct : sign_bit_set (Prim2SF (percentage c t))).
  { unfold percentage. apply round_sign.
    rewrite mul_spec, div_spec, Prim2SF_100.
    apply SFmul_100_sign. now apply (SFdiv_sign _ _ mt et). }
  destruct (Prim2SF (percentage c t)) as [s | s | | s m e];
    cbn in Hpct; try contradiction; subst s; reflexivity.
Qed.

(** ** ProgressTracker *)

Lemma float_of_SF (x : float) (sf : spec_float) :
  Prim2SF x = sf -> x = SF2Prim sf.
Proof. intros <-. symmetry. apply SF2Prim_Prim2SF. Qed.

(** [t == 0] holds for the two zeros only. *)
Lemma eqb_zero_cases (t : float) :
  (t =? 0)%float = true <-> t = zero \/ t = neg_zero.
Proof.
  split.
  - rewrite eqb_spec, Prim2SF_zero. intros H.
    destruct (Prim2SF t) as [s | s | | s m e] eqn:Ht;
      try (destruct s; discriminate H); try discriminate H.
    apply float_of_SF in Ht. destruct s; [right | left]; exact Ht.
  - intros [-> | ->]; reflexivity.
Qed.

Lemma ltb_zero_cases (c : float) :
  (0 <? c)%float = true ->
  Prim2SF c = S754_infinity false \/ exists m e, Prim2SF c = S754_finite false m e.
Proof.
  rewrite ltb_spec, Prim2SF_zero. intros H.
  destruct (Prim2SF c) as [s | s | | s m e];
    try destruct s; try discriminate H.
  - now left.
  - right. now exists m, e.
Qed.

(** The percentage over a total of zero: NaN for a zero or NaN count, and
    otherwise the infinity whose sign is the count's sign times the zero's. *)
Lemma percentage_zero_total (c t : float) (s : bool) :
  Prim2SF t = S754_zero s ->
  percentage c t
  = match Prim2SF c with
    | S754_nan | S754_zero _ => nan
    | S754_infinity sc | S754_finite sc _ _ =>
        if xorb sc s then neg_infinity else infinity
    end.
Proof.
  intros Ht. unfold percentage.
  assert (Hq : Prim2SF (c / t * 100)
               = match Prim2SF c with
                 | S754_nan | S754_zero _ => S754_nan
                 | S754_infinity sc | S754_finite sc _ _ =>
                     S754_infinity (xorb sc s)
                 end).
  { rewrite mul_spec, div_spec, Ht, Prim2SF_100.
    destruct (Prim2SF c) as [sc | sc | | sc m e]; cbn;
      try reflexivity; now rewrite xorb_false_r. }
  rewrite round_not_fraction.
  - apply float_of_SF in Hq. rewrite Hq.
    destruct (Prim2SF c) as [sc | sc | | sc m e]; try reflexivity;
      now destruct (xorb sc s).
  - rewrite Hq. now destruct (Prim2SF c).
Qed.

Lemma toString_nan : Number.toString nan = "NaN".
Proof. reflexivity. Qed.

Lemma toString_infinity :
  Number.toString infinity = "Infinity" /\
  Number.toString neg_infinity = "-Infinity".
Proof. split; reflexivity. Qed.

Lemma toString_zero (x : float) : (x =? 0)%float = true -> Number.toString x = "0".
Proof.
  intros H. apply eqb_zero_cases in H. destruct H as [-> | ->]; reflexivity.
Qed.

(** C1: for every [section], [completedTasks] and [totalTasks], the
    component returns, whatever state React holds and without touching it,
    exactly one element, fixed by the props: the [div] of class
    [progress-tracker] whose children are the heading
    [Section {section} Progress], the [div] of class [progress-bar] holding
    the bar, an empty [div] of class [progress] with the single style
    [width], and the paragraph
    [{completedTasks} of {totalTasks} tasks completed ({percentage}%)], and
    nothing else.  In it [percentage] is
    [Math.round((completedTasks / totalTasks) * 100)], the width of the bar
    is that percentage followed by a percent sign, and the numbers shown are
    the section, the two counts and the percentage. *)
Theorem progress_tracker_renders_percentage (props : ProgressTrackerProps) :
  exists tree : Node,
    tree
    = Element "div" (Some "progress-tracker") []
        [ Element "h3" None []
            [Text "Section "; Num (section props); Text " Progress"];
          Element "div" (Some "progress-bar") []
            [ Element "div" (Some "progress")
                [("width",
                  Number.toString
                    (Math.round
                       ((completedTasks props / totalTasks props) * 100)%float)
                  ++ "%")]
                [] ];
          Element "p" None []
            [ Num (completedTasks props); Text " of ";
              Num (totalTasks props); Text " tasks completed (";
              Num (Math.round
                     ((completedTasks props / totalTasks props) * 100)%float);
              Text "%)" ] ] /\
    (forall (St : Type) (st : St),
        ProgressTracker props st = (Returned tree, st)) /\
    percentage (completedTasks props) (totalTasks props)
    = Math.round ((completedTasks props / totalTasks props) * 100)%float /\
    select "progress-bar" tree
    = [ Element "div" (Some "progress-bar") []
          [ Element "div" (Some "progress")
              [("width",
                Number.toString
                  (percentage (completedTasks props) (totalTasks props)) ++ "%")]
              [] ] ] /\
    styles "width" tree
    = [ Number.toString (percentage (completedTasks props) (totalTasks props))
        ++ "%" ] /\
    numbers tree
    = [ section props; completedTasks props; totalTasks props;
        percentage (completedTasks props) (totalTasks props) ] /\
    map textContent (by_tag "h3" tree)
    = [ "Section " ++ Number.toString (section props) ++ " Progress" ] /\
    map textContent (by_tag "p" tree)
    = [ Number.toString (completedTasks props) ++ " of "
        ++ Number.toString (totalTasks props) ++ " tasks completed ("
        ++ Number.toString (percentage (completedTasks props) (totalTasks props))
        ++ "%)" ].
Proof.
  eexists. split; [reflexivity |].
  split; [intros St st; reflexivity |].
  repeat split.
Qed.

Example tracker_on_the_pages :
  map (fun e =>
         match tracker_props e with
         | Some props =>
             match fst (ProgressTracker props tt) with
             | Returned tree => (styles "width" tree, map textContent (by_tag "p" tree))
             | Thrown _ => ([], [])
             end
         | None => ([], [])
         end)
      (flat_map (instances "ProgressTracker") exercise_pages)
  = [ (["0%"], ["0 of 5 tasks completed (0%)"]);
      (["20%"], ["1 of 5 tasks completed (20%)"]);
      (["40%"], ["2 of 5 tasks completed (40%)"]) ].
Proof. vm_compute. reflexivity. Qed.

Example percentage_rounds_the_binary64_product :
  (29 / 200 * 100 <? 14.5)%float = true /\ (percentage 29 200 = 14)%float.
Proof. split; reflexivity. Qed.

(** C2, as stated, fails: with [totalTasks = 0] the component is not
    rejected. It returns, and the bar is rendered with the width [NaN%]. *)
Lemma zero_total_is_rendered_counterexample :
  (totalTasks {| section := 1; completedTasks := 0; totalTasks := 0 |} =? 0)%float
  = true /\
  (exists tree : Node,
      ProgressTracker {| section := 1; completedTasks := 0; totalTasks := 0 |} tt
      = (Returned tree, tt) /\
      styles "width" tree = ["NaN%"] /\
      map textContent (by_tag "p" tree) = ["0 of 0 tasks completed (NaN%)"]) /\
  ~ (exists error : string,
        fst (ProgressTracker
               {| section := 1; completedTasks := 0; totalTasks := 0 |} tt)
        = Thrown error).
Proof.
  split; [reflexivity |]. split.
  - eexists. repeat split.
  - intros [error H]. discriminate H.
Qed.

(** C2 (amended): the component validates nothing. With [totalTasks == 0] it
    returns as for any other input, whatever the other props are, and the
    percentage it renders is NaN, Infinity or -Infinity, the bar width being
    one of [NaN%], [Infinity%] and [-Infinity%]. *)
Theorem zero_total_is_rendered (props : ProgressTrackerProps) :
  (totalTasks props =? 0)%float = true ->
  exists tree : Node,
    (forall (St : Type) (st : St),
        ProgressTracker props st = (Returned tree, st)) /\
    (percentage (completedTasks props) (totalTasks props) = nan \/
     percentage (completedTasks props) (totalTasks props) = infinity \/
     percentage (completedTasks props) (totalTasks props) = neg_infinity) /\
    (styles "width" tree = ["NaN%"] \/
     styles "width" tree = ["Infinity%"] \/
     styles "width" tree = ["-Infinity%"]).
Proof.
  intros Hzero.
  assert (Ht : exists s, Prim2SF (totalTasks props) = S754_zero s).
  { apply eqb_zero_cases in Hzero.
    destruct Hzero as [-> | ->]; eexists; reflexivity. }
  destruct Ht as [s Ht].
  pose proof (percentage_zero_total (completedTasks props) _ s Ht) as Hpct.
  eexists. split; [intros St st; reflexivity |].
  cbn [styles filter map flat_map fst snd String.eqb Ascii.eqb Bool.eqb app].
  rewrite Hpct.
  destruct (Prim2SF (completedTasks props)) as [sc | sc | | sc m e];
    try destruct (xorb sc s); auto.
Qed.

Lemma zero_total_is_rendered_witness :
  exists tree : Node,
    (forall (St : Type) (st : St),
        ProgressTracker {| section := 1; completedTasks := 3; totalTasks := 0 |} st
        = (Returned tree, st)) /\
    (percentage 3 0 = nan \/ percentage 3 0 = infinity \/
     percentage 3 0 = neg_infinity)%float /\
    (styles "width" tree = ["NaN%"] \/
     styles "width" tree = ["Infinity%"] \/
     styles "width" tree = ["-Infinity%"]).
Proof.
  apply (zero_total_is_rendered
           {| section := 1; completedTasks := 3; totalTasks := 0 |}).
  reflexivity.
Defined.

(** C9, as stated, fails for the zero of negative sign: [-0 == 0] holds, and
    with [completedTasks = 1 > 0] the percentage is -Infinity, not Infinity. *)
Lemma negative_zero_total_counterexample :
  (neg_zero =? 0)%float = true /\
  (0 <? 1)%float = true /\
  (percentage 1 neg_zero = neg_infinity)%float /\
  (percentage 1 neg_zero <> infinity)%float /\
  (exists tree : Node,
      ProgressTracker
        {| section := 1; completedTasks := 1; totalTasks := neg_zero |} tt
      = (Returned tree, tt) /\
      styles "width" tree = ["-Infinity%"]).
Proof.
  split; [reflexivity |]. split; [reflexivity |]. split; [reflexivity |].
  split.
  - intros H. apply (f_equal Prim2SF) in H. discriminate H.
  - eexists. split; reflexivity.
Qed.

(** C9 (amended): the component returns for every input. With
    [totalTasks == 0] the division is unguarded: for [completedTasks == 0]
    the percentage is NaN and is shown as [NaN%]; for [completedTasks > 0]
    it is Infinity when [totalTasks] is the zero of positive sign and
    -Infinity when it is the zero of negative sign. *)
Theorem zero_total_renders_nan_or_infinity :
  (forall props : ProgressTrackerProps,
      exists tree : Node,
        forall (St : Type) (st : St),
          ProgressTracker props st = (Returned tree, st)) /\
  (forall props : ProgressTrackerProps,
      (totalTasks props =? 0)%float = true ->
      exists tree : Node,
        (forall (St : Type) (st : St),
            ProgressTracker props st = (Returned tree, st)) /\
        ((completedTasks props =? 0)%float = true ->
         percentage (completedTasks props) (totalTasks props) = nan /\
         styles "width" tree = ["NaN%"] /\
         map textContent (by_tag "p" tree) = ["0 of 0 tasks completed (NaN%)"]) /\
        ((0 <? completedTasks props)%float = true ->
         (totalTasks props = zero ->
          percentage (completedTasks props) (totalTasks props) = infinity /\
          styles "width" tree = ["Infinity%"]) /\
         (totalTasks props = neg_zero ->
          percentage (completedTasks props) (totalTasks props) = neg_infinity /\
          styles "width" tree = ["-Infinity%"]))).
Proof.
  split.
  - intros props. eexists. intros St st. reflexivity.
  - intros props Hzero.
    eexists. split; [intros St st; reflexivity |].
    cbn [styles filter map flat_map fst snd String.eqb Ascii.eqb Bool.eqb app
         by_tag textContent String.concat].
    split.
    + intros Hc.
      rewrite (toString_zero _ Hzero), (toString_zero _ Hc).
      apply eqb_zero_cases in Hzero, Hc.
      destruct Hzero as [-> | ->], Hc as [-> | ->]; repeat split.
    + intros Hc. apply ltb_zero_cases in Hc.
      split; intros Ht; rewrite Ht.
      * rewrite (percentage_zero_total (completedTasks props) zero false eq_refl).
        destruct Hc as [-> | [m [e ->]]]; split; reflexivity.
      * rewrite (percentage_zero_total (completedTasks props) neg_zero true eq_refl).
        destruct Hc as [-> | [m [e ->]]]; split; reflexivity.
Qed.

Lemma zero_total_renders_nan_or_infinity_witness :
  (percentage 0 0 = nan /\ percentage 2 0 = infinity)%float.
Proof.
  destruct zero_total_renders_nan_or_infinity as [_ H].
  split.
  - destruct (H {| section := 1; completedTasks := 0; totalTasks := 0 |} eq_refl)
      as [tree [_ [Hnan _]]].
    exact (proj1 (Hnan eq_refl)).
  - destruct (H {| section := 1; completedTasks := 2; totalTasks := 0 |} eq_refl)
      as [tree [_ [_ Hinf]]].
    exact (proj1 (proj1 (Hinf eq_refl) eq_refl)).
Defined.

(** C10, as stated, fails: 1001 tasks of 1000 give the percentage 100, which
    does not exceed 100, and -1 task of 1000 gives the percentage -0, shown
    as [0%], which is not negative. *)
Lemma percentage_near_bounds_counterexample :
  ((0 <? 1000)%float = true /\ (1000 <? 1001)%float = true /\
   (percentage 1001 1000 = 100)%float /\
   (100 <? percentage 1001 1000)%float = false /\
   Number.toString (percentage 1001 1000)%float ++ "%" = "100%") /\
  ((0 <? 1000)%float = true /\ (-1 <? 0)%float = true /\
   (percentage (-1) 1000 = neg_zero)%float /\
   (percentage (-1) 1000 <? 0)%float = false /\
   Number.toString (percentage (-1) 1000)%float ++ "%" = "0%").
Proof. repeat split. Qed.

(** C10 (amended): the percentage is never clamped to [0, 100]: what is
    shown and what sets the bar width is [Math.round(q)] for
    [q = (completedTasks / totalTasks) * 100], whatever its range. For
    [totalTasks > 0] and [completedTasks > totalTasks] it is at least 100,
    and it exceeds 100 exactly when [q >= 100.5]; for [completedTasks < 0]
    and a positive finite [totalTasks] it is at most 0, and it is negative
    exactly when [q < -0.5]. *)
Theorem percentage_is_not_clamped (props : ProgressTrackerProps) :
  exists tree : Node,
    (forall (St : Type) (st : St),
        ProgressTracker props st = (Returned tree, st)) /\
    styles "width" tree
    = [ Number.toString (percentage (completedTasks props) (totalTasks props))
        ++ "%" ] /\
    In (percentage (completedTasks props) (totalTasks props)) (numbers tree) /\
    ((0 <? totalTasks props)%float = true ->
     (totalTasks props <? completedTasks props)%float = true ->
     (100 <=? percentage (completedTasks props) (totalTasks props))%float = true) /\
    ((0 <? totalTasks props)%float = true ->
     (totalTasks props <? infinity)%float = true ->
     (completedTasks props <? 0)%float = true ->
     (percentage (completedTasks props) (totalTasks props) <=? 0)%float = true) /\
    (100 <? percentage (completedTasks props) (totalTasks props))%float
    = (100.5 <=? completedTasks props / totalTasks props * 100)%float /\
    (percentage (completedTasks props) (totalTasks props) <? 0)%float
    = (completedTasks props / totalTasks props * 100 <? -0.5)%float.
Proof.
  eexists. split; [intros St st; reflexivity |].
  split; [reflexivity |]. split; [cbn; auto |].
  split; [intros Ht Hc; now apply percentage_at_least_100 |].
  split; [intros Ht Hfin Hc; now apply percentage_at_most_0 |].
  unfold percentage. split; [apply round_exceeds_100 | apply round_negative].
Qed.

Lemma percentage_is_not_clamped_witness :
  (100 <=? percentage 3 2)%float = true /\
  (percentage (-1) 2 <=? 0)%float = true.
Proof.
  split.
  - destruct (percentage_is_not_clamped
                {| section := 1; completedTasks := 3; totalTasks := 2 |})
      as [tree [_ [_ [_ [Habove _]]]]].
    exact (Habove eq_refl eq_refl).
  - destruct (percentage_is_not_clamped
                {| section := 1; completedTasks := -1; totalTasks := 2 |})
      as [tree [_ [_ [_ [_ [Hbelow _]]]]]].
    exact (Hbelow eq_refl eq_refl eq_refl).
Defined.

Example percentage_beyond_bounds :
  (percentage 3 2 = 150 /\ percentage (-1) 2 = -50 /\
   percentage 1005 1000 = 100 /\ percentage 1006 1000 = 101)%float.
Proof. repeat split. Qed.

(** * Further properties of ProgressTracker and of the pages *)

(** ** The shape of a rounded result *)

Lemma Zdigits2_bound (m : Z) : 0 <= m -> m < 2 ^ Zdigits2 m.
Proof.
  intros Hm. destruct m as [| p | p]; [reflexivity | | lia].
  cbn [Zdigits2]. rewrite digits2_pos_size. apply size_bounds.
Qed.

Lemma Zdigits2_nonneg (m : Z) : 0 <= Zdigits2 m.
Proof. destruct m; cbn; lia. Qed.

(** Rounding [m * 2^e] when the target exponent [e1] is not below [e]: the
    result is a zero, or has exponent [e1] and a mantissa at most one above
    the shifted [m], or the increment carried into the next binade. *)
Lemma binary_round_aux_shape (s : bool) (m e : Z) (l : location) :
  0 <= m ->
  e <= fexp prec emax (Zdigits2 m + e) ->
  fexp prec emax (Zdigits2 m + e) < 971 ->
  binary_round_aux prec emax s m e l = S754_zero s \/
  exists (m' : positive) (e' : Z),
    binary_round_aux prec emax s m e l = S754_finite s m' e' /\
    ((e' = fexp prec emax (Zdigits2 m + e) /\
      Zpos m' <= m / 2 ^ (fexp prec emax (Zdigits2 m + e) - e) + 1 /\
      Zpos m' < 2 ^ 53) \/
     (e' = fexp prec emax (Zdigits2 m + e) + 1 /\
      Zpos m' = 2 ^ 52 /\
      2 ^ 53 <= m / 2 ^ (fexp prec emax (Zdigits2 m + e) - e) + 1)).
Proof.
  intros Hm Hn Hmax.
  set (e1 := fexp prec emax (Zdigits2 m + e)) in *.
  set (q := m / 2 ^ (e1 - e)).
  assert (H52 : 2 ^ 52 = 4503599627370496) by reflexivity.
  assert (H53 : 2 ^ 53 = 9007199254740992) by reflexivity.
  assert (He1 : Zdigits2 m + e - 53 <= e1 /\ -1074 <= e1).
  { unfold e1, fexp. change (SpecFloat.emin prec emax) with (-1074).
    change prec with 53. lia. }
  assert (Hq : 0 <= q < 2 ^ 53).
  { assert (Hpow : 0 < 2 ^ (e1 - e)) by (apply Z.pow_pos_nonneg; lia).
    unfold q. split; [apply Z.div_pos; lia |].
    apply Z.div_lt_upper_bound; [exact Hpow |].
    rewrite <- Z.pow_add_r by lia.
    apply Z.lt_le_trans with (1 := Zdigits2_bound m Hm).
    pose proof (Zdigits2_nonneg m).
    apply Z.pow_le_mono_r; lia. }
  assert (Hshr : exists mrs,
             shr_fexp prec emax m e l = (mrs, e1) /\ shr_m mrs = q).
  { unfold shr_fexp, shr. fold e1. unfold q.
    destruct (e1 - e) as [| p | p] eqn:Hd; [| | lia].
    - eexists. split; [f_equal; lia |].
      rewrite shr_record_of_loc_m. cbn. now rewrite Z.div_1_r.
    - eexists. split; [f_equal; lia |].
      rewrite iter_shr_1_m by (rewrite shr_record_of_loc_m; lia).
      now rewrite shr_record_of_loc_m. }
  destruct Hshr as [mrs [Hshr Hmrs]].
  unfold binary_round_aux. rewrite Hshr, Hmrs.
  pose proof (round_nearest_even_bounds q (loc_of_shr_record mrs)) as Hr.
  destruct (round_nearest_even q (loc_of_shr_record mrs)) as [| r | r];
    [| | lia].
  - left.
    unfold shr_fexp, shr, fexp. cbn [Zdigits2 shr_record_of_loc].
    change (SpecFloat.emin prec emax) with (-1074). change prec with 53.
    destruct (Z.max (0 + e1 - 53) (-1074) - e1) eqn:Hd; [reflexivity | lia |
      reflexivity].
  - right.
    destruct (Z.eq_dec (Zpos r) (2 ^ 53)) as [Hcarry | Hnocarry].
    + assert (Hr53 : r = 9007199254740992%positive) by lia.
      subst r.
      replace (shr_fexp prec emax 9007199254740992 e1 loc_Exact)
        with ({| shr_m := 4503599627370496; shr_r := false; shr_s := false |},
              e1 + 1).
      * cbn [shr_m]. change (emax - prec) with 971.
        destruct (Z.leb_spec (e1 + 1) 971); [| lia].
        exists 4503599627370496%positive, (e1 + 1).
        split; [reflexivity |]. right. repeat split; lia.
      * unfold shr_fexp, shr, Zdigits2, fexp.
        change (SpecFloat.emin prec emax) with (-1074). change prec with 53.
        change (Zpos (digits2_pos 9007199254740992)) with 54.
        replace (Z.max (54 + e1 - 53) (-1074) - e1) with 1 by lia.
        reflexivity.
    + assert (Hdig : Zpos (digits2_pos r) <= 53).
      { apply (size_range r 0 53); lia. }
      replace (shr_fexp prec emax (Zpos r) e1 loc_Exact)
        with ({| shr_m := Zpos r; shr_r := false; shr_s := false |}, e1).
      * cbn [shr_m]. change (emax - prec) with 971.
        destruct (Z.leb_spec e1 971); [| lia].
        exists r, e1. split; [reflexivity |]. left. repeat split; lia.
      * unfold shr_fexp, shr, Zdigits2, fexp.
        change (SpecFloat.emin prec emax) with (-1074). change prec with 53.
        destruct (Z.max (Zpos (digits2_pos r) + e1 - 53) (-1074) - e1) eqn:Hd;
          [reflexivity | lia | reflexivity].
Qed.

(** ** Comparisons *)

Lemma SFcompare_antisym (x y : spec_float) :
  SFcompare y x = option_map CompOpp (SFcompare x y).
Proof.
  destruct x as [sx | sx | | sx mx ex], y as [sy | sy | | sy my ey];
    try reflexivity; try (destruct sx; reflexivity);
    try (destruct sy; reflexivity); try (destruct sx, sy; reflexivity).
  cbn [SFcompare option_map].
  rewrite (Z.compare_antisym ex ey), !compare_cont_Eq.
  rewrite (Z.compare_antisym (Zpos mx) (Zpos my)).
  destruct sx, sy; try reflexivity;
    destruct (ex ?= ey); try reflexivity;
    destruct (Zpos mx ?= Zpos my); reflexivity.
Qed.

Lemma SFcompare_not_nan (x y : spec_float) :
  x <> S754_nan -> y <> S754_nan -> SFcompare x y <> None.
Proof.
  intros Hx Hy.
  destruct x as [sx | sx | | sx mx ex], y as [sy | sy | | sy my ey];
    try congruence; cbn; try discriminate;
    try (destruct sx; discriminate); try (destruct sy; discriminate).
Qed.

(** For numbers other than NaN, [x <= y] is the negation of [y < x]. *)
Lemma leb_negb_ltb (x y : float) :
  Prim2SF x <> S754_nan -> Prim2SF y <> S754_nan ->
  (x <=? y)%float = negb (y <? x)%float.
Proof.
  intros Hx Hy. rewrite leb_spec, ltb_spec. unfold SFleb, SFltb.
  rewrite (SFcompare_antisym (Prim2SF x) (Prim2SF y)).
  pose proof (SFcompare_not_nan _ _ Hx Hy) as Hc.
  destruct (SFcompare (Prim2SF x) (Prim2SF y)) as [[| |] |];
    try reflexivity. congruence.
Qed.

Lemma ltb_negb_leb (x y : float) :
  Prim2SF x <> S754_nan -> Prim2SF y <> S754_nan ->
  (x <? y)%float = negb (y <=? x)%float.
Proof.
  intros Hx Hy. rewrite (leb_negb_ltb y x Hy Hx). now rewrite negb_involutive.
Qed.

(** ** Rounding and NaN *)

Lemma round_nan_iff (q : float) :
  Prim2SF (Math.round q) = S754_nan <-> Prim2SF q = S754_nan.
Proof.
  destruct (Prim2SF q) as [s | s | | s m e] eqn:Hq;
    try (rewrite round_not_fraction by (now rewrite Hq); now rewrite Hq).
  destruct (Z.le_gt_cases 0 e) as [Hint | Hfrac].
  - rewrite round_not_fraction by (now rewrite Hq). now rewrite Hq.
  - destruct (Prim2SF_valid_finite q s m e Hq) as [Hm _].
    pose proof (rounded_bounds s m e Hm ltac:(lia)) as [Hr _].
    rewrite (round_fraction q s m e Hq) by lia.
    destruct (Math.rounded s m e) as [| p | p].
    + split; discriminate.
    + destruct (binary_normalize_integer false p ltac:(lia)) as [m' [Hr' _]].
      rewrite Hr'. split; discriminate.
    + destruct (binary_normalize_integer true p ltac:(lia)) as [m' [Hr' _]].
      rewrite Hr'. split; discriminate.
Qed.

(** [Math.round q] is at most 100 exactly when [q] is below 100.5. *)
Lemma round_at_most_100 (q : float) :
  (Math.round q <=? 100)%float = (q <? 100.5)%float.
Proof.
  destruct (Prim2SF q) as [s | s | | s m e] eqn:Hq.
  3:{ rewrite round_not_fraction by (now rewrite Hq).
      rewrite leb_spec, ltb_spec, Hq. reflexivity. }
  all: rewrite (leb_negb_ltb (Math.round q) 100), (ltb_negb_leb q 100.5),
         round_exceeds_100;
    first [ reflexivity
          | rewrite round_nan_iff, Hq; discriminate
          | rewrite Hq; discriminate
          | rewrite Prim2SF_100; discriminate
          | rewrite Prim2SF_100_5; discriminate ].
Qed.

(** ** Quotients and products that stay below a bound *)

(** A finite number divided by itself is exactly 1. *)
Lemma SFdiv_self (s : bool) (m : positive) (e : Z) :
  SF64div (S754_finite s m e) (S754_finite s m e)
  = S754_finite false 4503599627370496 (-52).
Proof.
  unfold SF64div, SFdiv, SFdiv_core_binary, fexp. cbn [Zdigits2].
  change (SpecFloat.emin prec emax) with (-1074).
  rewrite !Z.sub_diag.
  change (Z.min (Z.max (0 - prec) (-1074)) 0) with (-53).
  change (0 - -53) with 53.
  rewrite Z.shiftl_mul_pow2 by lia.
  assert (Hq : Z.div_eucl (Zpos m * 2 ^ 53) (Zpos m) = (2 ^ 53, 0)).
  { pose proof (Z.div_mul (2 ^ 53) (Zpos m) ltac:(lia)) as Hd.
    pose proof (Z.mod_mul (2 ^ 53) (Zpos m) ltac:(lia)) as Hr.
    rewrite (Z.mul_comm (2 ^ 53)) in Hd, Hr.
    unfold Z.div, Z.modulo in Hd, Hr.
    destruct (Z.div_eucl (Zpos m * 2 ^ 53) (Zpos m)) as [q r].
    now subst. }
  rewrite Hq.
  assert (Hloc : new_location (Zpos m) 0 = loc_Exact).
  { unfold new_location, new_location_even, new_location_odd.
    now destruct (Z.even (Zpos m)). }
  rewrite Hloc. now destruct s.
Qed.

Lemma sign_set_leb_positive (x : spec_float) (m : positive) (e : Z) :
  sign_bit_set x -> SFleb x (S754_finite false m e) = true.
Proof.
  destruct x as [s | s | | s mx ex]; cbn; try contradiction;
    intros ->; reflexivity.
Qed.

(** A number that is at most 1, times 100, is at most 100. *)
Lemma SFmul_100_upper (x : spec_float) :
  valid_binary x = true ->
  SFleb x (S754_finite false 4503599627370496 (-52)) = true ->
  SFleb (SF64mul x (S754_finite false 7036874417766400 (-46)))
        (S754_finite false 7036874417766400 (-46)) = true.
Proof.
  intros Hv Hx.
  destruct x as [s | s | | s m e]; try discriminate Hx.
  - reflexivity.
  - destruct s; [reflexivity | discriminate Hx].
  - destruct s.
    { apply sign_set_leb_positive, SFmul_100_sign. reflexivity. }
    destruct (valid_finite_bounds false m e Hv) as [Hm [He Hnorm]].
    assert (H52 : 2 ^ 52 = 4503599627370496) by reflexivity.
    assert (H53 : 2 ^ 53 = 9007199254740992) by reflexivity.
    assert (Hcases : e <= -53 \/ (e = -52 /\ m = 4503599627370496%positive)).
    { unfold SFleb, SFcompare in Hx.
      destruct (Z.compare_spec e (-52)) as [Heq | Hlt | Hgt];
        [right | left; lia | discriminate Hx].
      rewrite compare_cont_Eq in Hx. specialize (Hnorm ltac:(lia)).
      destruct (Z.compare_spec (Zpos m) 4503599627370496); try discriminate Hx;
        split; lia. }
    destruct Hcases as [He53 | [-> ->]]; [| vm_compute; reflexivity].
    assert (H106 : 2 ^ 106 = 9007199254740992 * 9007199254740992) by reflexivity.
    assert (HM : 2 ^ 52 <= Zpos (m * 7036874417766400) < 2 ^ 106).
    { rewrite Pos2Z.inj_mul. nia. }
    pose proof (size_range _ 52 106 ltac:(lia) HM) as HD.
    unfold SF64mul, SFmul. cbn [xorb].
    assert (He1 : fexp prec emax (Zdigits2 (Zpos (m * 7036874417766400)) + (e + -46))
                  = Z.max (Zpos (digits2_pos (m * 7036874417766400)) + e - 99) (-1074)).
    { unfold fexp. cbn [Zdigits2].
      change (SpecFloat.emin prec emax) with (-1074). change prec with 53. lia. }
    destruct (binary_round_aux_shape false (Zpos (m * 7036874417766400)) (e + -46)
                loc_Exact ltac:(lia) ltac:(lia) ltac:(lia))
      as [Hzero | [m' [e' [Hfin Hshape]]]].
    + rewrite Hzero. reflexivity.
    + rewrite Hfin. rewrite He1 in Hshape.
      set (D := Zpos (digits2_pos (m * 7036874417766400))) in *.
      assert (Hfirst : Z.max (D + e - 99) (-1074) = -46 ->
                       Zpos (m * 7036874417766400)
                       / 2 ^ (Z.max (D + e - 99) (-1074) - (e + -46)) + 1
                       <= 7036874417766400).
      { intros H46. rewrite H46.
        assert (He' : e = -53) by lia. subst e.
        change (2 ^ (-46 - (-53 + -46))) with 9007199254740992.
        apply Z.lt_succ_r. unfold Z.succ. apply Z.add_lt_mono_r.
        apply Z.div_lt_upper_bound; [lia |]. rewrite Pos2Z.inj_mul. nia. }
      unfold SFleb, SFcompare.
      destruct Hshape as [[He' [Hm' Hm53]] | [He' [Hm' Hcarry]]].
      * destruct (Z.compare_spec e' (-46)) as [Heq | Hlt | Hgt];
          [| reflexivity | lia].
        rewrite compare_cont_Eq. specialize (Hfirst ltac:(lia)).
        destruct (Z.compare_spec (Zpos m') 7036874417766400);
          (reflexivity || lia).
      * destruct (Z.eq_dec (Z.max (D + e - 99) (-1074)) (-46)) as [H46 | H46].
        { specialize (Hfirst H46). lia. }
        destruct (Z.compare_spec e' (-46)) as [Heq | Hlt | Hgt];
          [| reflexivity | lia].
        rewrite compare_cont_Eq.
        destruct (Z.compare_spec (Zpos m') 7036874417766400);
          (reflexivity || lia).
Qed.

(** A number divided by a positive finite number that is not smaller is at
    most 1. *)
Lemma SFdiv_upper (c t : spec_float) :
  valid_binary c = true -> valid_binary t = true ->
  SFltb (S754_zero false) t = true ->
  SFltb t (S754_infinity false) = true ->
  SFleb c t = true ->
  SFleb (SF64div c t) (S754_finite false 4503599627370496 (-52)) = true.
Proof.
  intros Hvc Hvt Ht Hfin Hc.
  destruct t as [st | st | | st m2 e2]; try discriminate Ht;
    destruct st; try discriminate Ht; try discriminate Hfin.
  destruct c as [sc | sc | | sc m1 e1]; try discriminate Hc.
  - reflexivity.
  - destruct sc; [reflexivity | discriminate Hc].
  - destruct sc.
    { apply sign_set_leb_positive. now apply (SFdiv_sign _ _ m2 e2). }
    destruct (valid_finite_digits false m1 e1 Hvc) as [Hd1 [He1 Hn1]].
    destruct (valid_finite_digits false m2 e2 Hvt) as [Hd2 [He2 Hn2]].
    pose proof (size_bounds m1) as [A1 A2].
    pose proof (size_bounds m2) as [B1 B2].
    rewrite <- digits2_pos_size in A1, A2, B1, B2.
    assert (H52 : 2 ^ 52 = 4503599627370496) by reflexivity.
    assert (H53 : 2 ^ 53 = 9007199254740992) by reflexivity.
    assert (Hord : (e1 = e2 /\ m1 = m2) \/
                   (e1 <= e2 /\ Zpos m1 < Zpos m2 * 2 ^ (e2 - e1))).
    { unfold SFleb, SFcompare in Hc.
      destruct (Z.compare_spec e1 e2) as [Heq | Hlt | Hgt];
        [| right | discriminate Hc].
      - rewrite compare_cont_Eq in Hc. subst e2.
        destruct (Z.compare_spec (Zpos m1) (Zpos m2)) as [H | H | H];
          try discriminate Hc.
        + left. split; [reflexivity | now inversion H].
        + right. rewrite Z.sub_diag. cbn. lia.
      - split; [lia |].
        assert (Hd2' : Zpos (digits2_pos m2) = 53) by (apply Hn2; lia).
        rewrite Hd2' in B1. change (53 - 1) with 52 in B1.
        assert (2 ^ 1 <= 2 ^ (e2 - e1)) by (apply Z.pow_le_mono_r; lia).
        change (2 ^ 1) with 2 in *.
        assert (Zpos m1 < 2 ^ 53).
        { apply Z.lt_le_trans with (1 := A2). apply Z.pow_le_mono_r; lia. }
        nia. }
    destruct Hord as [[-> ->] | [He12 Hlt]]; [now rewrite SFdiv_self |].
    set (d1 := Zpos (digits2_pos m1)) in *.
    set (d2 := Zpos (digits2_pos m2)) in *.
    unfold SF64div, SFdiv, SFdiv_core_binary. cbn [Zdigits2 xorb].
    fold d1 d2.
    set (e' := Z.min (fexp prec emax (d1 + e1 - (d2 + e2))) (e1 - e2)).
    assert (He' : e' <= e1 - e2 /\
                  (-1074 < e' -> e' <= d1 + e1 - d2 - e2 - 53)).
    { unfold e', fexp. change (SpecFloat.emin prec emax) with (-1074).
      change prec with 53. lia. }
    set (sh := e1 - e2 - e').
    assert (Hsh : 0 <= sh) by (unfold sh; lia).
    assert (Hm' : match sh with
                  | 0 => Zpos m1
                  | Zpos _ => Z.shiftl (Zpos m1) sh
                  | Zneg _ => 0
                  end = Zpos m1 * 2 ^ sh).
    { destruct sh as [| p | p] eqn:Hp; [cbn; lia | | lia].
      now rewrite Z.shiftl_mul_pow2 by lia. }
    rewrite Hm'.
    assert (HPS : 0 < 2 ^ sh) by (apply Z.pow_pos_nonneg; lia).
    assert (Hquot : Z.div_eucl (Zpos m1 * 2 ^ sh) (Zpos m2)
                    = (Zpos m1 * 2 ^ sh / Zpos m2, (Zpos m1 * 2 ^ sh) mod Zpos m2)).
    { unfold Z.div, Z.modulo. now destruct (Z.div_eucl _ _). }
    rewrite Hquot.
    set (q := Zpos m1 * 2 ^ sh / Zpos m2).
    assert (Hq0 : 0 <= q) by (apply Z.div_pos; lia).
    assert (Hqlt : q < 2 ^ (- e')).
    { apply Z.div_lt_upper_bound; [lia |].
      replace (- e') with (e2 - e1 + sh) by (unfold sh; lia).
      rewrite Z.pow_add_r by lia. nia. }
    assert (Hqnorm : -1074 < e' -> 2 ^ 52 <= q).
    { intros Hn. destruct He' as [_ He'].
      specialize (He' Hn).
      apply Z.div_le_lower_bound; [lia |].
      assert (Hpow : 2 ^ (52 + d2) <= 2 ^ (d1 - 1 + sh))
        by (apply Z.pow_le_mono_r; unfold sh; lia).
      rewrite !Z.pow_add_r in Hpow by lia.
      assert (Zpos m2 < 2 ^ d2) by exact B2.
      assert (0 < 2 ^ (d1 - 1)) by (apply Z.pow_pos_nonneg; lia).
      rewrite H52 in *. nia. }
    assert (HDq : Zdigits2 q + e' <= 0).
    { destruct q as [| qp | qp] eqn:Eq; [cbn; lia | | lia].
      cbn [Zdigits2].
      destruct (Z.le_gt_cases (Zpos (digits2_pos qp)) (- e')) as [H | H];
        [lia |].
      pose proof (size_bounds qp) as [Q1 _]. rewrite <- digits2_pos_size in Q1.
      assert (2 ^ (- e') <= 2 ^ (Zpos (digits2_pos qp) - 1))
        by (apply Z.pow_le_mono_r; lia).
      lia. }
    assert (HDnorm : -1074 < e' -> 53 <= Zdigits2 q).
    { intros Hn. specialize (Hqnorm Hn).
      destruct q as [| qp | qp] eqn:Eq; [lia | | lia].
      cbn [Zdigits2].
      destruct (Z.le_gt_cases 53 (Zpos (digits2_pos qp))) as [H | H];
        [exact H |].
      pose proof (size_bounds qp) as [_ Q2]. rewrite <- digits2_pos_size in Q2.
      assert (2 ^ Zpos (digits2_pos qp) <= 2 ^ 52)
        by (apply Z.pow_le_mono_r; lia).
      lia. }
    assert (He1' : fexp prec emax (Zdigits2 q + e')
                   = Z.max (Zdigits2 q + e' - 53) (-1074)).
    { unfold fexp. change (SpecFloat.emin prec emax) with (-1074).
      now change prec with 53. }
    assert (Hcond : e' <= fexp prec emax (Zdigits2 q + e')).
    { rewrite He1'. destruct (Z.le_gt_cases e' (-1074)); [lia |].
      specialize (HDnorm ltac:(lia)). lia. }
    destruct (binary_round_aux_shape false q e'
                (new_location (Zpos m2) ((Zpos m1 * 2 ^ sh) mod Zpos m2))
                Hq0 Hcond ltac:(lia))
      as [Hzero | [m' [e'' [Hres Hshape]]]].
    + rewrite Hzero. reflexivity.
    + rewrite Hres. rewrite He1' in Hshape.
      unfold SFleb, SFcompare.
      destruct Hshape as [[He'' _] | [He'' [Hm'' _]]].
      * destruct (Z.compare_spec e'' (-52)); (reflexivity || lia).
      * destruct (Z.compare_spec e'' (-52)) as [Heq | Hl | Hg];
          [| reflexivity | lia].
        rewrite compare_cont_Eq, Hm'', H52. reflexivity.
Qed.

(** ** The kinds of numbers *)

Lemma SFcompare_refl (x : spec_float) :
  x <> S754_nan -> SFcompare x x = Some Eq.
Proof.
  destruct x as [s | s | | s m e]; try congruence; intros _; cbn.
  - reflexivity.
  - now destruct s.
  - rewrite Z.compare_refl, compare_cont_Eq, Z.compare_refl. now destruct s.
Qed.

Lemma is_nan_spec (x : float) :
  is_nan x = true <-> Prim2SF x = S754_nan.
Proof.
  unfold is_nan. rewrite eqb_spec. unfold SFeqb.
  destruct (Prim2SF x) as [s | s | | s m e] eqn:Hx.
  3:{ split; reflexivity. }
  all: rewrite SFcompare_refl by discriminate; split; discriminate.
Qed.

Lemma is_zero_spec (x : float) :
  is_zero x = true <-> exists s, Prim2SF x = S754_zero s.
Proof.
  unfold is_zero. change zero with 0%float. rewrite eqb_zero_cases. split.
  - intros [-> | ->]; eexists; reflexivity.
  - intros [s Hs]. apply float_of_SF in Hs. destruct s; [right | left]; exact Hs.
Qed.

Lemma is_infinity_spec (x : float) :
  is_infinity x = true <-> exists s, Prim2SF x = S754_infinity s.
Proof.
  unfold is_infinity. rewrite eqb_spec, abs_spec.
  change (Prim2SF infinity) with (S754_infinity false).
  destruct (Prim2SF x) as [s | s | | s m e]; cbn; split;
    try discriminate; try (intros [s' H]; discriminate H);
    try (intros _; now exists s); reflexivity.
Qed.

(** A finite number other than zero has a sign, a mantissa and an exponent. *)
Lemma finite_nonzero_spec (x : float) :
  is_finite x = true -> is_zero x = false ->
  exists s m e, Prim2SF x = S754_finite s m e.
Proof.
  unfold is_finite. intros Hfin Hzero.
  apply negb_true_iff, orb_false_iff in Hfin. destruct Hfin as [Hnan Hinf].
  destruct (Prim2SF x) as [s | s | | s m e] eqn:Hx.
  - assert (is_zero x = true) by (apply is_zero_spec; now exists s). congruence.
  - assert (is_infinity x = true) by (apply is_infinity_spec; now exists s).
    congruence.
  - assert (is_nan x = true) by (now apply is_nan_spec). congruence.
  - now exists s, m, e.
Qed.

(** ** Signs through the computation *)

Lemma SFdiv_sign_is (s : bool) (c t : spec_float) (mt : positive) (et : Z) :
  sign_is s c -> t = S754_finite false mt et -> sign_is s (SF64div c t).
Proof.
  intros Hc ->. unfold SF64div, SFdiv.
  destruct c as [sc | sc | | sc m e]; cbn in Hc; try contradiction; subst sc;
    try (cbn; now rewrite xorb_false_r).
  unfold SFdiv_core_binary. cbv zeta.
  match goal with
  | |- context [Z.div_eucl ?a ?b] =>
      assert (Hm' : 0 <= a);
      [| assert (Hq : Z.div_eucl a b = (a / b, a mod b))
           by (unfold Z.div, Z.modulo; now destruct (Z.div_eucl a b));
         rewrite Hq;
         pose proof (Z.div_pos a b Hm' ltac:(lia)) as Hquot ]
  end.
  { match goal with
    | |- 0 <= match ?sh with _ => _ end => destruct sh; try lia
    end.
    rewrite Z.shiftl_mul_pow2 by lia.
    apply Z.mul_nonneg_nonneg; [lia | apply Z.pow_nonneg; lia]. }
  rewrite xorb_false_r.
  match goal with
  | |- sign_is s (binary_round_aux _ _ s ?q ?e ?l) =>
      pose proof (binary_round_aux_sign s q e l Hquot) as H;
      unfold sign_is;
      destruct (binary_round_aux prec emax s q e l); exact H
  end.
Qed.

Lemma SFmul_100_sign_is (s : bool) (x : spec_float) :
  sign_is s x ->
  sign_is s (SF64mul x (S754_finite false 7036874417766400 (-46))).
Proof.
  intros Hx. unfold SF64mul, SFmul.
  destruct x as [sx | sx | | sx m e]; cbn in Hx; try contradiction; subst sx;
    try (cbn; now rewrite xorb_false_r).
  rewrite xorb_false_r.
  pose proof (binary_round_aux_sign s (Zpos (m * 7036874417766400)) (e + -46)
                loc_Exact ltac:(lia)) as H.
  unfold sign_is.
  destruct (binary_round_aux prec emax s _ _ _); exact H.
Qed.

Lemma round_sign_is (s : bool) (q : float) :
  sign_is s (Prim2SF q) -> sign_is s (Prim2SF (Math.round q)).
Proof.
  intros Hq.
  destruct (Prim2SF q) as [sq | sq | | sq m e] eqn:Eq;
    try (rewrite round_not_fraction by (now rewrite Eq); now rewrite Eq).
  cbn in Hq. subst sq.
  destruct (Z.le_gt_cases 0 e) as [Hint | Hfrac].
  - rewrite round_not_fraction by (now rewrite Eq). now rewrite Eq.
  - destruct (Prim2SF_valid_finite q s m e Eq) as [Hm _].
    pose proof (rounded_bounds s m e Hm ltac:(lia)) as [Hr [Hpos Hneg]].
    rewrite (round_fraction q s m e Eq) by lia.
    destruct (Math.rounded s m e) as [| p | p]; [reflexivity | |].
    + destruct s; [specialize (Hneg eq_refl); lia |].
      destruct (binary_normalize_integer false p ltac:(lia)) as [m' [Hr' _]].
      rewrite Hr'. reflexivity.
    + destruct s; [| specialize (Hpos eq_refl); lia].
      destruct (binary_normalize_integer true p ltac:(lia)) as [m' [Hr' _]].
      rewrite Hr'. reflexivity.
Qed.

(** Over a positive finite total the percentage has the sign of the count. *)
Lemma percentage_sign_is (s : bool) (c t : float) (mt : positive) (et : Z) :
  sign_is s (Prim2SF c) -> Prim2SF t = S754_finite false mt et ->
  sign_is s (Prim2SF (percentage c t)).
Proof.
  intros Hc Ht. unfold percentage. apply round_sign_is.
  rewrite mul_spec, div_spec, Prim2SF_100.
  apply SFmul_100_sign_is. now apply (SFdiv_sign_is s _ _ mt et).
Qed.

Lemma positive_finite_spec (t : float) :
  (0 <? t)%float = true -> (t <? infinity)%float = true ->
  exists mt et, Prim2SF t = S754_finite false mt et.
Proof.
  rewrite !ltb_spec, Prim2SF_zero.
  change (Prim2SF infinity) with (S754_infinity false).
  intros Ht Hfin.
  destruct (Prim2SF t) as [s | s | | s m e]; try discriminate Ht;
    destruct s; try discriminate Ht; try discriminate Hfin.
  now exists m, e.
Qed.

(** ** The percentage of in-range counts *)

Lemma percentage_at_most_100 (c t : float) :
  (0 <? t)%float = true -> (t <? infinity)%float = true ->
  (c <=? t)%float = true ->
  (percentage c t <=? 100)%float = true.
Proof.
  intros Ht Hfin Hc.
  unfold percentage. rewrite round_at_most_100.
  assert (Hy : (c / t * 100 <=? 100)%float = true).
  { rewrite leb_spec, mul_spec, Prim2SF_100.
    apply SFmul_100_upper; [apply Prim2SF_valid |].
    rewrite div_spec.
    rewrite !ltb_spec, Prim2SF_zero in *. rewrite leb_spec in Hc.
    apply SFdiv_upper; auto using Prim2SF_valid. }
  revert Hy. rewrite leb_spec, ltb_spec, Prim2SF_100, Prim2SF_100_5.
  destruct (Prim2SF (c / t * 100)) as [s | s | | s m e];
    [ intros H; exact H | destruct s; intros H; exact H | intros H; exact H |].
  destruct s; [intros H; exact H |].
  unfold SFleb, SFltb, SFcompare.
  destruct (Z.compare_spec e (-46)) as [He | He | He];
    try (intros H; exact H).
  rewrite !compare_cont_Eq.
  destruct (Z.compare_spec (Zpos m) 7036874417766400) as [Ha | Ha | Ha];
    destruct (Z.compare_spec (Zpos m) 7072058789855232) as [Hb | Hb | Hb];
    intros H; try reflexivity; try discriminate H; lia.
Qed.

(** A zero count, or a finite count over an infinite total, gives a zero. *)
Lemma percentage_zero (c t : float) :
  (is_zero c = true /\ is_zero t = false /\ is_nan t = false) \/
  (is_finite c = true /\ is_infinity t = true) ->
  is_zero (percentage c t) = true.
Proof.
  intros H.
  assert (Hq : exists s, Prim2SF (c / t) = S754_zero s).
  { rewrite div_spec. unfold SF64div, SFdiv.
    destruct H as [[Hc [Ht Hn]] | [Hc Ht]].
    - apply is_zero_spec in Hc. destruct Hc as [sc ->].
      destruct (Prim2SF t) as [st | st | | st m e] eqn:Et.
      + assert (is_zero t = true) by (apply is_zero_spec; now exists st).
        congruence.
      + now eexists.
      + assert (is_nan t = true) by (now apply is_nan_spec). congruence.
      + now eexists.
    - apply is_infinity_spec in Ht. destruct Ht as [st ->].
      unfold is_finite in Hc.
      apply negb_true_iff, orb_false_iff in Hc. destruct Hc as [Hnan Hinf].
      destruct (Prim2SF c) as [sc | sc | | sc m e] eqn:Ec.
      + now eexists.
      + assert (is_infinity c = true) by (apply is_infinity_spec; now exists sc).
        congruence.
      + assert (is_nan c = true) by (now apply is_nan_spec). congruence.
      + now eexists. }
  destruct Hq as [s Hq].
  apply is_zero_spec. unfold percentage.
  assert (Hy : Prim2SF (c / t * 100) = S754_zero (xorb s false)).
  { rewrite mul_spec, Hq, Prim2SF_100. reflexivity. }
  rewrite round_not_fraction by (now rewrite Hy). eexists. exact Hy.
Qed.

Lemma percentage_at_least_0 (c t : float) :
  (0 <? t)%float = true -> (t <? infinity)%float = true ->
  (0 <=? c)%float = true ->
  (0 <=? percentage c t)%float = true.
Proof.
  intros Ht Hfin Hc.
  destruct (positive_finite_spec t Ht Hfin) as [mt [et Et]].
  rewrite leb_spec, Prim2SF_zero in *.
  destruct (Prim2SF c) as [sc | sc | | sc m e] eqn:Ec; try discriminate Hc.
  - assert (Hz : is_zero (percentage c t) = true).
    { apply percentage_zero. left. repeat split.
      - apply is_zero_spec. now exists sc.
      - apply not_true_is_false. intros Hz. apply is_zero_spec in Hz.
        destruct Hz as [s Hs]. congruence.
      - apply not_true_is_false. intros Hn. apply is_nan_spec in Hn. congruence. }
    apply is_zero_spec in Hz. destruct Hz as [s ->]. reflexivity.
  - destruct sc; [discriminate Hc |].
    pose proof (percentage_sign_is false c t mt et ltac:(now rewrite Ec) Et) as Hs.
    destruct (Prim2SF (percentage c t)) as [s | s | | s m e];
      cbn in Hs; try contradiction; subst s; reflexivity.
  - destruct sc; [discriminate Hc |].
    pose proof (percentage_sign_is false c t mt et ltac:(now rewrite Ec) Et) as Hs.
    destruct (Prim2SF (percentage c t)) as [s | s | | s m' e'];
      cbn in Hs; try contradiction; subst s; reflexivity.
Qed.

(** All of a finite, non-zero number of tasks is exactly 100 percent. *)
Lemma percentage_all (t : float) :
  is_finite t = true -> is_zero t = false -> percentage t t = 100%float.
Proof.
  intros Hfin Hzero.
  destruct (finite_nonzero_spec t Hfin Hzero) as [s [m [e Et]]].
  unfold percentage.
  assert (Hy : (t / t * 100)%float = 100%float).
  { apply Prim2SF_inj.
    rewrite mul_spec, div_spec, Et, SFdiv_self. reflexivity. }
  rewrite Hy. reflexivity.
Qed.

(** ** When the percentage is NaN *)

Lemma SFdiv_finite_not_nan (s1 s2 : bool) (m1 m2 : positive) (e1 e2 : Z) :
  sign_is (xorb s1 s2)
          (SF64div (S754_finite s1 m1 e1) (S754_finite s2 m2 e2)).
Proof.
  unfold SF64div, SFdiv, SFdiv_core_binary. cbv zeta.
  match goal with
  | |- context [Z.div_eucl ?a ?b] =>
      assert (Hm' : 0 <= a);
      [| assert (Hq : Z.div_eucl a b = (a / b, a mod b))
           by (unfold Z.div, Z.modulo; now destruct (Z.div_eucl a b));
         rewrite Hq;
         pose proof (Z.div_pos a b Hm' ltac:(lia)) as Hquot ]
  end.
  { match goal with
    | |- 0 <= match ?sh with _ => _ end => destruct sh; try lia
    end.
    rewrite Z.shiftl_mul_pow2 by lia.
    apply Z.mul_nonneg_nonneg; [lia | apply Z.pow_nonneg; lia]. }
  match goal with
  | |- sign_is ?s (binary_round_aux _ _ ?s ?q ?e ?l) =>
      pose proof (binary_round_aux_sign s q e l Hquot) as H;
      unfold sign_is;
      destruct (binary_round_aux prec emax s q e l); exact H
  end.
Qed.

Lemma SFmul_100_nan_iff (x : spec_float) :
  SF64mul x (S754_finite false 7036874417766400 (-46)) = S754_nan
  <-> x = S754_nan.
Proof.
  destruct x as [s | s | | s m e].
  - split; intros H; discriminate H.
  - split; intros H; discriminate H.
  - split; reflexivity.
  - pose proof (SFmul_100_sign_is s (S754_finite s m e) eq_refl) as H.
    split; [| intros Hn; discriminate Hn].
    intros Hn. rewrite Hn in H. contradiction.
Qed.

Lemma SFdiv_nan_iff (c t : spec_float) :
  SF64div c t = S754_nan <->
  c = S754_nan \/ t = S754_nan \/
  ((exists s, c = S754_zero s) /\ (exists s, t = S754_zero s)) \/
  ((exists s, c = S754_infinity s) /\ (exists s, t = S754_infinity s)).
Proof.
  assert (Hno : forall P : Prop,
             (SF64div c t <> S754_nan) ->
             (c <> S754_nan) -> (t <> S754_nan) ->
             ((exists s, c = S754_zero s) -> (exists s, t = S754_zero s) -> False) ->
             ((exists s, c = S754_infinity s) -> (exists s, t = S754_infinity s)
              -> False) ->
             (SF64div c t = S754_nan <->
              c = S754_nan \/ t = S754_nan \/
              ((exists s, c = S754_zero s) /\ (exists s, t = S754_zero s)) \/
              ((exists s, c = S754_infinity s) /\
               (exists s, t = S754_infinity s)))).
  { intros _ Hd Hc Ht Hz Hi. split; [intros H; contradiction |].
    intros [H | [H | [[H H'] | [H H']]]]; try contradiction.
    - exfalso. now apply Hz.
    - exfalso. now apply Hi. }
  destruct c as [sc | sc | | sc mc ec], t as [st | st | | st mt et];
    try (split; [intros _ | reflexivity]; auto; fail);
    try (apply (Hno True); try discriminate;
         intros [s H] [s' H']; discriminate; fail).
  - split; [intros _ | reflexivity].
    right. right. left. split; eexists; reflexivity.
  - split; [intros _ | reflexivity].
    right. right. right. split; eexists; reflexivity.
  - apply (Hno True); try discriminate.
    + pose proof (SFdiv_finite_not_nan sc st mc mt ec et) as Hs.
      intros Hn. rewrite Hn in Hs. contradiction.
    + intros [s H]. discriminate H.
    + intros [s H]. discriminate H.
Qed.

(** The percentage is NaN exactly when a count is NaN, both counts are zero
    or both are infinite. *)
Lemma percentage_nan_iff (c t : float) :
  is_nan (percentage c t) = true <->
  is_nan c = true \/ is_nan t = true \/
  (is_zero c = true /\ is_zero t = true) \/
  (is_infinity c = true /\ is_infinity t = true).
Proof.
  rewrite !is_nan_spec, !is_zero_spec, !is_infinity_spec.
  unfold percentage.
  rewrite round_nan_iff, mul_spec, Prim2SF_100, SFmul_100_nan_iff, div_spec.
  apply SFdiv_nan_iff.
Qed.

(** ** Negating both counts *)

Lemma SFdiv_opp_opp (c t : spec_float) :
  SF64div (SFopp c) (SFopp t) = SF64div c t.
Proof.
  destruct c as [sc | sc | | sc mc ec], t as [st | st | | st mt et];
    try reflexivity; cbn; now destruct sc, st.
Qed.

Lemma percentage_opp_opp (c t : float) :
  percentage (- c) (- t) = percentage c t.
Proof.
  unfold percentage. f_equal. f_equal.
  apply Prim2SF_inj. now rewrite !div_spec, !opp_spec, SFdiv_opp_opp.
Qed.

(** ** The percentage is integral *)

Lemma round_of_integer (s : bool) (p : positive) :
  Zpos p < 2 ^ 53 ->
  Math.round (SF2Prim (binary_round prec emax s p 0))
  = SF2Prim (binary_round prec emax s p 0).
Proof.
  intros Hp.
  pose proof (valid_binary_round_integer s p Hp) as Hv.
  destruct (binary_normalize_integer s p Hp) as [m [Hr [Hm Hd]]].
  pose proof (size_bounds p) as [Slo Shi].
  assert (Hx : Prim2SF (SF2Prim (binary_round prec emax s p 0))
               = S754_finite s m (Zpos (Pos.size p) - 53)).
  { rewrite Prim2SF_SF2Prim by exact Hv. exact Hr. }
  destruct (Z.le_gt_cases 0 (Zpos (Pos.size p) - 53)) as [Hint | Hfrac].
  - apply round_not_fraction. now rewrite Hx.
  - unfold Math.round. rewrite Hx.
    destruct (Z.leb_spec 0 (Zpos (Pos.size p) - 53)); [lia |].
    assert (Hrounded : Math.rounded s m (Zpos (Pos.size p) - 53)
                       = if s then Zneg p else Zpos p).
    { unfold Math.rounded.
      replace (1 - (Zpos (Pos.size p) - 53))
        with (Z.succ (53 - Zpos (Pos.size p))) by lia.
      replace (- (Zpos (Pos.size p) - 53)) with (53 - Zpos (Pos.size p)) by lia.
      rewrite Z.pow_succ_r by lia.
      assert (HK : 0 < 2 ^ (53 - Zpos (Pos.size p)))
        by (apply Z.pow_pos_nonneg; lia).
      set (K := 2 ^ (53 - Zpos (Pos.size p))) in *.
      replace (2 * (if s then Zneg m else Zpos m) + K)
        with ((2 * (if s then Zneg p else Zpos p) + 1) * K)
        by (destruct s; lia).
      rewrite Z.div_mul_cancel_r by lia.
      destruct s; symmetry; apply Z.div_unique with (r := 1); lia. }
    rewrite Hrounded.
    destruct s; reflexivity.
Qed.

(** What [Math.round] returns: its argument, a zero, or the number of a
    non-zero integer below [2^53] in absolute value. *)
Lemma round_cases (x : float) :
  (Math.round x = x /\
   match Prim2SF x with S754_finite _ _ e => 0 <= e | _ => True end) \/
  (exists s, Prim2SF (Math.round x) = S754_zero s) \/
  (exists s p, Zpos p < 2 ^ 53 /\
               Math.round x = SF2Prim (binary_round prec emax s p 0) /\
               Prim2SF (Math.round x) = binary_round prec emax s p 0).
Proof.
  destruct (Prim2SF x) as [s | s | | s m e] eqn:Hx;
    try (left; split; [apply round_not_fraction; now rewrite Hx | exact I]).
  destruct (Z.le_gt_cases 0 e) as [Hint | Hfrac].
  - left. split; [apply round_not_fraction; now rewrite Hx | exact Hint].
  - right.
    destruct (Prim2SF_valid_finite x s m e Hx) as [Hm _].
    pose proof (rounded_bounds s m e Hm ltac:(lia)) as [Hr _].
    pose proof (round_fraction x s m e Hx ltac:(lia)) as Hround.
    assert (Hdef : Math.round x
                   = match Math.rounded s m e with
                     | 0 => if s then neg_zero else zero
                     | r => Math.of_integer r
                     end).
    { unfold Math.round. rewrite Hx.
      destruct (Z.leb_spec 0 e); [lia | reflexivity]. }
    destruct (Math.rounded s m e) as [| p | p].
    + left. now exists s.
    + right. exists false, p. repeat split; [lia | exact Hdef | exact Hround].
    + right. exists true, p. repeat split; [lia | exact Hdef | exact Hround].
Qed.

Lemma round_idempotent (x : float) :
  Math.round (Math.round x) = Math.round x.
Proof.
  destruct (round_cases x) as [[Hsame _] | [[s Hzero] | [s [p [Hp [Hr _]]]]]].
  - now rewrite !Hsame.
  - apply round_not_fraction. now rewrite Hzero.
  - rewrite Hr. now apply round_of_integer.
Qed.

(** ** The printed percentage of in-range counts *)

Lemma toString_small_integer (p : positive) :
  Zpos p <= 100 ->
  Number.toString (SF2Prim (binary_round prec emax false p 0))
  = Number.decimal (Zpos p).
Proof.
  intros Hp.
  assert (Hall : forallb
                   (fun n =>
                      match Z.of_nat n with
                      | Zpos q =>
                          String.eqb
                            (Number.toString
                               (SF2Prim (binary_round prec emax false q 0)))
                            (Number.decimal (Zpos q))
                      | _ => true
                      end)
                   (seq 0 101) = true) by (vm_compute; reflexivity).
  rewrite forallb_forall in Hall.
  specialize (Hall (Pos.to_nat p)).
  rewrite positive_nat_Z in Hall.
  apply String.eqb_eq, Hall, in_seq. lia.
Qed.

Lemma leb_100_small_integer (s : bool) (p : positive) :
  Zpos p < 2 ^ 53 ->
  SFleb (binary_round prec emax s p 0)
        (S754_finite false 7036874417766400 (-46))
  = s || (Zpos p <=? 100).
Proof.
  intros Hp.
  pose proof (ltb_100_integer s p Hp) as Hlt.
  destruct (binary_normalize_integer s p Hp) as [m [Hr _]].
  rewrite Hr in *. unfold SFleb. unfold SFltb in Hlt.
  rewrite (SFcompare_antisym (S754_finite false 7036874417766400 (-46))).
  destruct (SFcompare (S754_finite false 7036874417766400 (-46))
                      (S754_finite s m (Zpos (Pos.size p) - 53)))
    as [[| |] |] eqn:Hc; cbn [option_map CompOpp];
    destruct s; cbn [negb andb orb] in *;
    destruct (Z.ltb_spec 100 (Zpos p)); destruct (Z.leb_spec (Zpos p) 100);
    try reflexivity; try discriminate Hlt; try lia;
    cbn in Hc; discriminate Hc.
Qed.

(** For in-range counts the percentage prints as a whole number from 0 to
    100. *)
Lemma percentage_in_range_prints (c t : float) :
  (0 <? t)%float = true -> (t <? infinity)%float = true ->
  (0 <=? c)%float = true -> (c <=? t)%float = true ->
  exists n : Z,
    0 <= n <= 100 /\
    Number.toString (percentage c t) = Number.decimal n.
Proof.
  intros Ht Hfin Hc0 Hct.
  pose proof (percentage_at_least_0 c t Ht Hfin Hc0) as Hlo.
  pose proof (percentage_at_most_100 c t Ht Hfin Hct) as Hhi.
  unfold percentage in *.
  set (y := (c / t * 100)%float) in *.
  rewrite leb_spec, Prim2SF_zero in Hlo. rewrite leb_spec, Prim2SF_100 in Hhi.
  destruct (round_cases y) as [[Hsame Hy] | [[s Hzero] | [s [p [Hp [Hr Hsf]]]]]].
  - rewrite Hsame in *.
    destruct (Prim2SF y) as [s | s | | s m e] eqn:Ey.
    + exists 0. split; [lia |]. unfold Number.toString. now rewrite Ey.
    + destruct s; [discriminate Hlo | discriminate Hhi].
    + discriminate Hlo.
    + destruct s; [discriminate Hlo |].
      unfold SFleb, SFcompare in Hhi.
      destruct (Z.compare_spec e (-46)); (discriminate Hhi || lia).
  - exists 0. split; [lia |]. unfold Number.toString. now rewrite Hzero.
  - rewrite Hsf in Hlo, Hhi.
    rewrite leb_100_small_integer in Hhi by exact Hp.
    destruct (binary_normalize_integer s p Hp) as [m [Hm _]].
    rewrite Hm in Hlo.
    destruct s; [discriminate Hlo |]. cbn [orb] in Hhi.
    apply Z.leb_le in Hhi.
    exists (Zpos p). split; [lia |].
    rewrite Hr. now apply toString_small_integer.
Qed.

(** ** ProgressTracker on particular inputs *)

(** X1: when [completedTasks] equals [totalTasks], a finite number other
    than zero, the percentage is exactly 100 and the bar is drawn at
    [100%]. *)
Theorem all_tasks_completed_renders_100 (props : ProgressTrackerProps) :
  is_finite (totalTasks props) = true ->
  is_zero (totalTasks props) = false ->
  completedTasks props = totalTasks props ->
  exists tree : Node,
    (forall (St : Type) (st : St),
        ProgressTracker props st = (Returned tree, st)) /\
    percentage (completedTasks props) (totalTasks props) = 100%float /\
    styles "width" tree = ["100%"] /\
    map textContent (by_tag "p" tree)
    = [ Number.toString (totalTasks props) ++ " of "
        ++ Number.toString (totalTasks props) ++ " tasks completed (100%)" ].
Proof.
  intros Hfin Hzero Heq.
  pose proof (percentage_all (totalTasks props) Hfin Hzero) as Hpct.
  eexists. split; [intros St st; reflexivity |].
  cbn [styles filter map flat_map fst snd String.eqb Ascii.eqb Bool.eqb app
       by_tag textContent String.concat].
  rewrite Heq, Hpct. repeat split.
Qed.

Lemma all_tasks_completed_renders_100_witness :
  percentage 5 5 = 100%float.
Proof.
  destruct (all_tasks_completed_renders_100
              {| section := 1; completedTasks := 5; totalTasks := 5 |}
              eq_refl eq_refl eq_refl) as [tree [_ [Hpct _]]].
  exact Hpct.
Defined.

(** X2: when [completedTasks] is zero and [totalTasks] is neither zero nor
    NaN (it may be negative or infinite), the percentage is zero and the
    bar is drawn at [0%]. *)
Theorem no_task_completed_renders_0 (props : ProgressTrackerProps) :
  is_zero (completedTasks props) = true ->
  is_zero (totalTasks props) = false ->
  is_nan (totalTasks props) = false ->
  exists tree : Node,
    (forall (St : Type) (st : St),
        ProgressTracker props st = (Returned tree, st)) /\
    is_zero (percentage (completedTasks props) (totalTasks props)) = true /\
    styles "width" tree = ["0%"].
Proof.
  intros Hc Ht Hn.
  assert (Hz : is_zero (percentage (completedTasks props) (totalTasks props))
               = true) by (apply percentage_zero; auto).
  eexists. split; [intros St st; reflexivity |]. split; [exact Hz |].
  cbn [styles filter map flat_map fst snd String.eqb Ascii.eqb Bool.eqb app].
  unfold is_zero in Hz. change zero with 0%float in Hz.
  now rewrite (toString_zero _ Hz).
Qed.

Lemma no_task_completed_renders_0_witness :
  is_zero (percentage 0 (-7)) = true.
Proof.
  destruct (no_task_completed_renders_0
              {| section := 1; completedTasks := 0; totalTasks := -7 |}
              eq_refl eq_refl eq_refl) as [tree [_ [Hz _]]].
  exact Hz.
Defined.

(** X3: when [totalTasks] is infinite and [completedTasks] is finite, the
    percentage is zero and the bar is drawn at [0%]. *)
Theorem infinite_total_renders_0 (props : ProgressTrackerProps) :
  is_infinity (totalTasks props) = true ->
  is_finite (completedTasks props) = true ->
  exists tree : Node,
    (forall (St : Type) (st : St),
        ProgressTracker props st = (Returned tree, st)) /\
    is_zero (percentage (completedTasks props) (totalTasks props)) = true /\
    styles "width" tree = ["0%"].
Proof.
  intros Ht Hc.
  assert (Hz : is_zero (percentage (completedTasks props) (totalTasks props))
               = true) by (apply percentage_zero; auto).
  eexists. split; [intros St st; reflexivity |]. split; [exact Hz |].
  cbn [styles filter map flat_map fst snd String.eqb Ascii.eqb Bool.eqb app].
  unfold is_zero in Hz. change zero with 0%float in Hz.
  now rewrite (toString_zero _ Hz).
Qed.

Lemma infinite_total_renders_0_witness :
  is_zero (percentage 3 infinity) = true.
Proof.
  destruct (infinite_total_renders_0
              {| section := 1; completedTasks := 3; totalTasks := infinity |}
              eq_refl eq_refl) as [tree [_ [Hz _]]].
  exact Hz.
Defined.

(** X4: the percentage is NaN, and the bar width is then [NaN%], exactly
    when one of the counts is NaN, both counts are zero, or both are
    infinite. *)
Theorem nan_percentage_iff (props : ProgressTrackerProps) :
  (is_nan (percentage (completedTasks props) (totalTasks props)) = true <->
   is_nan (completedTasks props) = true \/
   is_nan (totalTasks props) = true \/
   (is_zero (completedTasks props) = true /\ is_zero (totalTasks props) = true) \/
   (is_infinity (completedTasks props) = true /\
    is_infinity (totalTasks props) = true)) /\
  exists tree : Node,
    (forall (St : Type) (st : St),
        ProgressTracker props st = (Returned tree, st)) /\
    (is_nan (percentage (completedTasks props) (totalTasks props)) = true ->
     styles "width" tree = ["NaN%"]).
Proof.
  split; [apply percentage_nan_iff |].
  eexists. split; [intros St st; reflexivity |].
  intros Hn. apply is_nan_spec, float_of_SF in Hn.
  cbn [styles filter map flat_map fst snd String.eqb Ascii.eqb Bool.eqb app].
  now rewrite Hn.
Qed.

Example nan_percentages :
  map (fun ct => is_nan (percentage (fst ct) (snd ct)))
      [ (nan, 5); (5, nan); (0, neg_zero); (infinity, neg_infinity);
        (infinity, 5); (5, 0); (0, 5); (5, infinity) ]%float
  = [true; true; true; true; false; false; false; false].
Proof. vm_compute. reflexivity. Qed.

(** X5: for [0 <= completedTasks <= totalTasks] with a positive finite
    [totalTasks], the percentage lies between 0 and 100. *)
Theorem in_range_counts_give_in_range_percentage (props : ProgressTrackerProps) :
  (0 <? totalTasks props)%float = true ->
  (totalTasks props <? infinity)%float = true ->
  (0 <=? completedTasks props)%float = true ->
  (completedTasks props <=? totalTasks props)%float = true ->
  (0 <=? percentage (completedTasks props) (totalTasks props))%float = true /\
  (percentage (completedTasks props) (totalTasks props) <=? 100)%float = true.
Proof.
  intros Ht Hfin Hc0 Hct. split.
  - now apply percentage_at_least_0.
  - now apply percentage_at_most_100.
Qed.

Lemma in_range_counts_give_in_range_percentage_witness :
  (0 <=? percentage 2 7)%float = true /\ (percentage 2 7 <=? 100)%float = true.
Proof.
  exact (in_range_counts_give_in_range_percentage
           {| section := 1; completedTasks := 2; totalTasks := 7 |}
           eq_refl eq_refl eq_refl eq_refl).
Defined.

(** X6: for [0 <= completedTasks <= totalTasks] with a positive finite
    [totalTasks], the bar width and the percentage shown in the text are a
    whole number from 0 to 100 in plain decimal digits, followed by a
    percent sign. *)
Theorem in_range_counts_print_whole_percent (props : ProgressTrackerProps) :
  (0 <? totalTasks props)%float = true ->
  (totalTasks props <? infinity)%float = true ->
  (0 <=? completedTasks props)%float = true ->
  (completedTasks props <=? totalTasks props)%float = true ->
  exists (n : Z) (tree : Node),
    0 <= n <= 100 /\
    (forall (St : Type) (st : St),
        ProgressTracker props st = (Returned tree, st)) /\
    styles "width" tree = [Number.decimal n ++ "%"] /\
    map textContent (by_tag "p" tree)
    = [ Number.toString (completedTasks props) ++ " of "
        ++ Number.toString (totalTasks props) ++ " tasks completed ("
        ++ Number.decimal n ++ "%)" ].
Proof.
  intros Ht Hfin Hc0 Hct.
  destruct (percentage_in_range_prints _ _ Ht Hfin Hc0 Hct) as [n [Hn Hs]].
  exists n. eexists. split; [exact Hn |].
  split; [intros St st; reflexivity |].
  cbn [styles filter map flat_map fst snd String.eqb Ascii.eqb Bool.eqb app
       by_tag textContent String.concat].
  rewrite Hs. split; reflexivity.
Qed.

Lemma in_range_counts_print_whole_percent_witness :
  exists (n : Z) (tree : Node),
    0 <= n <= 100 /\
    (forall (St : Type) (st : St),
        ProgressTracker {| section := 1; completedTasks := 2; totalTasks := 7 |} st
        = (Returned tree, st)) /\
    styles "width" tree = [Number.decimal n ++ "%"] /\
    map textContent (by_tag "p" tree)
    = [ Number.toString 2 ++ " of " ++ Number.toString 7
        ++ " tasks completed (" ++ Number.decimal n ++ "%)" ].
Proof.
  exact (in_range_counts_print_whole_percent
           {| section := 1; completedTasks := 2; totalTasks := 7 |}
           eq_refl eq_refl eq_refl eq_refl).
Defined.

(** X7: the percentage is always integral, infinite or NaN: rounding it
    again gives the same number. *)
Theorem percentage_is_integral (completedTasks totalTasks : number) :
  Math.round (percentage completedTasks totalTasks)
  = percentage completedTasks totalTasks.
Proof. unfold percentage. apply round_idempotent. Qed.

(** X8: negating both counts changes neither the percentage nor the bar. *)
Theorem negating_both_counts (section c t : number) :
  percentage (- c) (- t) = percentage c t /\
  exists tree tree' : Node,
    (forall (St : Type) (st : St),
        ProgressTracker
          {| section := section; completedTasks := c; totalTasks := t |} st
        = (Returned tree, st)) /\
    (forall (St : Type) (st : St),
        ProgressTracker
          {| section := section; completedTasks := (- c)%float;
             totalTasks := (- t)%float |} st
        = (Returned tree', st)) /\
    styles "width" tree' = styles "width" tree.
Proof.
  split; [apply percentage_opp_opp |].
  do 2 eexists. split; [intros St st; reflexivity |].
  split; [intros St st; reflexivity |].
  cbn [styles filter map flat_map fst snd String.eqb Ascii.eqb Bool.eqb app
       completedTasks totalTasks].
  now rewrite percentage_opp_opp.
Qed.

(** X9: with [totalTasks == 0] and a negative [completedTasks], the
    percentage is -Infinity over the zero of positive sign and Infinity
    over the zero of negative sign. *)
Theorem negative_count_over_zero_total (props : ProgressTrackerProps) :
  (completedTasks props <? 0)%float = true ->
  (totalTasks props = zero ->
   percentage (completedTasks props) (totalTasks props) = neg_infinity) /\
  (totalTasks props = neg_zero ->
   percentage (completedTasks props) (totalTasks props) = infinity).
Proof.
  rewrite ltb_spec, Prim2SF_zero. intros Hc.
  split; intros Ht; rewrite Ht.
  - rewrite (percentage_zero_total (completedTasks props) zero false eq_refl).
    destruct (Prim2SF (completedTasks props)) as [s | s | | s m e];
      try discriminate Hc; destruct s; try discriminate Hc; reflexivity.
  - rewrite (percentage_zero_total (completedTasks props) neg_zero true eq_refl).
    destruct (Prim2SF (completedTasks props)) as [s | s | | s m e];
      try discriminate Hc; destruct s; try discriminate Hc; reflexivity.
Qed.

Lemma negative_count_over_zero_total_witness :
  (percentage (-3) 0 = neg_infinity /\ percentage (-3) neg_zero = infinity)%float.
Proof.
  destruct (negative_count_over_zero_total
              {| section := 1; completedTasks := -3; totalTasks := 0 |} eq_refl)
    as [Hpos _].
  destruct (negative_count_over_zero_total
              {| section := 1; completedTasks := -3; totalTasks := neg_zero |}
              eq_refl)
    as [_ Hneg].
  split; [exact (Hpos eq_refl) | exact (Hneg eq_refl)].
Defined.

(** ** The widget instances of the pages *)

(** X10: each exercise page starts with its only ProgressTracker, written
    with the number props [section], [completedTasks] and [totalTasks],
    where [0 <= completedTasks <= totalTasks] and [totalTasks] is positive
    and finite; the three bars are drawn at 0%, 20% and 40%. *)
Theorem page_trackers_are_in_range :
  Forall
    (fun page =>
       exists e props,
         hd_error page = Some e /\
         instances "ProgressTracker" page = [e] /\
         prop_names e = ["section"; "completedTasks"; "totalTasks"] /\
         tracker_props e = Some props /\
         (0 <? totalTasks props)%float = true /\
         (totalTasks props <? infinity)%float = true /\
         (0 <=? completedTasks props)%float = true /\
         (completedTasks props <=? totalTasks props)%float = true)
    exercise_pages /\
  (forall (St : Type) (st : St),
      map (fun e =>
             match option_map (fun props => ProgressTracker props st)
                              (tracker_props e) with
             | Some (Returned tree, _) => styles "width" tree
             | _ => []
             end)
          (flat_map (instances "ProgressTracker") exercise_pages)
      = [["0%"]; ["20%"]; ["40%"]]).
Proof.
  split.
  - repeat (apply Forall_cons || apply Forall_nil);
      do 2 eexists; repeat split; reflexivity.
  - intros St st. vm_compute. reflexivity.
Qed.

(** X11: every Quiz instance of the exercise pages (there are eight) is
    written with exactly the props [question], [options] and
    [correctAnswer]; its options are four different strings and its
    [correctAnswer] is one of them. *)
Theorem page_quizzes_are_well_formed :
  List.length (flat_map (instances "Quiz") exercise_pages) = 8%nat /\
  Forall
    (fun e =>
       prop_names e = ["question"; "options"; "correctAnswer"] /\
       exists question options correctAnswer,
         prop "question" (props e) = Some (PString question) /\
         prop "options" (props e) = Some (PArray options) /\
         prop "correctAnswer" (props e) = Some (PString correctAnswer) /\
         List.length options = 4%nat /\
         NoDup options /\
         In correctAnswer options)
    (flat_map (instances "Quiz") exercise_pages).
Proof.
  split; [reflexivity |].
  cbv [exercise_pages flat_map app instances introduction_to_react
       jsx_syntax_exercises react_components_exercises filter component
       String.eqb Ascii.eqb Bool.eqb].
  repeat (apply Forall_cons || apply Forall_nil);
    (split; [reflexivity |]);
    do 3 eexists;
    (split; [reflexivity |]); (split; [reflexivity |]);
    (split; [reflexivity |]); (split; [reflexivity |]);
    (split;
     [ repeat (apply NoDup_cons || apply NoDup_nil);
       cbn [In]; intros H;
       repeat (destruct H as [H | H]; [discriminate H |]); exact H
     | cbn [In]; repeat (first [left; reflexivity | right]) ]).
Qed.

(** X12: in every CodingChallenge instance of the exercise pages, the
    starter code contains the placeholder comment [// Your code here] and
    the solution does not, and both end with the same [// Render the ...]
    comment and [render] call. *)
Theorem page_challenges_share_render_statement :
  Forall
    (fun e =>
       exists initialCode solution statement,
         prop "initialCode" (props e) = Some (PString initialCode) /\
         prop "solution" (props e) = Some (PString solution) /\
         occurs "// Your code here" initialCode = true /\
         occurs "// Your code here" solution = false /\
         render_statement initialCode = Some statement /\
         render_statement solution = Some statement /\
         occurs "render(<" statement = true)
    (flat_map (instances "CodingChallenge") exercise_pages).
Proof.
  cbv [exercise_pages flat_map app instances introduction_to_react
       jsx_syntax_exercises react_components_exercises filter component
       String.eqb Ascii.eqb Bool.eqb].
  repeat (apply Forall_cons || apply Forall_nil);
    do 3 eexists;
    (split; [reflexivity |]); (split; [reflexivity |]);
    (split; [vm_compute; reflexivity |]);
    (split; [vm_compute; reflexivity |]);
    (split; [vm_compute; reflexivity |]);
    (split; vm_compute; reflexivity).
Qed.

(** * The order of the numbers under the arithmetic of the percentage *)

(** ** Rounding to the nearest even mantissa *)

Lemma location_of_shr_record_of_loc (m : Z) (l : location) :
  loc_of_shr_record (shr_record_of_loc m l) = l.
Proof. destruct l as [| []]; reflexivity. Qed.

Lemma div_mod_double (a b : Z) :
  0 < b ->
  a / (2 * b) = a / b / 2 /\ a mod (2 * b) = a mod b + b * ((a / b) mod 2).
Proof.
  intros Hb. split.
  - rewrite (Z.mul_comm 2 b). symmetry. apply Z.div_div; lia.
  - rewrite (Z.mul_comm 2 b). apply Z.rem_mul_r; lia.
Qed.

Lemma shr_1_located (a b : Z) (mrs : shr_record) :
  0 <= a -> 0 < b ->
  located a b (shr_m mrs) (loc_of_shr_record mrs) ->
  located a (2 * b) (shr_m (shr_1 mrs)) (loc_of_shr_record (shr_1 mrs)).
Proof.
  intros Ha Hb [Hm Hl].
  destruct (div_mod_double a b Hb) as [Hq Hr].
  pose proof (Z.mod_pos_bound a b Hb) as Hrem.
  assert (Hm0 : 0 <= a / b) by (apply Z.div_pos; lia).
  unfold located, location_of in *. rewrite Hq, Hr.
  destruct mrs as [m r s]. cbn [shr_m] in *. subst m.
  assert (Hrs : (r || s = false /\ a mod b = 0) \/
                (r || s = true /\ 0 < a mod b)).
  { destruct (Z.eqb_spec (a mod b) 0) as [H0 | H0].
    - left. destruct r, s; try discriminate Hl. split; [reflexivity | exact H0].
    - right. split; [| lia]. destruct r, s; try discriminate Hl; reflexivity. }
  clear Hl.
  destruct (a / b) as [| p | p] eqn:Hab; [| | lia].
  - change (0 mod 2) with 0. change (0 / 2) with 0. rewrite Z.mul_0_r, Z.add_0_r.
    cbn [shr_1 shr_m loc_of_shr_record].
    destruct Hrs as [[-> H0] | [-> H0]].
    + rewrite H0. split; reflexivity.
    + split; [reflexivity |].
      destruct (Z.eqb_spec (a mod b) 0); [lia |].
      replace (2 * (a mod b) ?= 2 * b) with Lt; [reflexivity |].
      symmetry. apply Z.compare_lt_iff. lia.
  - destruct p as [p | p |].
    + assert (Hd : Zpos p~1 / 2 = Zpos p /\ Zpos p~1 mod 2 = 1).
      { split.
        - symmetry. apply Z.div_unique with (r := 1); lia.
        - symmetry. apply Z.mod_unique with (q := Zpos p); lia. }
      destruct Hd as [-> ->]. rewrite Z.mul_1_r.
      cbn [shr_1 shr_m loc_of_shr_record].
      split; [reflexivity |].
      destruct (Z.eqb_spec (a mod b + b) 0); [lia |].
      destruct Hrs as [[-> H0] | [-> H0]].
      * replace (2 * (a mod b + b) ?= 2 * b) with Eq; [reflexivity |].
        symmetry. apply Z.compare_eq_iff. lia.
      * replace (2 * (a mod b + b) ?= 2 * b) with Gt; [reflexivity |].
        symmetry. apply Z.compare_gt_iff. lia.
    + assert (Hd : Zpos p~0 / 2 = Zpos p /\ Zpos p~0 mod 2 = 0).
      { split.
        - symmetry. apply Z.div_unique with (r := 0); lia.
        - symmetry. apply Z.mod_unique with (q := Zpos p); lia. }
      destruct Hd as [-> ->]. rewrite Z.mul_0_r, Z.add_0_r.
      cbn [shr_1 shr_m loc_of_shr_record].
      split; [reflexivity |].
      destruct Hrs as [[-> H0] | [-> H0]].
      * rewrite H0. reflexivity.
      * destruct (Z.eqb_spec (a mod b) 0); [lia |].
        replace (2 * (a mod b) ?= 2 * b) with Lt; [reflexivity |].
        symmetry. apply Z.compare_lt_iff. lia.
    + change (1 / 2) with 0. change (1 mod 2) with 1. rewrite Z.mul_1_r.
      cbn [shr_1 shr_m loc_of_shr_record].
      split; [reflexivity |].
      destruct (Z.eqb_spec (a mod b + b) 0); [lia |].
      destruct Hrs as [[-> H0] | [-> H0]].
      * replace (2 * (a mod b + b) ?= 2 * b) with Eq; [reflexivity |].
        symmetry. apply Z.compare_eq_iff. lia.
      * replace (2 * (a mod b + b) ?= 2 * b) with Gt; [reflexivity |].
        symmetry. apply Z.compare_gt_iff. lia.
Qed.

Lemma iter_shr_1_located (p : positive) (a b : Z) (mrs : shr_record) :
  0 <= a -> 0 < b ->
  located a b (shr_m mrs) (loc_of_shr_record mrs) ->
  located a (b * 2 ^ Zpos p)
          (shr_m (iter_pos shr_1 p mrs))
          (loc_of_shr_record (iter_pos shr_1 p mrs)).
Proof.
  intros Ha. revert b mrs.
  induction p as [p IH | p IH |]; intros b mrs Hb Hloc; cbn [iter_pos].
  - replace (b * 2 ^ Zpos p~1) with (2 * b * 2 ^ Zpos p * 2 ^ Zpos p).
    + assert (H2 : 0 < 2 ^ Zpos p) by (apply Z.pow_pos_nonneg; lia).
      apply IH; [nia |]. apply IH; [lia |].
      now apply shr_1_located.
    + replace (Zpos p~1) with (Zpos p + Zpos p + 1) by lia.
      rewrite !Z.pow_add_r by lia. change (2 ^ 1) with 2. ring.
  - replace (b * 2 ^ Zpos p~0) with (b * 2 ^ Zpos p * 2 ^ Zpos p).
    + assert (H2 : 0 < 2 ^ Zpos p) by (apply Z.pow_pos_nonneg; lia).
      apply IH; [nia |]. now apply IH.
    + replace (Zpos p~0) with (Zpos p + Zpos p) by lia.
      rewrite Z.pow_add_r by lia. ring.
  - change (2 ^ 1) with 2. rewrite Z.mul_comm. now apply shr_1_located.
Qed.

Lemma shr_located (a b m e n : Z) (l : location) :
  0 <= a -> 0 < b -> 0 <= n ->
  located a b m l ->
  located a (b * 2 ^ n)
          (shr_m (fst (shr (shr_record_of_loc m l) e n)))
          (loc_of_shr_record (fst (shr (shr_record_of_loc m l) e n))) /\
  snd (shr (shr_record_of_loc m l) e n) = e + n.
Proof.
  intros Ha Hb Hn Hloc.
  assert (H0 : located a b (shr_m (shr_record_of_loc m l))
                       (loc_of_shr_record (shr_record_of_loc m l))).
  { now rewrite shr_record_of_loc_m, location_of_shr_record_of_loc. }
  destruct n as [| p | p]; [| | lia].
  - cbn [shr fst snd]. change (2 ^ 0) with 1. rewrite Z.mul_1_r, Z.add_0_r.
    split; [exact H0 | reflexivity].
  - cbn [shr fst snd]. split; [| reflexivity].
    exact (iter_shr_1_located p a b _ Ha Hb H0).
Qed.

(** The result of rounding the exact quotient [a / b * 2 ^ e], handed over
    as its integer part [m] and location [l]: the quotient is rounded at
    the exponent [e1] of its binade to the nearest mantissa, ties to
    even. *)
Lemma binary_round_aux_pack (s : bool) (a b m e : Z) (l : location) :
  0 <= a -> 0 < b -> located a b m l ->
  e <= fexp prec emax (Zdigits2 m + e) ->
  binary_round_aux prec emax s m e l
  = pack s (nearest_even a (b * 2 ^ (fexp prec emax (Zdigits2 m + e) - e)))
         (fexp prec emax (Zdigits2 m + e)) /\
  0 <= nearest_even a (b * 2 ^ (fexp prec emax (Zdigits2 m + e) - e)) <= 2 ^ 53 /\
  (-1074 < fexp prec emax (Zdigits2 m + e) ->
   2 ^ 52 <= nearest_even a (b * 2 ^ (fexp prec emax (Zdigits2 m + e) - e))).
Proof.
  intros Ha Hb Hloc Hn.
  set (e1 := fexp prec emax (Zdigits2 m + e)) in *.
  assert (Hm : 0 <= m).
  { destruct Hloc as [-> _]. apply Z.div_pos; lia. }
  assert (H52 : 2 ^ 52 = 4503599627370496) by reflexivity.
  assert (H53 : 2 ^ 53 = 9007199254740992) by reflexivity.
  assert (He1 : Zdigits2 m + e - 53 <= e1 /\ -1074 <= e1 /\
                (-1074 < e1 -> e1 = Zdigits2 m + e - 53)).
  { unfold e1, fexp. change (SpecFloat.emin prec emax) with (-1074).
    change prec with 53. lia. }
  assert (Hpow : 0 < 2 ^ (e1 - e)) by (apply Z.pow_pos_nonneg; lia).
  destruct (shr_located a b m e (e1 - e) l Ha Hb ltac:(lia) Hloc)
    as [[Hm1 Hl1] He].
  assert (Hq : a / (b * 2 ^ (e1 - e)) = m / 2 ^ (e1 - e)).
  { destruct Hloc as [-> _]. symmetry. apply Z.div_div; lia. }
  assert (Hq53 : 0 <= m / 2 ^ (e1 - e) < 2 ^ 53).
  { split; [apply Z.div_pos; lia |].
    apply Z.div_lt_upper_bound; [exact Hpow |].
    rewrite <- Z.pow_add_r by lia.
    apply Z.lt_le_trans with (1 := Zdigits2_bound m Hm).
    pose proof (Zdigits2_nonneg m).
    apply Z.pow_le_mono_r; lia. }
  assert (Hq52 : -1074 < e1 -> 2 ^ 52 <= m / 2 ^ (e1 - e)).
  { intros Hnorm. destruct He1 as [_ [_ He1]]. specialize (He1 Hnorm).
    destruct m as [| p | p]; [cbn [Zdigits2] in *; lia | | lia].
    cbn [Zdigits2] in *. rewrite digits2_pos_size in *.
    pose proof (size_bounds p) as [Hlo _].
    apply Z.div_le_lower_bound; [exact Hpow |].
    rewrite <- Z.pow_add_r by lia.
    replace (e1 - e + 52) with (Zpos (Pos.size p) - 1) by lia.
    exact Hlo. }
  unfold nearest_even. rewrite Hq.
  pose proof (round_nearest_even_bounds (m / 2 ^ (e1 - e))
                (location_of a (b * 2 ^ (e1 - e)))) as Hr.
  split; [| split; [lia | intros Hnorm; specialize (Hq52 Hnorm); lia]].
  unfold binary_round_aux. unfold shr_fexp at 1. fold e1.
  destruct (shr (shr_record_of_loc m l) e (e1 - e)) as [mrs e'].
  cbn [fst snd] in Hm1, Hl1, He.
  rewrite Hl1, Hm1, Hq, He.
  replace (e + (e1 - e)) with e1 by lia.
  destruct (round_nearest_even (m / 2 ^ (e1 - e))
              (location_of a (b * 2 ^ (e1 - e)))) as [| r | r]; [| | lia].
  - unfold shr_fexp, shr, fexp. cbn [Zdigits2 shr_record_of_loc pack].
    change (SpecFloat.emin prec emax) with (-1074). change prec with 53.
    destruct (Z.max (0 + e1 - 53) (-1074) - e1) eqn:Hd; [reflexivity | lia |
      reflexivity].
  - cbn [pack].
    destruct (Z.ltb_spec (Zpos r) (2 ^ 53)) as [Hnocarry | Hcarry].
    + assert (Hdig : Zpos (digits2_pos r) <= 53).
      { apply (size_range r 0 53); lia. }
      replace (shr_fexp prec emax (Zpos r) e1 loc_Exact)
        with ({| shr_m := Zpos r; shr_r := false; shr_s := false |}, e1).
      * reflexivity.
      * unfold shr_fexp, shr, Zdigits2, fexp.
        change (SpecFloat.emin prec emax) with (-1074). change prec with 53.
        destruct (Z.max (Zpos (digits2_pos r) + e1 - 53) (-1074) - e1) eqn:Hd;
          [reflexivity | lia | reflexivity].
    + assert (Hr53 : r = 9007199254740992%positive) by lia.
      subst r.
      replace (shr_fexp prec emax 9007199254740992 e1 loc_Exact)
        with ({| shr_m := 4503599627370496; shr_r := false; shr_s := false |},
              e1 + 1).
      * reflexivity.
      * unfold shr_fexp, shr, Zdigits2, fexp.
        change (SpecFloat.emin prec emax) with (-1074). change prec with 53.
        change (Zpos (digits2_pos 9007199254740992)) with 54.
        replace (Z.max (54 + e1 - 53) (-1074) - e1) with 1 by lia.
        reflexivity.
Qed.

Lemma nearest_even_monotone (a b a' b' : Z) :
  0 <= a -> 0 < b -> 0 <= a' -> 0 < b' ->
  a * b' <= a' * b ->
  nearest_even a b <= nearest_even a' b'.
Proof.
  intros Ha Hb Ha' Hb' Hle.
  pose proof (Z.div_mod a b ltac:(lia)) as Hd.
  pose proof (Z.div_mod a' b' ltac:(lia)) as Hd'.
  pose proof (Z.mod_pos_bound a b Hb) as Hr.
  pose proof (Z.mod_pos_bound a' b' Hb') as Hr'.
  assert (Hq : 0 <= a / b) by (apply Z.div_pos; lia).
  assert (Hq' : 0 <= a' / b') by (apply Z.div_pos; lia).
  unfold nearest_even.
  pose proof (round_nearest_even_bounds (a / b) (location_of a b)) as Hn.
  pose proof (round_nearest_even_bounds (a' / b') (location_of a' b')) as Hn'.
  assert (Hqq : a / b <= a' / b').
  { apply Z.div_le_lower_bound; [exact Hb' |].
    apply Z.lt_succ_r.
    apply Z.mul_lt_mono_pos_r with (p := b); [exact Hb |].
    nia. }
  destruct (Z.eq_dec (a / b) (a' / b')) as [Heq | Hneq]; [| lia].
  assert (Hrr : a mod b * b' <= a' mod b' * b) by nia.
  unfold location_of, round_nearest_even in *. rewrite <- Heq in *.
  destruct (Z.eqb_spec (a mod b) 0) as [H0 | H0];
    destruct (Z.eqb_spec (a' mod b') 0) as [H0' | H0'];
    try destruct (Z.compare_spec (2 * (a mod b)) b) as [Hc | Hc | Hc];
    try destruct (Z.compare_spec (2 * (a' mod b')) b') as [Hc' | Hc' | Hc'];
    try destruct (Z.even (a / b));
    try lia; exfalso; nia.
Qed.

Lemma pack_leb (n e n' e' : Z) :
  0 <= n <= 2 ^ 53 -> 0 <= n' <= 2 ^ 53 ->
  (e = e' /\ n <= n') \/ (e < e' /\ 2 ^ 52 <= n') ->
  SFleb (pack false n e) (pack false n' e') = true /\
  SFleb (pack true n' e') (pack true n e) = true.
Proof.
  assert (H52 : 2 ^ 52 = 4503599627370496) by reflexivity.
  assert (H53 : 2 ^ 53 = 9007199254740992) by reflexivity.
  rewrite H52, H53. intros Hn Hn' Hle.
  destruct n as [| p | p], n' as [| p' | p']; try lia; cbn [pack];
    rewrite ?H53;
    repeat match goal with
      | |- context [Z.ltb ?x ?y] => destruct (Z.ltb_spec x y)
      | |- context [Z.leb ?x ?y] => destruct (Z.leb_spec x y)
      end;
    cbn [SFleb SFcompare]; try (split; reflexivity); try lia;
    rewrite ?compare_cont_Eq;
    repeat match goal with
      | |- context [Z.compare ?x ?y] => destruct (Z.compare_spec x y)
      end;
    cbn [CompOpp]; try (split; reflexivity); lia.
Qed.

Lemma fexp_monotone (d d' : Z) :
  d <= d' -> fexp prec emax d <= fexp prec emax d'.
Proof. unfold fexp. lia. Qed.

(** Rounding is monotone: of two exact quotients in order, the rounded
    results are in the same order (in the opposite one with the sign
    set). *)
Lemma binary_round_aux_monotone
  (a b m e : Z) (l : location) (a' b' m' e' : Z) (l' : location) (k : Z) :
  0 <= a -> 0 < b -> located a b m l ->
  e <= fexp prec emax (Zdigits2 m + e) ->
  0 <= a' -> 0 < b' -> located a' b' m' l' ->
  e' <= fexp prec emax (Zdigits2 m' + e') ->
  k <= e -> k <= e' ->
  a * b' * 2 ^ (e - k) <= a' * b * 2 ^ (e' - k) ->
  SFleb (binary_round_aux prec emax false m e l)
        (binary_round_aux prec emax false m' e' l') = true /\
  SFleb (binary_round_aux prec emax true m' e' l')
        (binary_round_aux prec emax true m e l) = true.
Proof.
  intros Ha Hb Hloc He Ha' Hb' Hloc' He' Hk Hk' Hle.
  destruct (binary_round_aux_pack false a b m e l Ha Hb Hloc He)
    as [-> [Hn Hn52]].
  destruct (binary_round_aux_pack true a b m e l Ha Hb Hloc He) as [-> _].
  destruct (binary_round_aux_pack false a' b' m' e' l' Ha' Hb' Hloc' He')
    as [-> [Hn' Hn52']].
  destruct (binary_round_aux_pack true a' b' m' e' l' Ha' Hb' Hloc' He')
    as [-> _].
  set (e1 := fexp prec emax (Zdigits2 m + e)) in *.
  set (e1' := fexp prec emax (Zdigits2 m' + e')) in *.
  assert (Hmin : -1074 <= e1 /\ -1074 <= e1').
  { unfold e1, e1', fexp. change (SpecFloat.emin prec emax) with (-1074). lia. }
  assert (Hm : 0 <= m /\ m * b <= a).
  { destruct Hloc as [-> _]. split; [apply Z.div_pos; lia |].
    rewrite Z.mul_comm. apply Z.mul_div_le; lia. }
  assert (Hm' : 0 <= m' /\ a' < (m' + 1) * b').
  { destruct Hloc' as [-> _]. split; [apply Z.div_pos; lia |].
    pose proof (Z.div_mod a' b' ltac:(lia)).
    pose proof (Z.mod_pos_bound a' b' Hb'). nia. }
  assert (Hee : e1 <= e1').
  { destruct m as [| p | p]; [| | lia].
    - unfold e1, fexp in He |- *. cbn [Zdigits2] in He |- *.
      change (SpecFloat.emin prec emax) with (-1074) in *.
      change prec with 53 in *. lia.
    - apply fexp_monotone.
      pose proof (Zdigits2_bound m' (proj1 Hm')) as Hd'.
      pose proof (Zdigits2_nonneg m') as Hd0'.
      cbn [Zdigits2]. rewrite digits2_pos_size.
      pose proof (size_bounds p) as [Hlo _].
      set (d := Zpos (Pos.size p)) in *.
      set (d' := Zdigits2 m') in *.
      assert (Hd1 : 1 <= d) by (unfold d; lia).
      assert (HP : 0 < 2 ^ (e - k)) by (apply Z.pow_pos_nonneg; lia).
      assert (HP' : 0 < 2 ^ (e' - k)) by (apply Z.pow_pos_nonneg; lia).
      assert (HD : 0 < 2 ^ (d - 1)) by (apply Z.pow_pos_nonneg; lia).
      assert (HD' : 0 < 2 ^ d') by (apply Z.pow_pos_nonneg; lia).
      assert (Hlt : 2 ^ (d - 1 + (e - k)) < 2 ^ (d' + (e' - k))).
      { rewrite !Z.pow_add_r by lia.
        destruct Hm as [_ Hm], Hm' as [_ Hm'].
        destruct (Z.lt_ge_cases (2 ^ (d - 1) * 2 ^ (e - k))
                                (2 ^ d' * 2 ^ (e' - k))) as [Hok | Hbad];
          [exact Hok | exfalso].
        assert (H1 : a' * b * 2 ^ (e' - k) < (m' + 1) * b' * b * 2 ^ (e' - k)).
        { apply Z.mul_lt_mono_pos_r; [exact HP' |].
          apply Z.mul_lt_mono_pos_r; [exact Hb | exact Hm']. }
        assert (H2 : (m' + 1) * b' * b * 2 ^ (e' - k)
                     <= 2 ^ d' * 2 ^ (e' - k) * (b' * b)).
        { replace ((m' + 1) * b' * b * 2 ^ (e' - k))
            with ((m' + 1) * (2 ^ (e' - k) * (b' * b))) by ring.
          rewrite <- Z.mul_assoc.
          apply Z.mul_le_mono_nonneg_r; [nia | lia]. }
        assert (H3 : 2 ^ d' * 2 ^ (e' - k) * (b' * b)
                     <= 2 ^ (d - 1) * 2 ^ (e - k) * (b' * b)).
        { apply Z.mul_le_mono_nonneg_r; [nia | exact Hbad]. }
        assert (H4 : 2 ^ (d - 1) * 2 ^ (e - k) * (b' * b)
                     <= Zpos p * b * (b' * 2 ^ (e - k))).
        { replace (2 ^ (d - 1) * 2 ^ (e - k) * (b' * b))
            with (2 ^ (d - 1) * (b * (b' * 2 ^ (e - k)))) by ring.
          rewrite <- Z.mul_assoc.
          apply Z.mul_le_mono_nonneg_r; [nia | exact Hlo]. }
        assert (H5 : Zpos p * b * (b' * 2 ^ (e - k)) <= a * (b' * 2 ^ (e - k))).
        { apply Z.mul_le_mono_nonneg_r; [nia | exact Hm]. }
        lia. }
      apply Z.pow_lt_mono_r_iff in Hlt; lia. }
  apply pack_leb; [exact Hn | exact Hn' |].
  destruct (Z.eq_dec e1 e1') as [Heq | Hneq].
  - left. split; [exact Heq |].
    assert (HP : 0 < 2 ^ (e - k)) by (apply Z.pow_pos_nonneg; lia).
    assert (HP' : 0 < 2 ^ (e' - k)) by (apply Z.pow_pos_nonneg; lia).
    assert (HQ : 0 < 2 ^ (e1 - e)) by (apply Z.pow_pos_nonneg; lia).
    assert (HQ' : 0 < 2 ^ (e1' - e')) by (apply Z.pow_pos_nonneg; lia).
    apply nearest_even_monotone; try lia; try nia.
    assert (Hpp : 2 ^ (e1 - e) * 2 ^ (e - k) = 2 ^ (e1' - e') * 2 ^ (e' - k)).
    { rewrite <- !Z.pow_add_r by lia. f_equal. lia. }
    apply Z.mul_le_mono_pos_r with (p := 2 ^ (e - k) * 2 ^ (e' - k));
      [nia |].
    replace (a * (b' * 2 ^ (e1' - e')) * (2 ^ (e - k) * 2 ^ (e' - k)))
      with (a * b' * 2 ^ (e - k) * (2 ^ (e1' - e') * 2 ^ (e' - k))) by ring.
    replace (a' * (b * 2 ^ (e1 - e)) * (2 ^ (e - k) * 2 ^ (e' - k)))
      with (a' * b * 2 ^ (e' - k) * (2 ^ (e1 - e) * 2 ^ (e - k))) by ring.
    rewrite Hpp.
    apply Z.mul_le_mono_nonneg_r; [nia | exact Hle].
  - right. split; [lia |]. apply Hn52'. lia.
Qed.

(** ** From magnitudes to all numbers *)

Lemma sign_is_leb (a b : spec_float) :
  sign_is true a -> sign_is false b -> SFleb a b = true.
Proof.
  destruct a as [sa | sa | | sa ma ea], b as [sb | sb | | sb mb eb];
    cbn [sign_is]; intros Ha Hb; try contradiction; subst; reflexivity.
Qed.

Lemma zero_leb_sign_is (s : bool) (b : spec_float) :
  sign_is false b -> SFleb (S754_zero s) b = true.
Proof.
  destruct b as [sb | sb | | sb mb eb]; cbn [sign_is]; intros Hb;
    try contradiction; subst; reflexivity.
Qed.

Lemma sign_is_leb_zero (s : bool) (a : spec_float) :
  sign_is true a -> SFleb a (S754_zero s) = true.
Proof.
  destruct a as [sa | sa | | sa ma ea]; cbn [sign_is]; intros Ha;
    try contradiction; subst; reflexivity.
Qed.

Lemma sign_is_leb_infinity (s : bool) (a : spec_float) :
  sign_is s a -> SFleb a (S754_infinity false) = true.
Proof.
  destruct a as [sa | sa | | sa ma ea]; cbn [sign_is]; intros Ha;
    try contradiction; subst; destruct s; reflexivity.
Qed.

Lemma neg_infinity_leb_sign_is (s : bool) (b : spec_float) :
  sign_is s b -> SFleb (S754_infinity true) b = true.
Proof.
  destruct b as [sb | sb | | sb mb eb]; cbn [sign_is]; intros Hb;
    try contradiction; subst; destruct s; reflexivity.
Qed.

Lemma SFleb_opp (m : positive) (e : Z) (m' : positive) (e' : Z) :
  SFleb (S754_finite true m e) (S754_finite true m' e')
  = SFleb (S754_finite false m' e') (S754_finite false m e).
Proof.
  unfold SFleb, SFcompare. rewrite !compare_cont_Eq.
  rewrite (Z.compare_antisym e e'), (Z.compare_antisym (Zpos m) (Zpos m')).
  destruct (e ?= e'); reflexivity.
Qed.

Section Monotone.

Variable F : spec_float -> spec_float.

Hypothesis F_sign :
  forall s x, valid_binary x = true -> sign_is s x -> sign_is s (F x).
Hypothesis F_zero : forall s, F (S754_zero s) = S754_zero s.
Hypothesis F_infinity : forall s, F (S754_infinity s) = S754_infinity s.
Hypothesis F_finite :
  forall m e m' e',
    valid_binary (S754_finite false m e) = true ->
    valid_binary (S754_finite false m' e') = true ->
    SFleb (S754_finite false m e) (S754_finite false m' e') = true ->
    SFleb (F (S754_finite false m e)) (F (S754_finite false m' e')) = true /\
    SFleb (F (S754_finite true m' e')) (F (S754_finite true m e)) = true.

(** A function that keeps signs, zeros and infinities and is monotone on
    the finite magnitudes is monotone on all numbers. *)
Lemma monotone_by_magnitude (x y : spec_float) :
  valid_binary x = true -> valid_binary y = true ->
  SFleb x y = true -> SFleb (F x) (F y) = true.
Proof.
  intros Hx Hy Hle.
  destruct x as [sx | sx | | sx mx ex], y as [sy | sy | | sy my ey];
    try discriminate Hle.
  - now rewrite !F_zero.
  - destruct sy; [discriminate Hle |]. now rewrite F_zero, F_infinity.
  - destruct sy; [discriminate Hle |]. rewrite F_zero.
    apply zero_leb_sign_is, F_sign; [exact Hy | reflexivity].
  - destruct sx; [| discriminate Hle]. now rewrite F_zero, F_infinity.
  - rewrite !F_infinity. exact Hle.
  - destruct sx; [| discriminate Hle]. rewrite F_infinity.
    apply (neg_infinity_leb_sign_is sy), F_sign; [exact Hy | reflexivity].
  - destruct sx; [| discriminate Hle]. rewrite F_zero.
    apply sign_is_leb_zero, F_sign; [exact Hx | reflexivity].
  - destruct sy; [discriminate Hle |]. rewrite F_infinity.
    apply (sign_is_leb_infinity sx), F_sign; [exact Hx | reflexivity].
  - destruct sx, sy.
    + rewrite SFleb_opp in Hle.
      exact (proj2 (F_finite my ey mx ex Hy Hx Hle)).
    + apply sign_is_leb; apply F_sign; (assumption || reflexivity).
    + discriminate Hle.
    + exact (proj1 (F_finite mx ex my ey Hx Hy Hle)).
Qed.

End Monotone.

(** ** The order of the numbers is the order of their values *)

Lemma scaled_le_shift (m m' e e' j j' : Z) :
  j <= e -> j <= e' -> j' <= e -> j' <= e' ->
  m * 2 ^ (e - j) <= m' * 2 ^ (e' - j) ->
  m * 2 ^ (e - j') <= m' * 2 ^ (e' - j').
Proof.
  intros Hj Hj' Hk Hk' Hle.
  destruct (Z.le_gt_cases j' j) as [Hc | Hc].
  - replace (e - j') with (e - j + (j - j')) by lia.
    replace (e' - j') with (e' - j + (j - j')) by lia.
    rewrite !Z.pow_add_r, !Z.mul_assoc by lia.
    apply Z.mul_le_mono_nonneg_r; [apply Z.pow_nonneg; lia | exact Hle].
  - replace (e - j) with (e - j' + (j' - j)) in Hle by lia.
    replace (e' - j) with (e' - j' + (j' - j)) in Hle by lia.
    rewrite !Z.pow_add_r, !Z.mul_assoc in Hle by lia.
    apply Z.mul_le_mono_pos_r in Hle; [exact Hle |].
    apply Z.pow_pos_nonneg; lia.
Qed.

Lemma SFleb_value (m : positive) (e : Z) (m' : positive) (e' : Z) :
  valid_binary (S754_finite false m e) = true ->
  valid_binary (S754_finite false m' e') = true ->
  SFleb (S754_finite false m e) (S754_finite false m' e') = true ->
  Zpos m * 2 ^ (e + 1074) <= Zpos m' * 2 ^ (e' + 1074).
Proof.
  intros Hv Hv' Hle.
  destruct (valid_finite_bounds _ _ _ Hv) as [Hm [He Hn]].
  destruct (valid_finite_bounds _ _ _ Hv') as [Hm' [He' Hn']].
  assert (H52 : 2 ^ 52 = 4503599627370496) by reflexivity.
  assert (H53 : 2 ^ 53 = 9007199254740992) by reflexivity.
  unfold SFleb, SFcompare in Hle. rewrite compare_cont_Eq in Hle.
  destruct (Z.compare_spec e e') as [Heq | Hlt | Hgt]; [| | discriminate Hle].
  - subst e'. apply Z.mul_le_mono_nonneg_r; [apply Z.pow_nonneg; lia |].
    destruct (Z.compare_spec (Zpos m) (Zpos m')); try discriminate Hle; lia.
  - specialize (Hn' ltac:(lia)).
    replace (e' + 1074) with (e + 1074 + (e' - e)) by lia.
    rewrite (Z.pow_add_r 2 (e + 1074) (e' - e)) by lia.
    assert (HP : 0 < 2 ^ (e + 1074)) by (apply Z.pow_pos_nonneg; lia).
    assert (HQ : 2 ^ 1 <= 2 ^ (e' - e)) by (apply Z.pow_le_mono_r; lia).
    change (2 ^ 1) with 2 in HQ.
    set (P := 2 ^ (e + 1074)) in *. set (Q := 2 ^ (e' - e)) in *.
    assert (H1 : Zpos m * P <= 9007199254740992 * P) by nia.
    assert (H2 : 9007199254740992 <= Zpos m' * Q) by nia.
    assert (H3 : 9007199254740992 * P <= Zpos m' * Q * P).
    { apply Z.mul_le_mono_nonneg_r; lia. }
    replace (Zpos m' * (P * Q)) with (Zpos m' * Q * P) by ring. lia.
Qed.

(** ** Division *)

Lemma new_location_location_of (a b : Z) :
  0 < b -> new_location b (a mod b) = location_of a b.
Proof.
  intros Hb. pose proof (Z.mod_pos_bound a b Hb) as Hr.
  unfold new_location, new_location_even, new_location_odd, location_of.
  destruct (Z.even b) eqn:Heven; [reflexivity |].
  destruct (Z.eqb_spec (a mod b) 0) as [H0 | H0]; [reflexivity |].
  f_equal.
  assert (Hodd : 2 * (a mod b) <> b).
  { intros Heq. rewrite <- Heq, Z.even_mul in Heven. discriminate Heven. }
  destruct (Z.compare_spec (2 * (a mod b) + 1) b);
    destruct (Z.compare_spec (2 * (a mod b)) b); (reflexivity || lia).
Qed.

(** The quotient of two finite numbers is the rounded exact quotient of
    their mantissas, the dividend shifted left by [sh] bits. *)
Lemma SFdiv_finite (m1 : positive) (e1 : Z) (m2 : positive) (e2 : Z) :
  valid_binary (S754_finite false m1 e1) = true ->
  valid_binary (S754_finite false m2 e2) = true ->
  exists (sh q : Z) (l : location),
    0 <= sh /\
    located (Zpos m1 * 2 ^ sh) (Zpos m2) q l /\
    e1 - e2 - sh <= fexp prec emax (Zdigits2 q + (e1 - e2 - sh)) /\
    forall s1 s2,
      SF64div (S754_finite s1 m1 e1) (S754_finite s2 m2 e2)
      = binary_round_aux prec emax (xorb s1 s2) q (e1 - e2 - sh) l.
Proof.
  intros Hv1 Hv2.
  destruct (valid_finite_digits false m1 e1 Hv1) as [Hd1 [He1 Hn1]].
  destruct (valid_finite_digits false m2 e2 Hv2) as [Hd2 [He2 Hn2]].
  pose proof (size_bounds m1) as [A1 A2].
  pose proof (size_bounds m2) as [B1 B2].
  rewrite <- digits2_pos_size in A1, A2, B1, B2.
  assert (H52 : 2 ^ 52 = 4503599627370496) by reflexivity.
  assert (H53 : 2 ^ 53 = 9007199254740992) by reflexivity.
  set (d1 := Zpos (digits2_pos m1)) in *.
  set (d2 := Zpos (digits2_pos m2)) in *.
  set (e' := Z.min (fexp prec emax (d1 + e1 - (d2 + e2))) (e1 - e2)).
  assert (He' : e' <= e1 - e2 /\
                (-1074 < e' -> e' <= d1 + e1 - d2 - e2 - 53)).
  { unfold e', fexp. change (SpecFloat.emin prec emax) with (-1074).
    change prec with 53. lia. }
  set (sh := e1 - e2 - e').
  assert (Hsh : 0 <= sh) by (unfold sh; lia).
  assert (Hm' : match sh with
                | 0 => Zpos m1
                | Zpos _ => Z.shiftl (Zpos m1) sh
                | Zneg _ => 0
                end = Zpos m1 * 2 ^ sh).
  { destruct sh as [| p | p] eqn:Hp; [cbn; lia | | lia].
    now rewrite Z.shiftl_mul_pow2 by lia. }
  assert (HPS : 0 < 2 ^ sh) by (apply Z.pow_pos_nonneg; lia).
  assert (Hquot : Z.div_eucl (Zpos m1 * 2 ^ sh) (Zpos m2)
                  = (Zpos m1 * 2 ^ sh / Zpos m2, (Zpos m1 * 2 ^ sh) mod Zpos m2)).
  { unfold Z.div, Z.modulo. now destruct (Z.div_eucl _ _). }
  set (q := Zpos m1 * 2 ^ sh / Zpos m2).
  assert (Hq0 : 0 <= q) by (apply Z.div_pos; lia).
  assert (Hqnorm : -1074 < e' -> 2 ^ 52 <= q).
  { intros Hn. destruct He' as [_ He'].
    specialize (He' Hn).
    apply Z.div_le_lower_bound; [lia |].
    assert (Hpow : 2 ^ (52 + d2) <= 2 ^ (d1 - 1 + sh))
      by (apply Z.pow_le_mono_r; unfold sh; lia).
    rewrite !Z.pow_add_r in Hpow by lia.
    assert (Zpos m2 < 2 ^ d2) by exact B2.
    assert (0 < 2 ^ (d1 - 1)) by (apply Z.pow_pos_nonneg; lia).
    rewrite H52 in *. nia. }
  assert (HDnorm : -1074 < e' -> 53 <= Zdigits2 q).
  { intros Hn. specialize (Hqnorm Hn).
    destruct q as [| qp | qp] eqn:Eq; [lia | | lia].
    cbn [Zdigits2].
    destruct (Z.le_gt_cases 53 (Zpos (digits2_pos qp))) as [H | H];
      [exact H |].
    pose proof (size_bounds qp) as [_ Q2]. rewrite <- digits2_pos_size in Q2.
    assert (2 ^ Zpos (digits2_pos qp) <= 2 ^ 52)
      by (apply Z.pow_le_mono_r; lia).
    lia. }
  exists sh, q, (location_of (Zpos m1 * 2 ^ sh) (Zpos m2)).
  replace (e1 - e2 - sh) with e' by (unfold sh; lia).
  split; [exact Hsh |]. split; [split; reflexivity |]. split.
  - unfold fexp. change (SpecFloat.emin prec emax) with (-1074).
    change prec with 53.
    destruct (Z.le_gt_cases e' (-1074)); [lia |].
    specialize (HDnorm ltac:(lia)). lia.
  - intros s1 s2.
    unfold SF64div, SFdiv, SFdiv_core_binary. cbn [Zdigits2].
    fold d1 d2. fold e'. fold sh. rewrite Hm', Hquot. fold q.
    now rewrite new_location_location_of by lia.
Qed.

(** Dividing by a positive finite number is monotone. *)
Lemma SFdiv_monotone (c c' t : spec_float) (mt : positive) (et : Z) :
  valid_binary c = true -> valid_binary c' = true -> valid_binary t = true ->
  t = S754_finite false mt et ->
  SFleb c c' = true ->
  SFleb (SF64div c t) (SF64div c' t) = true.
Proof.
  intros Hc Hc' Ht ->.
  apply (monotone_by_magnitude (fun x => SF64div x (S754_finite false mt et)));
    try assumption.
  - intros s x _ Hs. now apply (SFdiv_sign_is s x _ mt et).
  - intros s. cbn. now rewrite xorb_false_r.
  - intros s. cbn. now rewrite xorb_false_r.
  - intros m e m' e' Hv Hv' Hle.
    destruct (SFdiv_finite m e mt et Hv Ht) as [sh [q [l [Hsh [Hloc [He Hdiv]]]]]].
    destruct (SFdiv_finite m' e' mt et Hv' Ht)
      as [sh' [q' [l' [Hsh' [Hloc' [He' Hdiv']]]]]].
    rewrite !Hdiv, !Hdiv'. cbn [xorb].
    pose proof (SFleb_value m e m' e' Hv Hv' Hle) as Hval.
    destruct (valid_finite_bounds _ _ _ Hv) as [_ [Hev _]].
    destruct (valid_finite_bounds _ _ _ Hv') as [_ [Hev' _]].
    assert (HP : 0 < 2 ^ sh) by (apply Z.pow_pos_nonneg; lia).
    assert (HP' : 0 < 2 ^ sh') by (apply Z.pow_pos_nonneg; lia).
    set (k := Z.min (e - et - sh) (e' - et - sh')).
    apply (binary_round_aux_monotone
             (Zpos m * 2 ^ sh) (Zpos mt) q (e - et - sh) l
             (Zpos m' * 2 ^ sh') (Zpos mt) q' (e' - et - sh') l' k);
      try assumption; try lia.
    replace (Zpos m * 2 ^ sh * Zpos mt * 2 ^ (e - et - sh - k))
      with (Zpos mt * (Zpos m * (2 ^ sh * 2 ^ (e - et - sh - k)))) by ring.
    replace (Zpos m' * 2 ^ sh' * Zpos mt * 2 ^ (e' - et - sh' - k))
      with (Zpos mt * (Zpos m' * (2 ^ sh' * 2 ^ (e' - et - sh' - k)))) by ring.
    rewrite <- !Z.pow_add_r by lia.
    replace (sh + (e - et - sh - k)) with (e - (et + k)) by lia.
    replace (sh' + (e' - et - sh' - k)) with (e' - (et + k)) by lia.
    apply Z.mul_le_mono_nonneg_l; [lia |].
    apply (scaled_le_shift _ _ e e' (-1074) (et + k)); try lia.
    replace (e - -1074) with (e + 1074) by lia.
    replace (e' - -1074) with (e' + 1074) by lia.
    exact Hval.
Qed.

(** ** Multiplication by 100 *)

Lemma SFmul_100_monotone (x y : spec_float) :
  valid_binary x = true -> valid_binary y = true ->
  SFleb x y = true ->
  SFleb (SF64mul x (S754_finite false 7036874417766400 (-46)))
        (SF64mul y (S754_finite false 7036874417766400 (-46))) = true.
Proof.
  apply (monotone_by_magnitude
           (fun x => SF64mul x (S754_finite false 7036874417766400 (-46)))).
  - intros s z _ Hs. now apply SFmul_100_sign_is.
  - intros s. cbn. now rewrite xorb_false_r.
  - intros s. cbn. now rewrite xorb_false_r.
  - intros m e m' e' Hv Hv' Hle.
    pose proof (SFleb_value m e m' e' Hv Hv' Hle) as Hval.
    destruct (valid_finite_bounds _ _ _ Hv) as [_ [Hev _]].
    destruct (valid_finite_bounds _ _ _ Hv') as [_ [Hev' _]].
    unfold SF64mul, SFmul. cbn [xorb].
    assert (Hexact : forall p : positive,
               located (Zpos p) 1 (Zpos p) loc_Exact).
    { intros p. unfold located, location_of.
      now rewrite Z.div_1_r, Z.mod_1_r. }
    assert (Hshift : forall (p : positive) (z : Z),
               z + -46
               <= fexp prec emax
                    (Zdigits2 (Zpos (p * 7036874417766400)) + (z + -46))).
    { intros p z. unfold fexp. cbn [Zdigits2].
      change (SpecFloat.emin prec emax) with (-1074). change prec with 53.
      assert (HM : 2 ^ 52 <= Zpos (p * 7036874417766400)
                   < 2 ^ (Zpos (Pos.size (p * 7036874417766400)))).
      { split; [| apply size_bounds].
        change (2 ^ 52) with 4503599627370496. rewrite Pos2Z.inj_mul. lia. }
      pose proof (size_range _ 52 _ ltac:(lia) HM). lia. }
    set (k := Z.min (e + -46) (e' + -46)).
    apply (binary_round_aux_monotone
             (Zpos (m * 7036874417766400)) 1 _ (e + -46) loc_Exact
             (Zpos (m' * 7036874417766400)) 1 _ (e' + -46) loc_Exact k);
      try apply Hexact; try apply Hshift; try lia.
    rewrite !Pos2Z.inj_mul, !Z.mul_1_r.
    replace (Zpos m * 7036874417766400 * 2 ^ (e + -46 - k))
      with (7036874417766400 * (Zpos m * 2 ^ (e - (46 + k))))
      by (replace (e + -46 - k) with (e - (46 + k)) by lia; ring).
    replace (Zpos m' * 7036874417766400 * 2 ^ (e' + -46 - k))
      with (7036874417766400 * (Zpos m' * 2 ^ (e' - (46 + k))))
      by (replace (e' + -46 - k) with (e' - (46 + k)) by lia; ring).
    apply Z.mul_le_mono_nonneg_l; [lia |].
    apply (scaled_le_shift _ _ e e' (-1074) (46 + k)); try lia.
    replace (e - -1074) with (e + 1074) by lia.
    replace (e' - -1074) with (e' + 1074) by lia.
    exact Hval.
Qed.

(** ** Math.round *)

Lemma rounded_scaled (s : bool) (m : positive) (e : Z) :
  -1074 <= e -> e < 0 ->
  Math.rounded s m e
  = (2 * ((if s then Zneg m else Zpos m) * 2 ^ (e + 1074)) + 2 ^ 1074)
    / 2 ^ 1075.
Proof.
  intros Hmin He. unfold Math.rounded.
  assert (HQ : 0 < 2 ^ (e + 1074)) by (apply Z.pow_pos_nonneg; lia).
  replace (2 ^ 1075) with (2 ^ (1 - e) * 2 ^ (e + 1074))
    by (rewrite <- Z.pow_add_r by lia; f_equal; lia).
  replace (2 * ((if s then Zneg m else Zpos m) * 2 ^ (e + 1074)) + 2 ^ 1074)
    with ((2 * (if s then Zneg m else Zpos m) + 2 ^ (- e)) * 2 ^ (e + 1074)).
  - symmetry. apply Z.div_mul_cancel_r; lia.
  - replace (2 ^ 1074) with (2 ^ (- e) * 2 ^ (e + 1074))
      by (rewrite <- Z.pow_add_r by lia; f_equal; lia).
    ring.
Qed.

Lemma rounded_monotone (m : positive) (e : Z) (m' : positive) (e' : Z) :
  -1074 <= e -> e < 0 -> -1074 <= e' -> e' < 0 ->
  Zpos m * 2 ^ (e + 1074) <= Zpos m' * 2 ^ (e' + 1074) ->
  Math.rounded false m e <= Math.rounded false m' e' /\
  Math.rounded true m' e' <= Math.rounded true m e.
Proof.
  intros Hmin He Hmin' He' Hle.
  rewrite !rounded_scaled by lia.
  assert (H0 : 0 < 2 ^ 1075) by (apply Z.pow_pos_nonneg; lia).
  split; apply Z.div_le_mono; try exact H0.
  - lia.
  - change (Zneg m') with (- Zpos m'). change (Zneg m) with (- Zpos m). lia.
Qed.

Lemma rounded_small (m : positive) (e : Z) :
  Zpos m < 2 ^ 53 -> e < 0 ->
  Math.rounded false m e <= 2 ^ 52 /\ - 2 ^ 52 <= Math.rounded true m e.
Proof.
  intros Hm He. unfold Math.rounded.
  assert (H52 : 2 ^ 52 = 4503599627370496) by reflexivity.
  assert (H53 : 2 ^ 53 = 9007199254740992) by reflexivity.
  assert (HP : 2 ^ 1 <= 2 ^ (- e)) by (apply Z.pow_le_mono_r; lia).
  change (2 ^ 1) with 2 in HP.
  replace (2 ^ (1 - e)) with (2 * 2 ^ (- e))
    by (replace (1 - e) with (1 + - e) by lia;
        rewrite Z.pow_add_r by lia; reflexivity).
  rewrite H52, H53 in *. split.
  - apply Z.lt_succ_r. apply Z.div_lt_upper_bound; lia.
  - apply Z.div_le_lower_bound; [lia |].
    change (Zneg m) with (- Zpos m). lia.
Qed.

Lemma size_monotone (p p' : positive) :
  (p <= p')%positive -> Zpos (Pos.size p) <= Zpos (Pos.size p').
Proof.
  intros Hle.
  pose proof (size_bounds p) as [Hlo _].
  pose proof (size_bounds p') as [_ Hhi'].
  destruct (Z.le_gt_cases (Zpos (Pos.size p)) (Zpos (Pos.size p')))
    as [H | H]; [exact H | exfalso].
  assert (2 ^ Zpos (Pos.size p') <= 2 ^ (Zpos (Pos.size p) - 1))
    by (apply Z.pow_le_mono_r; lia).
  lia.
Qed.

(** The numbers of the integers below [2 ^ 53] are in the order of the
    integers. *)
Lemma integer_leb (s s' : bool) (r r' : Z) :
  - 2 ^ 53 < r -> r <= r' -> r' < 2 ^ 53 ->
  SFleb match r with
        | Z0 => S754_zero s
        | Zpos p => binary_round prec emax false p 0
        | Zneg p => binary_round prec emax true p 0
        end
        match r' with
        | Z0 => S754_zero s'
        | Zpos p => binary_round prec emax false p 0
        | Zneg p => binary_round prec emax true p 0
        end = true.
Proof.
  intros Hlo Hle Hhi.
  assert (Hcmp : forall p p' : positive,
             Zpos p <= Zpos p' -> Zpos p' < 2 ^ 53 ->
             SFleb (binary_round prec emax false p 0)
                   (binary_round prec emax false p' 0) = true /\
             SFleb (binary_round prec emax true p' 0)
                   (binary_round prec emax true p 0) = true).
  { intros p p' Hpp Hp'.
    destruct (binary_normalize_integer false p ltac:(lia)) as [m [-> [Hm _]]].
    destruct (binary_normalize_integer true p ltac:(lia)) as [n [-> [Hn _]]].
    destruct (binary_normalize_integer false p' ltac:(lia))
      as [m' [-> [Hm' _]]].
    destruct (binary_normalize_integer true p' ltac:(lia))
      as [n' [-> [Hn' _]]].
    pose proof (size_monotone p p' ltac:(lia)) as Hsz.
    rewrite SFleb_opp.
    assert (Hgoal : forall a a' : positive,
               Zpos a = Zpos p * 2 ^ (53 - Zpos (Pos.size p)) ->
               Zpos a' = Zpos p' * 2 ^ (53 - Zpos (Pos.size p')) ->
               SFleb (S754_finite false a (Zpos (Pos.size p) - 53))
                     (S754_finite false a' (Zpos (Pos.size p') - 53)) = true).
    { intros a a' Ha Ha'. unfold SFleb, SFcompare. rewrite compare_cont_Eq.
      destruct (Z.compare_spec (Zpos (Pos.size p) - 53)
                               (Zpos (Pos.size p') - 53)) as [Heq | Hlt | Hgt];
        [| reflexivity | lia].
      assert (Hsize : Zpos (Pos.size p) = Zpos (Pos.size p')) by lia.
      rewrite Hsize in Ha.
      assert (0 <= 2 ^ (53 - Zpos (Pos.size p'))) by (apply Z.pow_nonneg; lia).
      destruct (Z.compare_spec (Zpos a) (Zpos a')); try reflexivity. nia. }
    split; apply Hgoal; assumption. }
  destruct r as [| p | p], r' as [| p' | p']; try lia; try reflexivity.
  - destruct (binary_normalize_integer false p' ltac:(lia)) as [m' [-> _]].
    reflexivity.
  - apply Hcmp; lia.
  - destruct (binary_normalize_integer true p ltac:(lia)) as [m [-> _]].
    reflexivity.
  - destruct (binary_normalize_integer true p ltac:(lia)) as [m [-> _]].
    destruct (binary_normalize_integer false p' ltac:(lia)) as [m' [-> _]].
    reflexivity.
  - apply Hcmp; lia.
Qed.

(** A rounded fraction is at most any number of exponent 0 or more. *)
Lemma integer_leb_large (s : bool) (r : Z) (m' : positive) (e' : Z) :
  - 2 ^ 52 <= r <= 2 ^ 52 -> 0 <= e' -> 2 ^ 52 <= Zpos m' ->
  SFleb match r with
        | Z0 => S754_zero s
        | Zpos p => binary_round prec emax false p 0
        | Zneg p => binary_round prec emax true p 0
        end
        (S754_finite false m' e') = true /\
  SFleb (S754_finite true m' e')
        match r with
        | Z0 => S754_zero s
        | Zpos p => binary_round prec emax false p 0
        | Zneg p => binary_round prec emax true p 0
        end = true.
Proof.
  intros Hr He' Hm'.
  assert (H52 : 2 ^ 52 = 4503599627370496) by reflexivity.
  assert (H53 : 2 ^ 53 = 9007199254740992) by reflexivity.
  assert (Hcmp : forall (p a : positive),
             Zpos p <= 2 ^ 52 ->
             Zpos a = Zpos p * 2 ^ (53 - Zpos (Pos.size p)) ->
             SFleb (S754_finite false a (Zpos (Pos.size p) - 53))
                   (S754_finite false m' e') = true).
  { intros p a Hp Ha.
    assert (Hsz : Zpos (Pos.size p) <= 53).
    { rewrite <- digits2_pos_size. apply (size_range p 0 53); lia. }
    unfold SFleb, SFcompare. rewrite compare_cont_Eq.
    destruct (Z.compare_spec (Zpos (Pos.size p) - 53) e') as [Heq | Hlt | Hgt];
      [| reflexivity | lia].
    replace (53 - Zpos (Pos.size p)) with 0 in Ha by lia.
    change (2 ^ 0) with 1 in Ha.
    destruct (Z.compare_spec (Zpos a) (Zpos m')); try reflexivity. lia. }
  destruct r as [| p | p].
  - split; reflexivity.
  - destruct (binary_normalize_integer false p ltac:(lia)) as [a [-> [Ha _]]].
    split; [apply Hcmp; [lia | exact Ha] | reflexivity].
  - destruct (binary_normalize_integer true p ltac:(lia)) as [a [-> [Ha _]]].
    split; [reflexivity |].
    rewrite SFleb_opp. apply Hcmp; [lia | exact Ha].
Qed.

Lemma round_monotone (x y : float) :
  (x <=? y)%float = true -> (Math.round x <=? Math.round y)%float = true.
Proof.
  rewrite !leb_spec.
  rewrite <- (SF2Prim_Prim2SF x) at 2. rewrite <- (SF2Prim_Prim2SF y) at 2.
  apply (monotone_by_magnitude (fun z => Prim2SF (Math.round (SF2Prim z))));
    try apply Prim2SF_valid.
  - intros s z Hv Hs. apply round_sign_is.
    now rewrite Prim2SF_SF2Prim.
  - intros s. now destruct s.
  - intros s. now destruct s.
  - intros m e m' e' Hv Hv' Hle.
    pose proof (SFleb_value m e m' e' Hv Hv' Hle) as Hval.
    destruct (valid_finite_bounds _ _ _ Hv) as [Hm [Hev Hn]].
    destruct (valid_finite_bounds _ _ _ Hv') as [Hm' [Hev' Hn']].
    assert (Hee : e <= e').
    { unfold SFleb, SFcompare in Hle.
      destruct (Z.compare_spec e e'); (lia || discriminate Hle). }
    assert (Hx : forall s, Prim2SF (SF2Prim (S754_finite s m e))
                           = S754_finite s m e).
    { intros s. now apply Prim2SF_SF2Prim. }
    assert (Hy : forall s, Prim2SF (SF2Prim (S754_finite s m' e'))
                           = S754_finite s m' e').
    { intros s. now apply Prim2SF_SF2Prim. }
    assert (H52 : 2 ^ 52 = 4503599627370496) by reflexivity.
    assert (H53 : 2 ^ 53 = 9007199254740992) by reflexivity.
    destruct (Z.le_gt_cases 0 e) as [Hint | Hfrac].
    + rewrite !(round_not_fraction (SF2Prim (S754_finite _ m e)))
        by (rewrite Hx; lia).
      rewrite !(round_not_fraction (SF2Prim (S754_finite _ m' e')))
        by (rewrite Hy; lia).
      rewrite !Hx, !Hy, SFleb_opp. split; exact Hle.
    + rewrite !(round_fraction _ _ m e (Hx _)) by lia.
      pose proof (rounded_small m e Hm Hfrac) as [Hs1 Hs2].
      pose proof (rounded_bounds false m e Hm Hfrac) as [_ [Hp1 _]].
      pose proof (rounded_bounds true m e Hm Hfrac) as [_ [_ Hp2]].
      specialize (Hp1 eq_refl). specialize (Hp2 eq_refl).
      destruct (Z.le_gt_cases 0 e') as [Hint' | Hfrac'].
      * rewrite !(round_not_fraction (SF2Prim (S754_finite _ m' e')))
          by (rewrite Hy; lia).
        rewrite !Hy.
        split; apply integer_leb_large; lia.
      * rewrite !(round_fraction _ _ m' e' (Hy _)) by lia.
        pose proof (rounded_small m' e' Hm' Hfrac') as [Hs1' Hs2'].
        pose proof (rounded_bounds false m' e' Hm' Hfrac') as [_ [Hp1' _]].
        pose proof (rounded_bounds true m' e' Hm' Hfrac') as [_ [_ Hp2']].
        specialize (Hp1' eq_refl). specialize (Hp2' eq_refl).
        destruct (rounded_monotone m e m' e') as [Hr1 Hr2]; try lia.
        split; apply integer_leb; lia.
Qed.

(** Dividing a number that is not negative by a larger positive finite
    number gives no more. *)
Lemma SFdiv_antitone (c t t' : spec_float) :
  valid_binary c = true -> valid_binary t = true -> valid_binary t' = true ->
  SFleb (S754_zero false) c = true ->
  SFltb (S754_zero false) t = true ->
  SFleb t t' = true ->
  SFltb t' (S754_infinity false) = true ->
  SFleb (SF64div c t') (SF64div c t) = true.
Proof.
  intros Hc Ht Ht' Hc0 Ht0 Htt Hfin.
  destruct t as [[] | [] | | [] mt et]; try discriminate Ht0;
    destruct t' as [[] | [] | | [] mt' et'];
    try discriminate Htt; try discriminate Hfin.
  destruct c as [[] | [] | | [] m e]; try discriminate Hc0;
    try reflexivity.
  destruct (SFdiv_finite m e mt et Hc Ht) as [sh [q [l [Hsh [Hloc [He Hdiv]]]]]].
  destruct (SFdiv_finite m e mt' et' Hc Ht')
    as [sh' [q' [l' [Hsh' [Hloc' [He' Hdiv']]]]]].
  rewrite Hdiv, Hdiv'. cbn [xorb].
  pose proof (SFleb_value mt et mt' et' Ht Ht' Htt) as Hval.
  destruct (valid_finite_bounds _ _ _ Ht) as [_ [Hev _]].
  destruct (valid_finite_bounds _ _ _ Ht') as [_ [Hev' _]].
  assert (HP : 0 < 2 ^ sh) by (apply Z.pow_pos_nonneg; lia).
  assert (HP' : 0 < 2 ^ sh') by (apply Z.pow_pos_nonneg; lia).
  set (k := Z.min (e - et - sh) (e - et' - sh')).
  apply (binary_round_aux_monotone
           (Zpos m * 2 ^ sh') (Zpos mt') q' (e - et' - sh') l'
           (Zpos m * 2 ^ sh) (Zpos mt) q (e - et - sh) l k);
    try assumption; try lia.
  replace (Zpos m * 2 ^ sh' * Zpos mt * 2 ^ (e - et' - sh' - k))
    with (Zpos m * (Zpos mt * (2 ^ sh' * 2 ^ (e - et' - sh' - k)))) by ring.
  replace (Zpos m * 2 ^ sh * Zpos mt' * 2 ^ (e - et - sh - k))
    with (Zpos m * (Zpos mt' * (2 ^ sh * 2 ^ (e - et - sh - k)))) by ring.
  rewrite <- !Z.pow_add_r by lia.
  replace (sh' + (e - et' - sh' - k)) with (- et' - (k - e)) by lia.
  replace (sh + (e - et - sh - k)) with (- et - (k - e)) by lia.
  apply Z.mul_le_mono_nonneg_l; [lia |].
  assert (Hswap : Zpos mt * 2 ^ (- et' - -971) <= Zpos mt' * 2 ^ (- et - -971)).
  { assert (Hprod : 2 ^ (et + 1074) * 2 ^ (- et - -971)
                    = 2 ^ (et' + 1074) * 2 ^ (- et' - -971)).
    { rewrite <- !Z.pow_add_r by lia. f_equal. lia. }
    assert (H1 : 0 < 2 ^ (et + 1074)) by (apply Z.pow_pos_nonneg; lia).
    assert (H2 : 0 < 2 ^ (et' + 1074)) by (apply Z.pow_pos_nonneg; lia).
    assert (H3 : 0 < 2 ^ (- et - -971)) by (apply Z.pow_pos_nonneg; lia).
    assert (H4 : 0 < 2 ^ (- et' - -971)) by (apply Z.pow_pos_nonneg; lia).
    apply Z.mul_le_mono_pos_r with (p := 2 ^ (et + 1074) * 2 ^ (et' + 1074));
      [nia |].
    replace (Zpos mt * 2 ^ (- et' - -971)
             * (2 ^ (et + 1074) * 2 ^ (et' + 1074)))
      with (Zpos mt * 2 ^ (et + 1074)
            * (2 ^ (et' + 1074) * 2 ^ (- et' - -971))) by ring.
    replace (Zpos mt' * 2 ^ (- et - -971)
             * (2 ^ (et + 1074) * 2 ^ (et' + 1074)))
      with (Zpos mt' * 2 ^ (et' + 1074)
            * (2 ^ (et + 1074) * 2 ^ (- et - -971))) by ring.
    rewrite Hprod.
    apply Z.mul_le_mono_nonneg_r; [nia | exact Hval]. }
  apply (scaled_le_shift _ _ (- et') (- et) (-971) (k - e)); try lia.
Qed.

(** ** The order of the percentages *)

(** X13: over a positive finite [totalTasks], a larger [completedTasks]
    never gives a smaller percentage, whatever the signs and sizes of the
    counts: the division, the product and [Math.round] each keep the
    order. *)
Theorem more_completed_never_lowers_percentage
  (completedTasks completedTasks' totalTasks : number) :
  (0 <? totalTasks)%float = true ->
  (totalTasks <? infinity)%float = true ->
  (completedTasks <=? completedTasks')%float = true ->
  (percentage completedTasks totalTasks
   <=? percentage completedTasks' totalTasks)%float = true.
Proof.
  intros Ht Hfin Hc.
  destruct (positive_finite_spec totalTasks Ht Hfin) as [mt [et Et]].
  unfold percentage. apply round_monotone.
  rewrite leb_spec, !mul_spec, Prim2SF_100.
  apply SFmul_100_monotone; try apply Prim2SF_valid.
  rewrite !div_spec.
  apply (SFdiv_monotone _ _ _ mt et); try apply Prim2SF_valid;
    [exact Et | now rewrite <- leb_spec].
Qed.

Lemma more_completed_never_lowers_percentage_witness :
  (percentage 2 7 <=? percentage 3 7)%float = true.
Proof.
  exact (more_completed_never_lowers_percentage 2 3 7 eq_refl eq_refl eq_refl).
Defined.

(** X14: for a [completedTasks] that is not negative, a larger positive
    finite [totalTasks] never gives a larger percentage. *)
Theorem larger_total_never_raises_percentage
  (completedTasks totalTasks totalTasks' : number) :
  (0 <=? completedTasks)%float = true ->
  (0 <? totalTasks)%float = true ->
  (totalTasks <=? totalTasks')%float = true ->
  (totalTasks' <? infinity)%float = true ->
  (percentage completedTasks totalTasks'
   <=? percentage completedTasks totalTasks)%float = true.
Proof.
  intros Hc Ht Htt Hfin.
  unfold percentage. apply round_monotone.
  rewrite leb_spec, !mul_spec, Prim2SF_100.
  apply SFmul_100_monotone; try apply Prim2SF_valid.
  rewrite !div_spec.
  rewrite leb_spec in Hc, Htt. rewrite ltb_spec in Ht, Hfin.
  apply SFdiv_antitone; try apply Prim2SF_valid; assumption.
Qed.

Lemma larger_total_never_raises_percentage_witness :
  (percentage 2 9 <=? percentage 2 7)%float = true.
Proof.
  exact (larger_total_never_raises_percentage 2 7 9
           eq_refl eq_refl eq_refl eq_refl).
Defined.
